(** * Feature block generators of triage's architect component

    A shallow embedding of
    [src/triage/component/architect/feature_block_generators.py]:
    the choice resolver with its per-instance cache, the merge of imputation
    rules, the builders of column specifications, the assembly and the
    preprocessing of spacetime aggregations, and the dispatch over the
    registry of feature block generators.

    Python code that mutates the generator, talks to the database or logs is
    embedded in a state-and-exception monad: a computation takes a state and
    gives back either a value or the exception raised, together with the
    state reached at that point (an exception does not undo what was done
    before it). *)

From Stdlib Require Import ZArith Ascii String.
From stdpp Require Import base decidable option list strings gmap fin_maps pretty.

Local Open Scope string_scope.
Local Open Scope list_scope.

(** ** Python values *)

(** Scalar values: what a cell of a database row or an entry of a YAML list
    of choices holds. *)
Inductive scalar :=
| SNone
| SBool (b : bool)
| SInt (z : Z)
| SStr (s : string).

#[global] Instance scalar_eq_dec : EqDecision scalar.
Proof. solve_decision. Defined.

(** [str(v)], as [str.format] renders a value in a [{}] field. *)
Definition py_str (v : scalar) : string :=
  match v with
  | SNone => "None"
  | SBool true => "True"
  | SBool false => "False"
  | SInt z => pretty z
  | SStr s => s
  end.

(** The integer a value is compared as, for the values Python compares as
    numbers: [True == 1] and [False == 0]. *)
Definition py_number (v : scalar) : option Z :=
  match v with
  | SBool b => Some (if b then 1 else 0)%Z
  | SInt z => Some z
  | SNone | SStr _ => None
  end.

(** [a == b], which is also the equality of dictionary keys. *)
Definition py_eqb (a b : scalar) : bool :=
  match py_number a, py_number b with
  | Some x, Some y => bool_decide (x = y)
  | None, None => bool_decide (a = b)
  | _, _ => false
  end.

(** Configuration values the generators pass on without looking inside. *)
#[local] Set Warnings "-register-all".
Inductive pyval :=
| PScalar (v : scalar)
| PList (l : list pyval)
| PDict (d : list (string * pyval)).

Definition PNone : pyval := PScalar SNone.
Definition PStr (s : string) : pyval := PScalar (SStr s).
Definition PInt (z : Z) : pyval := PScalar (SInt z).

(** A dictionary with string keys, compared as Python compares dictionaries:
    by its bindings, not by insertion order. *)
Abbreviation pydict := (gmap string pyval).

(** A dictionary whose keys are scalars, in insertion order: a list of
    bindings with pairwise different keys (by [==]). *)
Definition odict := list (scalar * string).

Fixpoint odict_get (d : odict) (k : scalar) : option string :=
  match d with
  | [] => None
  | (k', v) :: d' => if py_eqb k' k then Some v else odict_get d' k
  end.

(** [d[k] = v]: an existing key keeps its place and its first spelling and
    takes the new value, a new key goes last. *)
Fixpoint odict_setitem (d : odict) (k : scalar) (v : string) : odict :=
  match d with
  | [] => [(k, v)]
  | (k', v') :: d' =>
      if py_eqb k' k then (k', v) :: d' else (k', v') :: odict_setitem d' k v
  end.

(** ** Exceptions *)

Inductive exn :=
| KeyError (key : string)
| ValueError (msg : string)
| TypeError (msg : string)
| IndexError (msg : string)
| StoreError (statement : string).

#[global] Instance exn_eq_dec : EqDecision exn.
Proof. solve_decision. Defined.

Inductive result (A : Type) :=
| Ok (a : A)
| Raise (e : exn).
Arguments Ok {A} a.
Arguments Raise {A} e.

Definition is_ok {A} (r : result A) : bool :=
  match r with Ok _ => true | Raise _ => false end.

(** ** The state-and-exception monad *)

Definition M (S A : Type) : Type := S -> result A * S.

Definition ret {S A} (a : A) : M S A := fun s => (Ok a, s).

Definition raise {S A} (e : exn) : M S A := fun s => (Raise e, s).

Definition bind {S A B} (m : M S A) (k : A -> M S B) : M S B :=
  fun s =>
    match m s with
    | (Ok a, s') => k a s'
    | (Raise e, s') => (Raise e, s')
    end.

Notation "'let*' x ':=' m 'in' k" := (bind m (fun x => k))
  (at level 10, x binder, m at level 100, k at level 200).
Notation "m ;;; k" := (bind m (fun _ => k))
  (at level 100, k at level 200, right associativity).

Definition gets {S A} (f : S -> A) : M S A := fun s => (Ok (f s), s).

Definition modify {S} (f : S -> S) : M S unit := fun s => (Ok tt, f s).

(** [d[key]] on a dictionary used as a record: [KeyError] when absent. *)
Definition getitem {S A} (key : string) (field : option A) : M S A :=
  match field with
  | Some a => ret a
  | None => raise (KeyError key)
  end.

(** A list comprehension [[f x for x in l]] whose body has effects:
    left to right, stopping at the first exception. *)
Fixpoint comprehension {S A B} (f : A -> M S B) (l : list A) : M S (list B) :=
  match l with
  | [] => ret []
  | x :: l' => let* y := f x in let* ys := comprehension f l' in ret (y :: ys)
  end.

(** ** Configuration

    The configuration is a tree of Python dictionaries read from YAML. A
    dictionary used as a record becomes a record of options: [None] is an
    absent key, and subscripting an absent key raises [KeyError]. *)

(** An entry of ["aggregates"]. *)
Record aggregate_config := {
  agg_quantity : option pyval;
  agg_metrics : option (list string);
  agg_imputation : option pydict;
  agg_coltype : option pyval;
}.

(** An entry of ["categoricals"] or of ["array_categoricals"]. *)
Record categorical_config := {
  cat_column : option string;
  cat_metrics : option (list string);
  cat_choices : option (list scalar);
  cat_choice_query : option string;
  cat_imputation : option pydict;
  cat_coltype : option pyval;
}.

(** One aggregation block. *)
Record aggregation_config := {
  cfg_aggregates_imputation : option pydict;
  cfg_categoricals_imputation : option pydict;
  cfg_array_categoricals_imputation : option pydict;
  cfg_aggregates : option (list aggregate_config);
  cfg_categoricals : option (list categorical_config);
  cfg_array_categoricals : option (list categorical_config);
  cfg_from_obj : option string;
  cfg_intervals : option pyval;
  cfg_groups : option pyval;
  cfg_knowledge_date_column : option string;
  cfg_prefix : option string;
}.

(** The feature configuration: a dictionary from generator key to the
    value for that generator, in the insertion order [items()] follows. *)
Definition feature_config := list (string * list aggregation_config).

(** ** The interface of collate

    The classes of [triage.component.collate] are not part of the embedded
    file. A column specification is the constructor called together with the
    arguments of the call; a [SpacetimeAggregation] is the record of the
    arguments it was built from, its [from_obj] being the SQL text that
    [from_obj.text] reads back and that preprocessing assigns to. *)

Inductive column_spec :=
| Aggregate (quantity : pyval) (function : list string)
    (impute_rules : pydict) (coltype : pyval)
| Categorical (col : string) (choices : list scalar) (function : list string)
    (impute_rules : pydict) (include_null : bool) (coltype : pyval)
| Compare (col : string) (op : string) (choices : odict)
    (function : list string) (impute_rules : pydict)
    (op_in_name quote_choices include_null : bool) (coltype : pyval).

Record SpacetimeAggregation := {
  sa_aggregates : list column_spec;
  sa_from_obj : string;
  sa_intervals : pyval;
  sa_groups : pyval;
  sa_as_of_dates : list string;
  sa_cohort_table : option string;
  sa_entity_column : string;
  sa_date_column : string;
  sa_output_date_column : string;
  sa_feature_start_time : option string;
  sa_features_schema_name : string;
  sa_prefix : string;
  sa_features_ignore_cohort : bool;
}.

(** [aggregation.from_obj = table] *)
Definition set_from_obj (aggregation : SpacetimeAggregation) (table : string)
  : SpacetimeAggregation :=
  {| sa_aggregates := sa_aggregates aggregation;
     sa_from_obj := table;
     sa_intervals := sa_intervals aggregation;
     sa_groups := sa_groups aggregation;
     sa_as_of_dates := sa_as_of_dates aggregation;
     sa_cohort_table := sa_cohort_table aggregation;
     sa_entity_column := sa_entity_column aggregation;
     sa_date_column := sa_date_column aggregation;
     sa_output_date_column := sa_output_date_column aggregation;
     sa_feature_start_time := sa_feature_start_time aggregation;
     sa_features_schema_name := sa_features_schema_name aggregation;
     sa_prefix := sa_prefix aggregation;
     sa_features_ignore_cohort := sa_features_ignore_cohort aggregation |}.

(** The arguments [FromObj] is built from. *)
Record FromObj := {
  fo_from_obj : string;
  fo_name : string;
  fo_knowledge_date_column : string;
}.

(** ** What a run leaves behind *)

Inductive event :=
| EvWarning (msg : string)
| EvInfo (fmt : string)
| EvQuery (choice_query : string)
| EvExecute (statement : string)
| EvCreateTable (name : string) (source : string).

#[global] Instance event_eq_dec : EqDecision event.
Proof. solve_decision. Defined.

(** How many times the resolver handed a lookup query to the store. *)
Definition lookups (choice_query : string) (log : list event) : nat :=
  length (filter (fun e => e = EvQuery choice_query) log).

Definition is_creation (name : string) (e : event) : bool :=
  match e with
  | EvCreateTable n _ => bool_decide (n = name)
  | _ => false
  end.

(** How many times a physical table of that name was created. *)
Definition creations (name : string) (log : list event) : nat :=
  length (filter (fun e => is_creation name e = true) log).

(** The events that are calls to the store, as opposed to logging. *)
Definition is_store_call (e : event) : bool :=
  match e with
  | EvQuery _ | EvExecute _ | EvCreateTable _ _ => true
  | EvWarning _ | EvInfo _ => false
  end.

Definition store_calls (log : list event) : list event :=
  filter (fun e => is_store_call e = true) log.

Arguments lookups : simpl never.
Arguments creations : simpl never.
Arguments store_calls : simpl never.

(** The state of a generator instance. [db_engine] is the one store of the
    world; [from_objs] is assigned [{}] by [__init__] and never read. *)
Record SpacetimeAggregationGenerator := {
  gen_features_schema_name : string;
  categorical_cache : gmap string (list scalar);
  gen_feature_start_time : option string;
  materialize_subquery_fromobjs : bool;
  features_ignore_cohort : bool;
  entity_id_column : string;
}.

Definition set_categorical_cache (cache : gmap string (list scalar))
    (self : SpacetimeAggregationGenerator) : SpacetimeAggregationGenerator :=
  {| gen_features_schema_name := gen_features_schema_name self;
     categorical_cache := cache;
     gen_feature_start_time := gen_feature_start_time self;
     materialize_subquery_fromobjs := materialize_subquery_fromobjs self;
     features_ignore_cohort := features_ignore_cohort self;
     entity_id_column := entity_id_column self |}.

(** [SpacetimeAggregationGenerator.__init__] *)
Definition __init__ (features_schema_name : string)
    (feature_start_time : option string)
    (materialize_subquery_fromobjs features_ignore_cohort : bool)
  : SpacetimeAggregationGenerator :=
  {| gen_features_schema_name := features_schema_name;
     categorical_cache := ∅;
     gen_feature_start_time := feature_start_time;
     materialize_subquery_fromobjs := materialize_subquery_fromobjs;
     features_ignore_cohort := features_ignore_cohort;
     entity_id_column := "entity_id" |}.

(** ** Imputation rules *)

(** [dict(impute_rules, coltype=coltype, **override)]: a copy of
    [impute_rules], updated with the keyword arguments. The call itself
    refuses a keyword given twice, which is the case when [override] has a
    key ["coltype"] of its own. *)
Definition impute_rules_dict (impute_rules : pydict) (coltype : string)
    (override : pydict) : result pydict :=
  if decide ("coltype" ∈ dom override) then
    Raise (TypeError "dict() got multiple values for keyword argument 'coltype'")
  else
    Ok (override ∪ <["coltype" := PStr coltype]> impute_rules).

(** [x.get("imputation", {})] *)
Definition get_dict (field : option pydict) : pydict := default ∅ field.

(** ["array['{}'::varchar]".format(choice)] *)
Definition array_literal (choice : scalar) : string :=
  "array['" +:+ py_str choice +:+ "'::varchar]".

(** [{choice: "array['{}'::varchar]".format(choice) for choice in choices}] *)
Definition array_choices (choices : list scalar) : odict :=
  fold_left (fun d choice => odict_setitem d choice (array_literal choice))
    choices [].

(** [not cohort_table]: [None] and the empty string are false. *)
Definition py_not (cohort_table : option string) : bool :=
  match cohort_table with
  | None => true
  | Some s => bool_decide (s = "")
  end.

(** ** The world outside

    The relational store is a collaborator: a state of an unknown type and
    the function that executes a statement in it, giving the rows back, or
    nothing when the store fails. What [get_create_schema] answers for an
    aggregation is collate's business, and so is the test that tells a
    subquery from a table name. *)
Class Collaborators := {
  Store : Type;
  execute : Store -> string -> option (list (list scalar)) * Store;
  get_create_schema : SpacetimeAggregation -> option string;
  looks_like_subquery : string -> bool;
}.

Section Generators.

Context `{collaborators : Collaborators}.

(** The store, the names of the physical tables materialized in it, and the
    log of what happened, oldest first. *)
Record world := {
  store : Store;
  tables : gset string;
  events : list event;
}.

Definition record (e : event) : M world unit :=
  modify (fun w =>
    {| store := store w; tables := tables w; events := events w ++ [e] |}).

(** [logging.warning(msg)] *)
Definition logging_warning (msg : string) : M world unit :=
  record (EvWarning msg).

(** [logging.info(fmt, ...)] *)
Definition logging_info (fmt : string) : M world unit :=
  record (EvInfo fmt).

(** [conn.execute(statement)] on the connection of a
    [with db_engine.begin() as conn] block: a failure of the store, be it on
    opening the transaction or on the statement, comes out as an exception,
    and the state the store is left in (rolled back) is the store's to say.
    The log tells the lookup queries of the resolver ([EvQuery]) from the
    other statements ([EvExecute]). *)
Definition conn_execute (ev : string -> event) (statement : string)
  : M world (list (list scalar)) :=
  fun w =>
    let (answer, st) := execute (store w) statement in
    let w' := {| store := st;
                 tables := tables w;
                 events := events w ++ [ev statement] |} in
    match answer with
    | Some rows => (Ok rows, w')
    | None => (Raise (StoreError statement), w')
    end.

(** The exit of a [with db_engine.begin()] block that ran to its end: the
    transaction is committed, which is one more statement for the store, and
    its failure is raised after all that the block has done. *)
Definition commit : M world unit :=
  let* _ := conn_execute EvExecute "COMMIT" in ret tt.

(** [row[0]] *)
Definition row_first {S} (row : list scalar) : M S scalar :=
  match row with
  | v :: _ => ret v
  | [] => raise (IndexError "tuple index out of range")
  end.

(** Modelled from the spec: the statement [FromObj.maybe_materialize] hands
    to the store, a "create table from expression if not exists"; its
    wording is collate's and plays no part here. *)
Definition materialize_statement (from_obj : FromObj) : string :=
  "CREATE TABLE IF NOT EXISTS " +:+ fo_name from_obj +:+
  " AS (SELECT * FROM " +:+ fo_from_obj from_obj +:+ ")".

(** The table of that name is there from now on: created, unless it was
    already present. *)
Definition create_if_not_exists (name source : string) : M world unit :=
  modify (fun w =>
    if decide (name ∈ tables w) then w
    else {| store := store w;
            tables := {[name]} ∪ tables w;
            events := events w ++ [EvCreateTable name source] |}).

(** Modelled from the spec: [FromObj.maybe_materialize] of
    [triage.component.collate], which the embedded file calls and does not
    define. A source that looks like it should be persisted (it is not
    already a bare table reference) is materialized into the physical table
    of the target's name: the statement goes to the store in a transaction
    of its own, a failure of the store is raised, and once the transaction
    is committed the table is there, created unless a table of that name was
    already present. Any other source is left alone. *)
Definition maybe_materialize (from_obj : FromObj) : M world unit :=
  if looks_like_subquery (fo_from_obj from_obj) then
    let* _ := conn_execute EvExecute (materialize_statement from_obj) in
    commit ;;;
    create_if_not_exists (fo_name from_obj) (fo_from_obj from_obj)
  else ret tt.

(** Modelled from the spec: the property [FromObj.table] of
    [triage.component.collate]. A materialized source is referred to by the
    physical table, a bare table reference by itself. *)
Definition FromObj_table (from_obj : FromObj) : string :=
  if looks_like_subquery (fo_from_obj from_obj) then fo_name from_obj
  else fo_from_obj from_obj.

(** ** The generator *)

(** A method runs on the instance and the world. *)
Definition gstate : Type := SpacetimeAggregationGenerator * world.

(** A call on [self.db_engine] or on [logging]. *)
Definition outside {A} (m : M world A) : M gstate A :=
  fun s => let (r, w') := m s.2 in (r, (s.1, w')).

(** [with self.db_engine.begin() as conn: body]: the body, then the commit
    of the transaction. An exception in the body leaves the block at once. *)
Definition transaction {A} (body : M gstate A) : M gstate A :=
  let* a := body in
  outside commit ;;;
  ret a.

Definition _compute_choices (choice_query : string) : M gstate (list scalar) :=
  (let* cache := gets (fun s : gstate => categorical_cache s.1) in
   match cache !! choice_query with
   | Some _ => ret tt
   | None =>
       transaction
         (let* rows := outside (conn_execute EvQuery choice_query) in
          let* choices := comprehension row_first rows in
          modify (fun s : gstate =>
            (set_categorical_cache
               (<[choice_query := choices]> (categorical_cache s.1)) s.1,
             s.2))) ;;;
       outside (logging_info
         "Computed list of categoricals: %s for choice query: %s")
   end) ;;;
  let* cache := gets (fun s : gstate => categorical_cache s.1) in
  match cache !! choice_query with
  | Some choices => ret choices
  | None => raise (KeyError choice_query)
  end.

Definition _build_choices (categorical : categorical_config)
  : M gstate (list scalar) :=
  let* _ := getitem "column" (cat_column categorical) in
  let* _ := getitem "metrics" (cat_metrics categorical) in
  outside (logging_info
    "Building categorical choices for column %s, metrics %s") ;;;
  match cat_choices categorical with
  | Some choices =>
      outside (logging_info "Found list of configured choices: %s") ;;;
      ret choices
  | None =>
      let* choice_query := getitem "choice_query" (cat_choice_query categorical) in
      _compute_choices choice_query
  end.

(** [x.get('coltype', None)] *)
Definition get_coltype (field : option pyval) : pyval := default PNone field.

(** An exception raised by a pure expression. *)
Definition of_result {S A} (r : result A) : M S A := fun s => (r, s).

Definition _build_categoricals (categorical_config : list categorical_config)
    (impute_rules : pydict) : M gstate (list column_spec) :=
  comprehension (fun categorical =>
    let* col := getitem "column" (cat_column categorical) in
    let* choices := _build_choices categorical in
    let* function := getitem "metrics" (cat_metrics categorical) in
    let* rules := of_result (impute_rules_dict impute_rules "categorical"
                    (get_dict (cat_imputation categorical))) in
    ret (Categorical col choices function rules true
           (get_coltype (cat_coltype categorical))))
    categorical_config.

Definition _build_array_categoricals
    (categorical_config : list categorical_config)
    (impute_rules : pydict) : M gstate (list column_spec) :=
  comprehension (fun categorical =>
    let* col := getitem "column" (cat_column categorical) in
    let* choices := _build_choices categorical in
    let* function := getitem "metrics" (cat_metrics categorical) in
    let* rules := of_result (impute_rules_dict impute_rules "array_categorical"
                    (get_dict (cat_imputation categorical))) in
    ret (Compare col "@>" (array_choices choices) function rules
           false false true (get_coltype (cat_coltype categorical))))
    categorical_config.

(** The comprehension that builds the plain aggregates in [_aggregation]. *)
Definition build_aggregates (aggregates : list aggregate_config)
    (agimp : pydict) : M gstate (list column_spec) :=
  comprehension (fun aggregate =>
    let* quantity := getitem "quantity" (agg_quantity aggregate) in
    let* metrics := getitem "metrics" (agg_metrics aggregate) in
    let* rules := of_result (impute_rules_dict agimp "aggregate"
                    (get_dict (agg_imputation aggregate))) in
    ret (Aggregate quantity metrics rules
           (get_coltype (agg_coltype aggregate))))
    aggregates.

Definition _aggregation (aggregation_config : aggregation_config)
    (feature_dates : list string) (state_table : option string)
  : M gstate SpacetimeAggregation :=
  outside (logging_info
    "Building collate.SpacetimeAggregation for config %s and %s as_of_dates") ;;;
  let agimp := get_dict (cfg_aggregates_imputation aggregation_config) in
  let catimp := get_dict (cfg_categoricals_imputation aggregation_config) in
  let arrcatimp :=
    get_dict (cfg_array_categoricals_imputation aggregation_config) in
  let* aggregates :=
    build_aggregates (default [] (cfg_aggregates aggregation_config)) agimp in
  outside (logging_info "Found %s quantity aggregates") ;;;
  let* categoricals :=
    _build_categoricals
      (default [] (cfg_categoricals aggregation_config)) catimp in
  outside (logging_info "Found %s categorical aggregates") ;;;
  let* array_categoricals :=
    _build_array_categoricals
      (default [] (cfg_array_categoricals aggregation_config)) arrcatimp in
  outside (logging_info "Found %s array categorical aggregates") ;;;
  let* from_obj := getitem "from_obj" (cfg_from_obj aggregation_config) in
  let* intervals := getitem "intervals" (cfg_intervals aggregation_config) in
  let* groups := getitem "groups" (cfg_groups aggregation_config) in
  let* self := gets (fun s : gstate => s.1) in
  let* date_column :=
    getitem "knowledge_date_column"
      (cfg_knowledge_date_column aggregation_config) in
  let* prefix := getitem "prefix" (cfg_prefix aggregation_config) in
  ret {| sa_aggregates := aggregates ++ categoricals ++ array_categoricals;
         sa_from_obj := from_obj;
         sa_intervals := intervals;
         sa_groups := groups;
         sa_as_of_dates := feature_dates;
         sa_cohort_table := state_table;
         sa_entity_column := entity_id_column self;
         sa_date_column := date_column;
         sa_output_date_column := "as_of_date";
         sa_feature_start_time := gen_feature_start_time self;
         sa_features_schema_name := gen_features_schema_name self;
         sa_prefix := prefix;
         sa_features_ignore_cohort := features_ignore_cohort self |}.

(** The materialization target of an aggregation. *)
Definition target (aggregation : SpacetimeAggregation) : FromObj :=
  {| fo_from_obj := sa_from_obj aggregation;
     fo_name := sa_features_schema_name aggregation +:+ "." +:+
                sa_prefix aggregation;
     fo_knowledge_date_column := sa_date_column aggregation |}.

Definition preprocess_aggregation (aggregation : SpacetimeAggregation)
  : M gstate SpacetimeAggregation :=
  match get_create_schema aggregation with
  | Some create_schema =>
      transaction
        (let* _ := outside (conn_execute EvExecute create_schema) in ret tt)
  | None => ret tt
  end ;;;
  let* self := gets (fun s : gstate => s.1) in
  if materialize_subquery_fromobjs self then
    let from_obj := target aggregation in
    outside (maybe_materialize from_obj) ;;;
    ret (set_from_obj aggregation (FromObj_table from_obj))
  else ret aggregation.

Definition aggregations (feature_aggregation_config : list aggregation_config)
    (feature_dates : list string) (state_table : option string)
  : M gstate (list SpacetimeAggregation) :=
  comprehension (fun aggregation_config =>
    let* aggregation :=
      _aggregation aggregation_config feature_dates state_table in
    preprocess_aggregation aggregation)
    feature_aggregation_config.

(** A method called on a generator nothing else refers to: the instance is
    dropped when the call is over. *)
Definition on_instance {A} (self : SpacetimeAggregationGenerator)
    (m : M gstate A) : M world A :=
  fun w => let (r, s') := m (self, w) in (r, s'.2).

Definition generate_spacetime_aggregations
    (feature_aggregation_config : list aggregation_config)
    (as_of_dates : list string) (cohort_table : option string)
    (features_schema_name : string) (feature_start_time : option string)
    (materialize_subquery_fromobjs features_ignore_cohort : bool)
  : M world (list SpacetimeAggregation) :=
  let* features_ignore_cohort :=
    if py_not cohort_table then
      logging_warning
        "No cohort table passed. Imputation will not be possible." ;;;
      ret true
    else ret features_ignore_cohort in
  on_instance
    (__init__ features_schema_name feature_start_time
       materialize_subquery_fromobjs features_ignore_cohort)
    (aggregations feature_aggregation_config as_of_dates cohort_table).

(** ** The registry and the dispatch *)

(** What [feature_blocks_from_config] passes to a generator: the value of
    the key, the shared arguments, and [**kwargs], of which a generator
    takes [materialize_subquery_fromobjs]. *)
Definition feature_block_generator : Type :=
  list aggregation_config -> list string -> option string -> string ->
  option string -> bool -> option bool -> M world (list SpacetimeAggregation).

Definition FEATURE_BLOCK_GENERATOR_LOOKUP
  : list (string * feature_block_generator) :=
  [("spacetime_aggregations",
    fun config_value as_of_dates cohort_table features_schema_name
        feature_start_time features_ignore_cohort kwargs =>
      generate_spacetime_aggregations config_value as_of_dates cohort_table
        features_schema_name feature_start_time (default true kwargs)
        features_ignore_cohort)].

(** [d.get(key, None)] *)
Fixpoint dict_get {A} (d : list (string * A)) (key : string) : option A :=
  match d with
  | [] => None
  | (k, v) :: d' => if decide (k = key) then Some v else dict_get d' key
  end.

(** [d.keys()] *)
Definition dict_keys {A} (d : list (string * A)) : list string := d.*1.

(** [repr] of a string with no quote, backslash or control character. *)
Definition py_repr (s : string) : string := "'" +:+ s +:+ "'".

Fixpoint join (sep : string) (l : list string) : string :=
  match l with
  | [] => ""
  | [s] => s
  | s :: l' => s +:+ sep +:+ join sep l'
  end.

(** [str(d.keys())] *)
Definition str_dict_keys (keys : list string) : string :=
  "dict_keys([" +:+ join ", " (py_repr <$> keys) +:+ "])".

Definition unrecognized_key_message (config_key : string) : string :=
  "feature config key " +:+ config_key +:+
  " does not correspond to a recognized" +:+
  " feature generator.  Recognized feature generator keys:" +:+
  str_dict_keys (dict_keys FEATURE_BLOCK_GENERATOR_LOOKUP).

(** [for feature_block in blocks: feature_blocks.append(feature_block)] *)
Definition append_all {A} (feature_blocks blocks : list A) : list A :=
  fold_left (fun acc feature_block => acc ++ [feature_block])
    blocks feature_blocks.

(** The loop over [config.items()], on the list built so far. *)
Fixpoint feature_blocks_loop (items : feature_config)
    (as_of_dates : list string) (cohort_table : option string)
    (features_schema_name : string) (feature_start_time : option string)
    (features_ignore_cohort : bool) (kwargs : option bool)
    (feature_blocks : list SpacetimeAggregation)
  : M world (list SpacetimeAggregation) :=
  match items with
  | [] => ret feature_blocks
  | (config_key, config_value) :: items' =>
      match dict_get FEATURE_BLOCK_GENERATOR_LOOKUP config_key with
      | None => raise (ValueError (unrecognized_key_message config_key))
      | Some feature_block_generator =>
          let* blocks :=
            feature_block_generator config_value as_of_dates cohort_table
              features_schema_name feature_start_time features_ignore_cohort
              kwargs in
          feature_blocks_loop items' as_of_dates cohort_table
            features_schema_name feature_start_time features_ignore_cohort
            kwargs (append_all feature_blocks blocks)
      end
  end.

Definition feature_blocks_from_config (config : feature_config)
    (as_of_dates : list string) (cohort_table : option string)
    (features_schema_name : string) (feature_start_time : option string)
    (features_ignore_cohort : bool) (kwargs : option bool)
  : M world (list SpacetimeAggregation) :=
  feature_blocks_loop config as_of_dates cohort_table features_schema_name
    feature_start_time features_ignore_cohort kwargs [].

End Generators.

(** ** A concrete store and concrete configurations

    The store of the examples remembers the statements it was given. It
    has two rows for one lookup query and no row for any other statement. *)

Definition example_query : string := "select distinct kind from events".

Definition example_execute (st : list string) (statement : string)
  : option (list (list scalar)) * list string :=
  (if decide (statement = example_query) then
     Some [[SStr "arrest"; SInt 3]; [SStr "stop"; SInt 5]]
   else Some [],
   st ++ [statement]).

Definition example_looks_like_subquery (from_obj : string) : bool :=
  match from_obj with
  | String "("%char _ => true
  | _ => false
  end.

Definition example_collaborators : Collaborators :=
  {| Store := list string;
     execute := example_execute;
     get_create_schema := fun aggregation =>
       Some ("CREATE SCHEMA IF NOT EXISTS " +:+
             sa_features_schema_name aggregation);
     looks_like_subquery := example_looks_like_subquery |}.

Definition example_world : @world example_collaborators :=
  {| store := ([] : @Store example_collaborators);
     tables := ∅;
     events := [] |}.

(** A categorical resolved by the lookup query. *)
Definition example_categorical : categorical_config :=
  {| cat_column := Some "kind";
     cat_metrics := Some ["sum"];
     cat_choices := None;
     cat_choice_query := Some example_query;
     cat_imputation := None;
     cat_coltype := None |}.

(** A categorical with configured choices, and a lookup query on top. *)
Definition example_explicit : categorical_config :=
  {| cat_column := Some "kind";
     cat_metrics := Some ["max"];
     cat_choices := Some [SStr "arrest"; SStr "stop"];
     cat_choice_query := Some example_query;
     cat_imputation := Some {["type" := PStr "zero"]};
     cat_coltype := None |}.

(** A categorical whose configured list of choices is empty. *)
Definition example_no_choices : categorical_config :=
  {| cat_column := Some "kind";
     cat_metrics := Some ["max"];
     cat_choices := Some [];
     cat_choice_query := Some example_query;
     cat_imputation := None;
     cat_coltype := None |}.

Definition example_aggregate : aggregate_config :=
  {| agg_quantity := Some (PStr "amount");
     agg_metrics := Some ["sum"; "avg"];
     agg_imputation := Some {["b" := PInt 3; "c" := PInt 4]};
     agg_coltype := None |}.

Definition example_block (prefix : string) : aggregation_config :=
  {| cfg_aggregates_imputation := Some {["a" := PInt 1; "b" := PInt 2]};
     cfg_categoricals_imputation := None;
     cfg_array_categoricals_imputation := None;
     cfg_aggregates := Some [example_aggregate];
     cfg_categoricals := Some [example_categorical];
     cfg_array_categoricals := Some [example_categorical];
     cfg_from_obj := Some "(select * from events) as e";
     cfg_intervals := Some (PList [PStr "1y"]);
     cfg_groups := Some (PList [PStr "entity_id"]);
     cfg_knowledge_date_column := Some "event_date";
     cfg_prefix := Some prefix |}.

Definition example_generator : SpacetimeAggregationGenerator :=
  __init__ "features" None true false.

Definition example_state : @gstate example_collaborators :=
  (example_generator, example_world).

(** A recognized key first, an unrecognized one after it. *)
Definition example_config_bogus_last : feature_config :=
  [("spacetime_aggregations", [example_block "a"]); ("bogus_strategy", [])].

(** An aggregation as the assembler leaves it, its source a subquery. *)
Definition example_aggregation : SpacetimeAggregation :=
  {| sa_aggregates := [];
     sa_from_obj := "(select * from events) as e";
     sa_intervals := PList [PStr "1y"];
     sa_groups := PList [PStr "entity_id"];
     sa_as_of_dates := ["2020-01-01"];
     sa_cohort_table := Some "cohort";
     sa_entity_column := "entity_id";
     sa_date_column := "event_date";
     sa_output_date_column := "as_of_date";
     sa_feature_start_time := None;
     sa_features_schema_name := "features";
     sa_prefix := "events";
     sa_features_ignore_cohort := false |}.

(** The rule sets of the example of the specification, and an override
    that sets the tag itself. *)
Definition example_default : pydict := {["a" := PInt 1; "b" := PInt 2]}.
Definition example_override : pydict := {["b" := PInt 3; "c" := PInt 4]}.
Definition example_override_coltype : pydict :=
  {["coltype" := PStr "categorical"; "b" := PInt 3]}.

(** A store that is down when it is given its first statement and has one
    row for every statement after that, with collate asking for a schema. *)
Definition flaky_execute (st : list string) (statement : string)
  : option (list (list scalar)) * list string :=
  (match st with
   | [] => None
   | _ => Some [[SStr "arrest"]]
   end,
   st ++ [statement]).

Definition flaky_collaborators : Collaborators :=
  {| Store := list string;
     execute := flaky_execute;
     get_create_schema := fun aggregation =>
       Some ("CREATE SCHEMA IF NOT EXISTS " +:+
             sa_features_schema_name aggregation);
     looks_like_subquery := example_looks_like_subquery |}.

Definition flaky_state : @gstate flaky_collaborators :=
  (example_generator,
   {| store := ([] : @Store flaky_collaborators);
      tables := ∅;
      events := [] |}).

(** A store that answers every statement with one row and fails on every
    commit. *)
Definition refusing_execute (st : list string) (statement : string)
  : option (list (list scalar)) * list string :=
  (if decide (statement = "COMMIT") then None else Some [[SStr "arrest"]],
   st ++ [statement]).

Definition refusing_collaborators : Collaborators :=
  {| Store := list string;
     execute := refusing_execute;
     get_create_schema := fun _ => None;
     looks_like_subquery := example_looks_like_subquery |}.

Definition refusing_state : @gstate refusing_collaborators :=
  (example_generator,
   {| store := ([] : @Store refusing_collaborators);
      tables := ∅;
      events := [] |}).

(** A categorical with neither choices nor a query to find them. *)
Definition example_unresolvable : categorical_config :=
  {| cat_column := Some "kind";
     cat_metrics := Some ["sum"];
     cat_choices := None;
     cat_choice_query := None;
     cat_imputation := None;
     cat_coltype := None |}.

(** A categorical resolved by the lookup query, whose imputation sets the
    tag itself. *)
Definition example_bad_imputation : categorical_config :=
  {| cat_column := Some "kind";
     cat_metrics := Some ["sum"];
     cat_choices := None;
     cat_choice_query := Some example_query;
     cat_imputation := Some example_override_coltype;
     cat_coltype := None |}.

(** A plain aggregate without its quantity. *)
Definition example_aggregate_no_quantity : aggregate_config :=
  {| agg_quantity := None;
     agg_metrics := Some ["sum"];
     agg_imputation := None;
     agg_coltype := None |}.

(** The block of the examples, with one of its fields changed. *)
Definition example_block_without_prefix : aggregation_config :=
  {| cfg_aggregates_imputation := cfg_aggregates_imputation (example_block "b");
     cfg_categoricals_imputation := None;
     cfg_array_categoricals_imputation := None;
     cfg_aggregates := cfg_aggregates (example_block "b");
     cfg_categoricals := cfg_categoricals (example_block "b");
     cfg_array_categoricals := cfg_array_categoricals (example_block "b");
     cfg_from_obj := cfg_from_obj (example_block "b");
     cfg_intervals := None;
     cfg_groups := cfg_groups (example_block "b");
     cfg_knowledge_date_column := cfg_knowledge_date_column (example_block "b");
     cfg_prefix := None |}.

Definition example_block_bad_aggregate : aggregation_config :=
  {| cfg_aggregates_imputation := None;
     cfg_categoricals_imputation := None;
     cfg_array_categoricals_imputation := None;
     cfg_aggregates := Some [example_aggregate; example_aggregate_no_quantity];
     cfg_categoricals := Some [example_categorical];
     cfg_array_categoricals := None;
     cfg_from_obj := Some "events";
     cfg_intervals := Some (PList [PStr "1y"]);
     cfg_groups := Some (PList [PStr "entity_id"]);
     cfg_knowledge_date_column := Some "event_date";
     cfg_prefix := Some "events" |}.

(** ** Vocabulary of the properties *)

(** [wp m Q E s]: run from [s], [m] either returns a value and reaches a
    state that satisfy [Q], or raises an exception in a state that satisfy
    [E]. *)
Definition wp {S A} (m : M S A) (Q : A -> S -> Prop) (E : exn -> S -> Prop)
    (s : S) : Prop :=
  match m s with
  | (Ok a, s') => Q a s'
  | (Raise e, s') => E e s'
  end.

(** A computation that returns, whatever it returns. *)
Notation "'completes' m s" := (wp m (fun _ _ => True) (fun _ _ => False) s)
  (at level 10, m at level 9, s at level 9, only parsing).

(** The first column of the rows of a result, in row order. *)
Definition first_column (rows : list (list scalar)) : option (list scalar) :=
  mapM head rows.

(** The representative of a value among the values equal to it. *)
Definition canon (v : scalar) : scalar :=
  match v with
  | SBool b => SInt (if b then 1 else 0)
  | _ => v
  end.

(** The tag of the column variant a specification belongs to. *)
Definition variant_tag (spec : column_spec) : string :=
  match spec with
  | Aggregate _ _ _ _ => "aggregate"
  | Categorical _ _ _ _ _ _ => "categorical"
  | Compare _ _ _ _ _ _ _ _ _ => "array_categorical"
  end.

Definition spec_impute_rules (spec : column_spec) : pydict :=
  match spec with
  | Aggregate _ _ rules _ => rules
  | Categorical _ _ _ rules _ _ => rules
  | Compare _ _ _ _ rules _ _ _ _ => rules
  end.

(** The merge as the specification words it: the union of both rule sets,
    the value of the feature winning, tagged for the column variant. *)
Definition merges_as_union (default : pydict) (tag : string)
    (override : pydict) : Prop :=
  exists merged,
    impute_rules_dict default tag override = Ok merged /\
    (forall k v, override !! k = Some v -> merged !! k = Some v) /\
    (forall k, override !! k = None -> k <> "coltype" ->
       merged !! k = default !! k) /\
    merged !! "coltype" = Some (PStr tag).

(** The rules of a specification are the union of the default and of the
    override of its entry, the override winning, under the tag of its
    variant. *)
Definition merged_for (default override : pydict) (spec : column_spec)
  : Prop :=
  (forall k v, override !! k = Some v -> spec_impute_rules spec !! k = Some v) /\
  (forall k, override !! k = None -> k <> "coltype" ->
     spec_impute_rules spec !! k = default !! k) /\
  spec_impute_rules spec !! "coltype" = Some (PStr (variant_tag spec)).

(** Well-formed entries: the keys the builders subscript are there, a
    categorical has its choices or a query to find them, and the imputation
    of a feature does not set ["coltype"]. *)
Definition has_key {A} (field : option A) : bool :=
  match field with Some _ => true | None => false end.

Definition sets_coltype (imputation : option pydict) : bool :=
  bool_decide ("coltype" ∈ dom (get_dict imputation)).

Definition wf_aggregate (a : aggregate_config) : bool :=
  has_key (agg_quantity a) && has_key (agg_metrics a) &&
  negb (sets_coltype (agg_imputation a)).

Definition wf_categorical (c : categorical_config) : bool :=
  has_key (cat_column c) && has_key (cat_metrics c) &&
  (has_key (cat_choices c) || has_key (cat_choice_query c)) &&
  negb (sets_coltype (cat_imputation c)).

Definition wf_aggregation_config (cfg : aggregation_config) : bool :=
  forallb wf_aggregate (default [] (cfg_aggregates cfg)) &&
  forallb wf_categorical (default [] (cfg_categoricals cfg)) &&
  forallb wf_categorical (default [] (cfg_array_categoricals cfg)) &&
  has_key (cfg_from_obj cfg) && has_key (cfg_intervals cfg) &&
  has_key (cfg_groups cfg) && has_key (cfg_knowledge_date_column cfg) &&
  has_key (cfg_prefix cfg).

(** The first of the keys [SpacetimeAggregation] is called with that a
    block does not have, in the order the call subscripts them. *)
Definition first_missing_required (cfg : aggregation_config) : option string :=
  if negb (has_key (cfg_from_obj cfg)) then Some "from_obj"
  else if negb (has_key (cfg_intervals cfg)) then Some "intervals"
  else if negb (has_key (cfg_groups cfg)) then Some "groups"
  else if negb (has_key (cfg_knowledge_date_column cfg))
       then Some "knowledge_date_column"
  else if negb (has_key (cfg_prefix cfg)) then Some "prefix"
  else None.

(** Two blocks with the same column entries and the same type-level
    imputation. *)
Definition same_column_entries (cfg cfg' : aggregation_config) : Prop :=
  cfg_aggregates_imputation cfg = cfg_aggregates_imputation cfg' /\
  cfg_categoricals_imputation cfg = cfg_categoricals_imputation cfg' /\
  cfg_array_categoricals_imputation cfg
    = cfg_array_categoricals_imputation cfg' /\
  cfg_aggregates cfg = cfg_aggregates cfg' /\
  cfg_categoricals cfg = cfg_categoricals cfg' /\
  cfg_array_categoricals cfg = cfg_array_categoricals cfg'.

(** [r] is the run [r'] with its success turned into the exception [e]: the
    same state is reached, and a failure of [r'] is the failure of [r]. *)
Definition instead_of {S A B} (e : exn) (r : result A * S) (r' : result B * S)
  : Prop :=
  match r' with
  | (Ok _, s') => r = (Raise e, s')
  | (Raise e', s') => r = (Raise e', s')
  end.

(** An entry resolved by running the query [q]. *)
Definition looks_up (c : categorical_config) (q : string) : Prop :=
  cat_choices c = None /\ cat_choice_query c = Some q.

(** A block with a categorical or an array categorical that looks [q] up. *)
Definition references (cfg : aggregation_config) (q : string) : Prop :=
  exists c,
    (c ∈ default [] (cfg_categoricals cfg) \/
     c ∈ default [] (cfg_array_categoricals cfg)) /\
    looks_up c q.

(** What every block of a generation run carries. *)
Definition conventions (schema : string) (fst : option string)
    (cohort_table : option string) (flag : bool) (b : SpacetimeAggregation)
  : Prop :=
  sa_entity_column b = "entity_id" /\
  sa_output_date_column b = "as_of_date" /\
  sa_features_schema_name b = schema /\
  sa_feature_start_time b = fst /\
  sa_cohort_table b = cohort_table /\
  sa_features_ignore_cohort b = flag.

(** The block is the aggregation with its source expression at the table
    of that name, and every other field as it was. *)
Definition rewritten_to (name : string)
    (aggregation block : SpacetimeAggregation) : Prop :=
  sa_from_obj block = name /\
  sa_aggregates block = sa_aggregates aggregation /\
  sa_intervals block = sa_intervals aggregation /\
  sa_groups block = sa_groups aggregation /\
  sa_as_of_dates block = sa_as_of_dates aggregation /\
  sa_cohort_table block = sa_cohort_table aggregation /\
  sa_entity_column block = sa_entity_column aggregation /\
  sa_date_column block = sa_date_column aggregation /\
  sa_output_date_column block = sa_output_date_column aggregation /\
  sa_feature_start_time block = sa_feature_start_time aggregation /\
  sa_features_schema_name block = sa_features_schema_name aggregation /\
  sa_prefix block = sa_prefix aggregation /\
  sa_features_ignore_cohort block = sa_features_ignore_cohort aggregation.

Section Vocabulary.

Context `{collaborators : Collaborators}.

(** A store that answers every statement, with rows that have a first
    column. *)
Definition cooperative : Prop :=
  forall st statement,
    exists rows, (execute st statement).1 = Some rows /\
                 Forall (fun row => row <> []) rows.

(** The store accepts the schema directive of an aggregation, if it has
    one, whenever it is given. *)
Definition schema_accepted (aggregation : SpacetimeAggregation) : Prop :=
  forall st create_schema,
    get_create_schema aggregation = Some create_schema ->
    is_Some (execute st create_schema).1.

(** What a caller can do with a generator: the calls of its methods. *)
Inductive call :=
| call_compute_choices (choice_query : string)
| call_build_choices (categorical : categorical_config)
| call_build_categoricals (categorical_config : list categorical_config)
    (impute_rules : pydict)
| call_build_array_categoricals (categorical_config : list categorical_config)
    (impute_rules : pydict)
| call_aggregation (aggregation_config : aggregation_config)
    (feature_dates : list string) (state_table : option string)
| call_preprocess_aggregation (aggregation : SpacetimeAggregation)
| call_aggregations (feature_aggregation_config : list aggregation_config)
    (feature_dates : list string) (state_table : option string).

Definition perform (c : call) : M gstate unit :=
  match c with
  | call_compute_choices q => _compute_choices q ;;; ret tt
  | call_build_choices categorical => _build_choices categorical ;;; ret tt
  | call_build_categoricals cfg rules => _build_categoricals cfg rules ;;; ret tt
  | call_build_array_categoricals cfg rules =>
      _build_array_categoricals cfg rules ;;; ret tt
  | call_aggregation cfg dates table => _aggregation cfg dates table ;;; ret tt
  | call_preprocess_aggregation aggregation =>
      preprocess_aggregation aggregation ;;; ret tt
  | call_aggregations cfgs dates table => aggregations cfgs dates table ;;; ret tt
  end.

(** Calls one after the other, up to the first exception, which is where
    a generation run ends. *)
Fixpoint uninterrupted (calls : list call) : M gstate unit :=
  match calls with
  | [] => ret tt
  | c :: calls' => perform c ;;; uninterrupted calls'
  end.

(** The life of an instance: calls one after the other, by a caller that
    catches what a call raises and goes on with the instance as the call
    left it. The state is the one after the last call. *)
Fixpoint lifetime (calls : list call) (s : gstate) : gstate :=
  match calls with
  | [] => s
  | c :: calls' => lifetime calls' (perform c s).2
  end.

(** The cache and the log agree: since the instance was made, when each
    query had been looked up [base] times, a query was looked up once if
    it is in the cache and not at all if it is not. *)
Definition lookups_settled (base : string -> nat) (s : gstate) : Prop :=
  forall q,
    lookups q (events s.2) =
    base q + match categorical_cache s.1 !! q with Some _ => 1 | None => 0 end.

Definition lookups_bounded (base : string -> nat) (s : gstate) : Prop :=
  forall q, lookups q (events s.2) <= base q + 1.

(** The query [q] is in the cache of the instance. *)
Definition cached (q : string) (s : gstate) : Prop :=
  is_Some (categorical_cache s.1 !! q).

(** A step that leaves the instance alone and adds no lookup to the log. *)
Definition silent (s s' : gstate) : Prop :=
  s'.1 = s.1 /\
  (forall q, lookups q (events s'.2) = lookups q (events s.2)) /\
  exists more, events s'.2 = events s.2 ++ more.

(** The choices an entry can be resolved to. *)
Definition resolved (c : categorical_config) (choices : list scalar) : Prop :=
  exists s s', _build_choices c s = (Ok choices, s').

(** The specification built from an entry of the configuration. *)
Definition aggregate_of (agimp : pydict) (a : aggregate_config)
    (spec : column_spec) : Prop :=
  exists quantity metrics rules,
    agg_quantity a = Some quantity /\
    agg_metrics a = Some metrics /\
    impute_rules_dict agimp "aggregate" (get_dict (agg_imputation a))
      = Ok rules /\
    spec = Aggregate quantity metrics rules (get_coltype (agg_coltype a)).

Definition categorical_of (catimp : pydict) (c : categorical_config)
    (spec : column_spec) : Prop :=
  exists col choices metrics rules,
    cat_column c = Some col /\
    resolved c choices /\
    cat_metrics c = Some metrics /\
    impute_rules_dict catimp "categorical" (get_dict (cat_imputation c))
      = Ok rules /\
    spec = Categorical col choices metrics rules true
             (get_coltype (cat_coltype c)).

Definition array_categorical_of (arrcatimp : pydict) (c : categorical_config)
    (spec : column_spec) : Prop :=
  exists col choices metrics rules,
    cat_column c = Some col /\
    resolved c choices /\
    cat_metrics c = Some metrics /\
    impute_rules_dict arrcatimp "array_categorical"
      (get_dict (cat_imputation c)) = Ok rules /\
    spec = Compare col "@>" (array_choices choices) metrics rules
             false false true (get_coltype (cat_coltype c)).

(** The rejection as the specification words it: the configuration error,
    with the store as it was and no call made to it. *)
Definition rejected_up_front (config : feature_config)
    (as_of_dates : list string) (cohort_table : option string)
    (features_schema_name : string) (feature_start_time : option string)
    (features_ignore_cohort : bool) (kwargs : option bool) (w : world)
  : Prop :=
  exists msg w',
    feature_blocks_from_config config as_of_dates cohort_table
      features_schema_name feature_start_time features_ignore_cohort kwargs w
    = (Raise (ValueError msg), w') /\
    store w' = store w /\
    store_calls (events w') = store_calls (events w).

(** The block of one configuration: assembled, then preprocessed. *)
Definition feature_block (aggregation_config : aggregation_config)
    (feature_dates : list string) (state_table : option string)
  : M gstate SpacetimeAggregation :=
  let* aggregation :=
    _aggregation aggregation_config feature_dates state_table in
  preprocess_aggregation aggregation.

(** The world after a statement went to the store. *)
Definition after_execute (ev : string -> event) (statement : string)
    (w : world) : world :=
  {| store := (execute (store w) statement).2;
     tables := tables w;
     events := events w ++ [ev statement] |}.

(** The world after a line went to the log. *)
Definition after_record (e : event) (w : world) : world :=
  {| store := store w; tables := tables w; events := events w ++ [e] |}.

(** The world after the commit of a transaction was asked for. *)
Definition after_commit (w : world) : world :=
  after_execute EvExecute "COMMIT" w.

(** The world with the table of that name in it. *)
Definition with_table (name source : string) (w : world) : world :=
  if decide (name ∈ tables w) then w
  else {| store := store w;
          tables := {[name]} ∪ tables w;
          events := events w ++ [EvCreateTable name source] |}.

(** The store accepts a statement whenever it is given it. *)
Definition statement_accepted (statement : string) : Prop :=
  forall st, is_Some (execute st statement).1.

(** What the instance hands to the aggregations it assembles. *)
Definition built_by (self : SpacetimeAggregationGenerator)
    (state_table : option string) (a : SpacetimeAggregation) : Prop :=
  sa_features_ignore_cohort a = features_ignore_cohort self /\
  sa_cohort_table a = state_table /\
  sa_features_schema_name a = gen_features_schema_name self /\
  sa_feature_start_time a = gen_feature_start_time self /\
  sa_entity_column a = entity_id_column self /\
  sa_output_date_column a = "as_of_date".

(** The statement the store ran, or the failure of the store. *)
Definition answer_of (statement : string) (w : world)
  : result (list (list scalar)) :=
  match (execute (store w) statement).1 with
  | Some rows => Ok rows
  | None => Raise (StoreError statement)
  end.

End Vocabulary.

(** * Properties *)

(** ** Rules for [wp] *)

Section Rules.

Context {S : Type}.
Implicit Types s : S.

Lemma wp_ret {A} (a : A) (Q : A -> S -> Prop) E s :
  Q a s -> wp (ret a) Q E s.
Proof. done. Qed.

Lemma wp_raise {A} e (Q : A -> S -> Prop) (E : exn -> S -> Prop) s :
  E e s -> wp (raise e) Q E s.
Proof. done. Qed.

Lemma wp_bind {A B} (m : M S A) (k : A -> M S B) Q E s :
  wp m (fun a => wp (k a) Q E) E s -> wp (bind m k) Q E s.
Proof. unfold wp, bind. by destruct (m s) as [[a|e] s']. Qed.

Lemma wp_mono {A} (m : M S A) (Q Q' : A -> S -> Prop)
    (E E' : exn -> S -> Prop) s :
  wp m Q E s ->
  (forall a s', Q a s' -> Q' a s') ->
  (forall e s', E e s' -> E' e s') ->
  wp m Q' E' s.
Proof. unfold wp. destruct (m s) as [[a|e] s']; auto. Qed.

Lemma wp_gets {A} (f : S -> A) (Q : A -> S -> Prop) E s :
  Q (f s) s -> wp (gets f) Q E s.
Proof. done. Qed.

Lemma wp_modify (f : S -> S) (Q : unit -> S -> Prop) E s :
  Q tt (f s) -> wp (modify f) Q E s.
Proof. done. Qed.

Lemma wp_getitem {A} key (field : option A) (Q : A -> S -> Prop)
    (E : exn -> S -> Prop) s :
  (forall a, field = Some a -> Q a s) ->
  (field = None -> E (KeyError key) s) ->
  wp (getitem key field) Q E s.
Proof. destruct field; cbn; auto. Qed.

Lemma wp_of_result {A} (r : result A) (Q : A -> S -> Prop)
    (E : exn -> S -> Prop) s :
  (forall a, r = Ok a -> Q a s) ->
  (forall e, r = Raise e -> E e s) ->
  wp (of_result r) Q E s.
Proof. destruct r; cbn; auto. Qed.

(** A comprehension keeps an invariant that its body keeps, and relates
    each element to what was built from it. *)
Lemma wp_comprehension {A B} (f : A -> M S B) (I : S -> Prop)
    (R : A -> B -> Prop) (E : exn -> S -> Prop) (l : list A) s :
  I s ->
  (forall x s0, x ∈ l -> I s0 -> wp (f x) (fun y s1 => I s1 /\ R x y) E s0) ->
  wp (comprehension f l) (fun ys s' => I s' /\ Forall2 R l ys) E s.
Proof.
  revert s. induction l as [|x l IH]; intros s HI Hf; cbn [comprehension].
  - apply wp_ret. by split.
  - apply wp_bind. eapply wp_mono.
    + apply Hf; [left | exact HI].
    + intros y s1 [HI1 HR]. apply wp_bind. eapply wp_mono.
      * apply IH; [exact HI1 |]. intros x' s0 Hx'. apply Hf. by right.
      * intros ys s2 [HI2 HF]. apply wp_ret. split; [done |].
        by constructor.
      * auto.
    + auto.
Qed.

(** The equations of [bind]. *)
Lemma bind_assoc {A B C} (m : M S A) (k1 : A -> M S B) (k2 : B -> M S C) s :
  bind (bind m k1) k2 s = bind m (fun a => bind (k1 a) k2) s.
Proof. unfold bind. by destruct (m s) as [[a|e] s1]. Qed.

Lemma bind_ret {A B} (a : A) (k : A -> M S B) s : bind (ret a) k s = k a s.
Proof. done. Qed.

Lemma bind_ret_r {A} (m : M S A) s : bind m ret s = m s.
Proof. unfold bind, ret. by destruct (m s) as [[a|e] s1]. Qed.

Lemma bind_raise {A B} e (k : A -> M S B) s :
  bind (raise e) k s = (Raise e, s).
Proof. done. Qed.

Lemma bind_gets {A B} (f : S -> A) (k : A -> M S B) s :
  bind (gets f) k s = k (f s) s.
Proof. done. Qed.

Lemma bind_modify {B} (f : S -> S) (k : unit -> M S B) s :
  bind (modify f) k s = k tt (f s).
Proof. done. Qed.

Lemma bind_getitem {A B} key (field : option A) (k : A -> M S B) s :
  bind (getitem key field) k s =
  match field with
  | Some a => k a s
  | None => (Raise (KeyError key), s)
  end.
Proof. by destruct field. Qed.

Lemma bind_of_result {A B} (r : result A) (k : A -> M S B) s :
  bind (of_result r) k s =
  match r with
  | Ok a => k a s
  | Raise e => (Raise e, s)
  end.
Proof. by destruct r. Qed.

Lemma bind_congr {A B} (m m' : M S A) (k : A -> M S B) s :
  m s = m' s -> bind m k s = bind m' k s.
Proof. unfold bind. by intros ->. Qed.

Lemma bind_congr_k {A B} (m : M S A) (k k' : A -> M S B) s :
  (forall a s1, k a s1 = k' a s1) -> bind m k s = bind m k' s.
Proof. intros Hk. unfold bind. by destruct (m s) as [[a|e] s1]. Qed.

Lemma bind_eq {A B} (m : M S A) (k : A -> M S B) s s1 a :
  m s = (Ok a, s1) -> bind m k s = k a s1.
Proof. unfold bind. by intros ->. Qed.

Lemma bind_fails {A B} (m : M S A) (k : A -> M S B) s s1 e :
  m s = (Raise e, s1) -> bind m k s = (Raise e, s1).
Proof. unfold bind. by intros ->. Qed.

(** What [bind] gives when it returns. *)
Lemma bind_ok_inv {A B} (m : M S A) (k : A -> M S B) s b s' :
  bind m k s = (Ok b, s') ->
  exists a s1, m s = (Ok a, s1) /\ k a s1 = (Ok b, s').
Proof.
  unfold bind. destruct (m s) as [[a|e] s1] eqn:Hm; [eauto | done].
Qed.

(** A comprehension over a concatenation. *)
Lemma comprehension_app {A B} (f : A -> M S B) (l1 l2 : list A) s :
  comprehension f (l1 ++ l2) s =
  (let* ys1 := comprehension f l1 in
   let* ys2 := comprehension f l2 in
   ret (ys1 ++ ys2)) s.
Proof.
  revert s. induction l1 as [|x l1 IH]; intros s; cbn.
  - unfold bind, ret. by destruct (comprehension f l2 s) as [[ys|e] s'].
  - unfold bind at 1 3 4. destruct (f x s) as [[y|e] s1]; [| done].
    unfold bind at 1. rewrite IH. unfold bind, ret.
    destruct (comprehension f l1 s1) as [[ys1|e] s2]; [| done].
    by destruct (comprehension f l2 s2) as [[ys2|e] s3].
Qed.

(** The result of a comprehension has one element for each element of the
    list, built from it in the state the elements before it left. *)
Lemma comprehension_ok_inv {A B} (f : A -> M S B) (l : list A) s ys s' :
  comprehension f l s = (Ok ys, s') ->
  length ys = length l /\
  forall i x, l !! i = Some x ->
    exists s_i s_i' y,
      comprehension f (take i l) s = (Ok (take i ys), s_i) /\
      f x s_i = (Ok y, s_i') /\
      ys !! i = Some y.
Proof.
  revert s ys s'. induction l as [|x l IH]; intros s ys s' H; cbn in H.
  - injection H as <- <-. split; [done |]. intros i x Hi. done.
  - apply bind_ok_inv in H as (y & s1 & Hy & H).
    apply bind_ok_inv in H as (ys' & s2 & Hys & H).
    injection H as <- <-.
    destruct (IH _ _ _ Hys) as [Hlen Hidx]. split; [cbn; lia |].
    intros [|i] x' Hi; cbn in Hi.
    + injection Hi as <-. exists s, s1, y. by rewrite Hy.
    + destruct (Hidx i x' Hi) as (s_i & s_i' & y' & Htake & Hfx & Hy').
      exists s_i, s_i', y'. cbn. unfold bind. rewrite Hy. cbn.
      rewrite Htake. done.
Qed.

End Rules.

(** ** The log *)

Lemma lookups_app q (log1 log2 : list event) :
  lookups q (log1 ++ log2) = lookups q log1 + lookups q log2.
Proof. unfold lookups. by rewrite filter_app, length_app. Qed.

Lemma lookups_one q (e : event) :
  lookups q [e] = if decide (e = EvQuery q) then 1 else 0.
Proof.
  unfold lookups. rewrite filter_cons. by destruct (decide (e = EvQuery q)).
Qed.

Lemma lookups_other q (e : event) (log : list event) :
  e <> EvQuery q -> lookups q (log ++ [e]) = lookups q log.
Proof.
  intros He. rewrite lookups_app, lookups_one.
  destruct (decide (e = EvQuery q)); [done | lia].
Qed.

Lemma creations_app name (log1 log2 : list event) :
  creations name (log1 ++ log2) = creations name log1 + creations name log2.
Proof. unfold creations. by rewrite filter_app, length_app. Qed.

Lemma store_calls_app (log1 log2 : list event) :
  store_calls (log1 ++ log2) = store_calls log1 ++ store_calls log2.
Proof. unfold store_calls. by rewrite filter_app. Qed.

(** ** The choice resolver *)

Section Resolver.

Context `{collaborators : Collaborators}.
Implicit Types s : gstate.

(** The comprehension over the rows is pure: it is [first_column]. *)
Lemma comprehension_row_first {S} (rows : list (list scalar)) (s : S) :
  comprehension row_first rows s =
  (match first_column rows with
   | Some l => Ok l
   | None => Raise (IndexError "tuple index out of range")
   end, s).
Proof.
  unfold first_column. induction rows as [|row rows IH]; [done |].
  cbn [comprehension]. unfold bind. destruct row as [|v row]; [done |].
  cbn. rewrite IH. by destruct (mapM head rows).
Qed.

Lemma first_column_Some rows l :
  first_column rows = Some l <-> Forall2 (fun row v => head row = Some v) rows l.
Proof. unfold first_column. by rewrite mapM_Some. Qed.

Lemma conn_execute_eq ev statement (w : world) :
  conn_execute ev statement w =
  (answer_of statement w, after_execute ev statement w).
Proof.
  unfold conn_execute, answer_of, after_execute.
  by destruct (execute (store w) statement) as [[rows|] st].
Qed.

Lemma outside_eq {A} (m : M world A) s :
  outside m s = ((m s.2).1, (s.1, (m s.2).2)).
Proof. unfold outside. by destruct (m s.2). Qed.

Lemma bind_outside_record {B} e (k : unit -> M gstate B) s :
  bind (outside (record e)) k s = k tt (s.1, after_record e s.2).
Proof. done. Qed.

Lemma bind_outside_info {B} fmt (k : unit -> M gstate B) s :
  bind (outside (logging_info fmt)) k s =
  k tt (s.1, after_record (EvInfo fmt) s.2).
Proof. done. Qed.

Lemma bind_outside_execute {B} ev statement
    (k : list (list scalar) -> M gstate B) s :
  bind (outside (conn_execute ev statement)) k s =
  match answer_of statement s.2 with
  | Ok rows => k rows (s.1, after_execute ev statement s.2)
  | Raise e => (Raise e, (s.1, after_execute ev statement s.2))
  end.
Proof.
  unfold bind. rewrite outside_eq, conn_execute_eq. cbn.
  by destruct (answer_of statement s.2).
Qed.

Lemma bind_row_first {S B} rows (k : list scalar -> M S B) (s : S) :
  bind (comprehension row_first rows) k s =
  match first_column rows with
  | Some l => k l s
  | None => (Raise (IndexError "tuple index out of range"), s)
  end.
Proof.
  unfold bind. rewrite comprehension_row_first.
  by destruct (first_column rows).
Qed.

Lemma _compute_choices_hit q s l :
  categorical_cache s.1 !! q = Some l ->
  _compute_choices q s = (Ok l, s).
Proof.
  intros H. destruct s as [self w]. unfold _compute_choices, bind, gets. cbn.
  cbn in H. rewrite H. cbn. by rewrite H.
Qed.

Lemma bind_outside_commit {B} (k : unit -> M gstate B) s :
  bind (outside commit) k s =
  match answer_of "COMMIT" s.2 with
  | Ok _ => k tt (s.1, after_commit s.2)
  | Raise e => (Raise e, (s.1, after_commit s.2))
  end.
Proof.
  unfold bind. rewrite outside_eq. unfold commit, bind.
  rewrite conn_execute_eq. cbn. by destruct (answer_of "COMMIT" s.2).
Qed.

Lemma bind_transaction {A B} (body : M gstate A) (k : A -> M gstate B) s :
  bind (transaction body) k s =
  bind body (fun a s1 =>
    match answer_of "COMMIT" s1.2 with
    | Ok _ => k a (s1.1, after_commit s1.2)
    | Raise e => (Raise e, (s1.1, after_commit s1.2))
    end) s.
Proof.
  unfold transaction. rewrite bind_assoc. apply bind_congr_k. intros a s1.
  rewrite bind_assoc, bind_outside_commit.
  by destruct (answer_of "COMMIT" s1.2).
Qed.

Lemma _compute_choices_miss q s :
  categorical_cache s.1 !! q = None ->
  _compute_choices q s =
  match answer_of q s.2 with
  | Raise e => (Raise e, (s.1, after_execute EvQuery q s.2))
  | Ok rows =>
      match first_column rows with
      | None => (Raise (IndexError "tuple index out of range"),
                 (s.1, after_execute EvQuery q s.2))
      | Some l =>
          let self' :=
            set_categorical_cache (<[q := l]> (categorical_cache s.1)) s.1 in
          match answer_of "COMMIT" (after_execute EvQuery q s.2) with
          | Raise e =>
              (Raise e, (self', after_commit (after_execute EvQuery q s.2)))
          | Ok _ =>
              (Ok l,
               (self',
                after_record
                  (EvInfo
                     "Computed list of categoricals: %s for choice query: %s")
                  (after_commit (after_execute EvQuery q s.2))))
          end
      end
  end.
Proof.
  intros H. unfold _compute_choices.
  rewrite bind_assoc, bind_gets, H, !bind_assoc, bind_transaction.
  rewrite bind_assoc, bind_outside_execute.
  destruct (answer_of q s.2) as [rows|e]; [| done].
  rewrite bind_assoc, bind_row_first.
  destruct (first_column rows) as [l|]; [| done].
  rewrite bind_modify. cbn [fst snd].
  destruct (answer_of "COMMIT" (after_execute EvQuery q s.2)) as [rows'|e];
    [| done].
  rewrite bind_outside_info, bind_gets. cbn. by rewrite lookup_insert_eq.
Qed.

Lemma maybe_materialize_eq from_obj (w : world) :
  maybe_materialize from_obj w =
  if looks_like_subquery (fo_from_obj from_obj) then
    let w1 := after_execute EvExecute (materialize_statement from_obj) w in
    match answer_of (materialize_statement from_obj) w with
    | Raise e => (Raise e, w1)
    | Ok _ =>
        match answer_of "COMMIT" w1 with
        | Raise e => (Raise e, after_commit w1)
        | Ok _ =>
            (Ok tt,
             with_table (fo_name from_obj) (fo_from_obj from_obj)
               (after_commit w1))
        end
    end
  else (Ok tt, w).
Proof.
  unfold maybe_materialize.
  destruct (looks_like_subquery (fo_from_obj from_obj)); [| done].
  unfold bind at 1. rewrite conn_execute_eq.
  destruct (answer_of (materialize_statement from_obj) w) as [rows|e];
    [| done].
  cbn zeta. unfold bind, commit, bind. rewrite conn_execute_eq.
  by destruct (answer_of "COMMIT" _).
Qed.

Lemma bind_outside {A B} (m : M world A) (k : A -> M gstate B) s :
  bind (outside m) k s =
  match m s.2 with
  | (Ok a, w') => k a (s.1, w')
  | (Raise e, w') => (Raise e, (s.1, w'))
  end.
Proof. unfold bind, outside. by destruct (m s.2) as [[a|e] w']. Qed.

(** [_build_choices], case by case. *)
Lemma _build_choices_eq categorical s :
  _build_choices categorical s =
  match cat_column categorical, cat_metrics categorical with
  | None, _ => (Raise (KeyError "column"), s)
  | Some _, None => (Raise (KeyError "metrics"), s)
  | Some _, Some _ =>
      let s1 :=
        (s.1, after_record
                (EvInfo "Building categorical choices for column %s, metrics %s")
                s.2) in
      match cat_choices categorical with
      | Some choices =>
          (Ok choices,
           (s.1, after_record
                   (EvInfo "Found list of configured choices: %s") s1.2))
      | None =>
          match cat_choice_query categorical with
          | Some choice_query => _compute_choices choice_query s1
          | None => (Raise (KeyError "choice_query"), s1)
          end
      end
  end.
Proof.
  unfold _build_choices. rewrite bind_getitem.
  destruct (cat_column categorical); [| done]. rewrite bind_getitem.
  destruct (cat_metrics categorical); [| done]. rewrite bind_outside_info.
  destruct (cat_choices categorical); [by rewrite bind_outside_info |].
  rewrite bind_getitem. by destruct (cat_choice_query categorical).
Qed.

Lemma _build_choices_explicit categorical choices s :
  cat_choices categorical = Some choices ->
  let r := _build_choices categorical s in
  (r.2.1 = s.1 /\ store r.2.2 = store s.2 /\ tables r.2.2 = tables s.2 /\
   store_calls (events r.2.2) = store_calls (events s.2) /\
   forall q, lookups q (events r.2.2) = lookups q (events s.2)) /\
  (is_Some (cat_column categorical) -> is_Some (cat_metrics categorical) ->
   r.1 = Ok choices).
Proof.
  intros H r. subst r. rewrite _build_choices_eq, H.
  destruct (cat_column categorical) as [col|], (cat_metrics categorical) as [ms|];
    cbn; repeat split; try done;
    try (by rewrite !store_calls_app, !app_nil_r);
    try (intros q; by rewrite !lookups_other);
    try (by intros _ [? ?]); by intros [? ?].
Qed.

(** C5. An entry that comes with a list of choices is resolved to that very
    list, and resolving it asks the store nothing, whether or not the entry
    has a lookup query as well: the instance and its cache, the store and
    the calls to the store in the log are as before. The list is returned
    for an entry that has the column and the metrics every entry is
    subscripted for. *)
Theorem explicit_choices_used_verbatim categorical choices s :
  cat_choices categorical = Some choices ->
  let r := _build_choices categorical s in
  (r.2.1 = s.1 /\ store r.2.2 = store s.2 /\ tables r.2.2 = tables s.2 /\
   store_calls (events r.2.2) = store_calls (events s.2) /\
   forall q, lookups q (events r.2.2) = lookups q (events s.2)) /\
  (is_Some (cat_column categorical) -> is_Some (cat_metrics categorical) ->
   r.1 = Ok choices).
Proof. apply _build_choices_explicit. Qed.

(** C10. It is the presence of the key that decides. An entry whose
    [choices] is the empty list is resolved to the empty list without a call
    to the store; an entry without the key is resolved by the lookup query;
    and an entry whose resolution called the store had no [choices] key. *)
Theorem presence_of_choices_decides categorical s :
  (cat_choices categorical = Some [] ->
   is_Some (cat_column categorical) -> is_Some (cat_metrics categorical) ->
   (_build_choices categorical s).1 = Ok [] /\
   store_calls (events (_build_choices categorical s).2.2) =
   store_calls (events s.2)) /\
  (forall choice_query,
     cat_choices categorical = None ->
     cat_choice_query categorical = Some choice_query ->
     is_Some (cat_column categorical) -> is_Some (cat_metrics categorical) ->
     _build_choices categorical s =
     _compute_choices choice_query
       (s.1, after_record
               (EvInfo "Building categorical choices for column %s, metrics %s")
               s.2)) /\
  (store_calls (events (_build_choices categorical s).2.2) <>
   store_calls (events s.2) ->
   cat_choices categorical = None).
Proof.
  split; [| split].
  - intros H Hc Hm.
    destruct (_build_choices_explicit categorical [] s H)
      as [(_ & _ & _ & Hcalls & _) Hr].
    split; [by apply Hr | exact Hcalls].
  - intros q H Hq [col Hc] [ms Hm]. by rewrite _build_choices_eq, Hc, Hm, H, Hq.
  - intros Hcalls. destruct (cat_choices categorical) as [choices|] eqn:H; [| done].
    destruct (_build_choices_explicit categorical choices s H)
      as [(_ & _ & _ & Hsame & _) _].
    done.
Qed.

End Resolver.

(** ** What every method keeps

    An invariant [I] of the instance and the log that silent steps and the
    resolver keep is kept by every method that returns; a method that raises
    leaves the weaker [J]. [P] is what is known of an aggregation built
    while [I] holds. *)

Section Invariant.

Context `{collaborators : Collaborators}.
Implicit Types s : gstate.

Variables (I J : gstate -> Prop).
Variable P : option string -> SpacetimeAggregation -> Prop.

Hypothesis I_J : forall s, I s -> J s.
Hypothesis I_silent : forall s s', I s -> silent s s' -> I s'.
Hypothesis I_compute :
  forall q s, I s -> wp (_compute_choices q) (fun _ => I) (fun _ => J) s.
Hypothesis P_built :
  forall s state_table a, I s -> built_by s.1 state_table a -> P state_table a.
Hypothesis P_set :
  forall state_table a from_obj,
    P state_table a -> P state_table (set_from_obj a from_obj).

Lemma silent_record e s :
  (forall q, e <> EvQuery q) -> silent s (s.1, after_record e s.2).
Proof.
  intros He. split; [done |]. split; [| by eexists].
  intros q. cbn. by apply lookups_other.
Qed.

Lemma silent_execute statement s :
  silent s (s.1, after_execute EvExecute statement s.2).
Proof.
  split; [done |]. split; [| by eexists]. intros q. cbn. by apply lookups_other.
Qed.

Lemma silent_refl s : silent s s.
Proof. split; [done |]. split; [done |]. exists []. by rewrite app_nil_r. Qed.

Lemma silent_trans s1 s2 s3 : silent s1 s2 -> silent s2 s3 -> silent s1 s3.
Proof.
  intros (H1 & H2 & more & H3) (H1' & H2' & more' & H3').
  split; [congruence |]. split; [intros q; by rewrite H2', H2 |].
  exists (more ++ more'). by rewrite H3', H3, <- app_assoc.
Qed.

Lemma silent_commit s : silent s (s.1, after_commit s.2).
Proof. apply silent_execute. Qed.

Lemma silent_with_table name source s :
  silent s (s.1, with_table name source s.2).
Proof.
  unfold with_table. destruct (decide (name ∈ tables s.2)).
  - destruct s. apply silent_refl.
  - split; [done |]. split; [| by eexists].
    intros q. cbn. by apply lookups_other.
Qed.

Lemma silent_materialize from_obj s :
  silent s (s.1, (maybe_materialize from_obj s.2).2).
Proof.
  rewrite maybe_materialize_eq.
  destruct (looks_like_subquery (fo_from_obj from_obj));
    [| destruct s; apply silent_refl].
  cbn zeta.
  pose proof (silent_execute (materialize_statement from_obj) s) as H1.
  destruct (answer_of (materialize_statement from_obj) s.2); [| done].
  pose proof (silent_commit
                (s.1, after_execute EvExecute
                        (materialize_statement from_obj) s.2)) as H2.
  cbn [fst snd] in H2.
  destruct (answer_of "COMMIT" _).
  - eapply silent_trans; [exact H1 |]. eapply silent_trans; [exact H2 |].
    apply (silent_with_table _ _ (s.1, _)).
  - eapply silent_trans; [exact H1 | exact H2].
Qed.

Lemma wp_transaction {A} (body : M gstate A) Q E s :
  wp body
    (fun a s1 =>
       match answer_of "COMMIT" s1.2 with
       | Ok _ => Q a (s1.1, after_commit s1.2)
       | Raise e => E e (s1.1, after_commit s1.2)
       end) E s ->
  wp (transaction body) Q E s.
Proof.
  intros H. unfold wp. rewrite <- (bind_ret_r (transaction body)).
  rewrite bind_transaction. unfold wp in H. unfold bind.
  destruct (body s) as [[a|e] s1]; [| done].
  by destruct (answer_of "COMMIT" s1.2).
Qed.

Lemma wp_info {A} fmt (k : unit -> M gstate A) Q E s :
  wp (k tt) Q E (s.1, after_record (EvInfo fmt) s.2) ->
  wp (bind (outside (logging_info fmt)) k) Q E s.
Proof. unfold wp. by rewrite bind_outside_info. Qed.

Lemma I_info fmt s : I s -> I (s.1, after_record (EvInfo fmt) s.2).
Proof. intros HI. eapply I_silent; [exact HI |]. by apply silent_record. Qed.

Lemma keeps_build_choices categorical s :
  I s -> wp (_build_choices categorical) (fun _ => I) (fun _ => J) s.
Proof.
  intros HI. unfold wp at 1. rewrite _build_choices_eq.
  destruct (cat_column categorical); [| by apply I_J].
  destruct (cat_metrics categorical); [| by apply I_J]. cbn zeta.
  destruct (cat_choices categorical).
  { apply (I_info _ (s.1, _)). by apply I_info. }
  destruct (cat_choice_query categorical) as [q|].
  - apply I_compute. by apply I_info.
  - apply I_J. by apply I_info.
Qed.

Lemma keeps_build_categoricals cfg rules s :
  I s ->
  wp (_build_categoricals cfg rules) (fun _ => I) (fun _ => J) s.
Proof.
  intros HI. unfold _build_categoricals. eapply wp_mono.
  - apply (wp_comprehension _ I (fun _ _ => True) (fun _ => J)); [done |].
    intros c s0 _ HI0. apply wp_bind, wp_getitem; [intros col _ | by intros; apply I_J].
    apply wp_bind. eapply wp_mono; [by apply keeps_build_choices | | done].
    intros choices s1 HI1.
    apply wp_bind, wp_getitem; [intros ms _ | by intros; apply I_J].
    apply wp_bind, wp_of_result; [intros m _ | by intros; apply I_J].
    by apply wp_ret.
  - by intros specs s' [? _].
  - done.
Qed.

Lemma keeps_build_array_categoricals cfg rules s :
  I s ->
  wp (_build_array_categoricals cfg rules) (fun _ => I) (fun _ => J) s.
Proof.
  intros HI. unfold _build_array_categoricals. eapply wp_mono.
  - apply (wp_comprehension _ I (fun _ _ => True) (fun _ => J)); [done |].
    intros c s0 _ HI0. apply wp_bind, wp_getitem; [intros col _ | by intros; apply I_J].
    apply wp_bind. eapply wp_mono; [by apply keeps_build_choices | | done].
    intros choices s1 HI1.
    apply wp_bind, wp_getitem; [intros ms _ | by intros; apply I_J].
    apply wp_bind, wp_of_result; [intros m _ | by intros; apply I_J].
    by apply wp_ret.
  - by intros specs s' [? _].
  - done.
Qed.

Lemma keeps_build_aggregates aggregates agimp s :
  I s ->
  wp (build_aggregates aggregates agimp) (fun _ => I) (fun _ => J) s.
Proof.
  intros HI. unfold build_aggregates. eapply wp_mono.
  - apply (wp_comprehension _ I (fun _ _ => True) (fun _ => J)); [done |].
    intros c s0 _ HI0.
    apply wp_bind, wp_getitem; [intros q _ | by intros; apply I_J].
    apply wp_bind, wp_getitem; [intros ms _ | by intros; apply I_J].
    apply wp_bind, wp_of_result; [intros m _ | by intros; apply I_J].
    by apply wp_ret.
  - by intros specs s' [? _].
  - done.
Qed.

Lemma keeps_aggregation cfg dates state_table s :
  I s ->
  wp (_aggregation cfg dates state_table)
    (fun a s' => I s' /\ P state_table a) (fun _ => J) s.
Proof.
  intros HI. unfold _aggregation.
  apply wp_info. apply I_info with (fmt :=
    "Building collate.SpacetimeAggregation for config %s and %s as_of_dates")
    in HI.
  cbn zeta. apply wp_bind.
  eapply wp_mono; [by apply keeps_build_aggregates | | done].
  intros aggregates s1 HI1. apply wp_info.
  apply I_info with (fmt := "Found %s quantity aggregates") in HI1.
  apply wp_bind.
  eapply wp_mono; [by apply keeps_build_categoricals | | done].
  intros categoricals s2 HI2. apply wp_info.
  apply I_info with (fmt := "Found %s categorical aggregates") in HI2.
  apply wp_bind.
  eapply wp_mono; [by apply keeps_build_array_categoricals | | done].
  intros array_categoricals s3 HI3. apply wp_info.
  apply I_info with (fmt := "Found %s array categorical aggregates") in HI3.
  apply wp_bind, wp_getitem; [intros from_obj _ | by intros; apply I_J].
  apply wp_bind, wp_getitem; [intros intervals _ | by intros; apply I_J].
  apply wp_bind, wp_getitem; [intros groups _ | by intros; apply I_J].
  apply wp_bind, wp_gets.
  apply wp_bind, wp_getitem; [intros date_column _ | by intros; apply I_J].
  apply wp_bind, wp_getitem; [intros prefix _ | by intros; apply I_J].
  apply wp_ret. split; [done |]. eapply P_built; [exact HI3 |].
  by repeat split.
Qed.

Lemma keeps_preprocess_aggregation aggregation s :
  I s ->
  wp (preprocess_aggregation aggregation)
    (fun a s' => I s' /\ exists from_obj, a = set_from_obj aggregation from_obj)
    (fun _ => J) s.
Proof.
  intros HI. unfold preprocess_aggregation. apply wp_bind.
  apply wp_mono with (Q := fun _ => I) (E := fun _ => J); [| | done].
  { destruct (get_create_schema aggregation) as [create_schema|];
      [| by apply wp_ret].
    apply wp_transaction. unfold wp. rewrite bind_outside_execute.
    assert (H1 : I (s.1, after_execute EvExecute create_schema s.2))
      by (eapply I_silent; [exact HI | apply silent_execute]).
    destruct (answer_of create_schema s.2); [| by apply I_J].
    cbn [ret fst snd].
    assert (I (s.1, after_commit (after_execute EvExecute create_schema s.2)))
      by (eapply I_silent; [exact H1 | apply (silent_commit (s.1, _))]).
    destruct (answer_of "COMMIT" _); [done | by apply I_J]. }
  intros _ s1 HI1. apply wp_bind, wp_gets.
  destruct (materialize_subquery_fromobjs s1.1).
  - unfold wp. rewrite bind_outside.
    assert (I (s1.1, (maybe_materialize (target aggregation) s1.2).2))
      by (eapply I_silent; [exact HI1 | apply silent_materialize]).
    destruct (maybe_materialize (target aggregation) s1.2) as [[[]|e] w'].
    + cbn. split; [done | eauto].
    + by apply I_J.
  - apply wp_ret. split; [done |]. exists (sa_from_obj aggregation).
    by destruct aggregation.
Qed.

Lemma keeps_feature_block cfg dates state_table s :
  I s ->
  wp (feature_block cfg dates state_table)
    (fun a s' => I s' /\ P state_table a) (fun _ => J) s.
Proof.
  intros HI. unfold feature_block. apply wp_bind.
  eapply wp_mono; [by apply keeps_aggregation | | done].
  intros a s1 [HI1 HP].
  eapply wp_mono; [by apply keeps_preprocess_aggregation | | done].
  intros a' s2 [HI2 [from_obj ->]]. split; [done |]. by apply P_set.
Qed.

Lemma keeps_aggregations cfgs dates state_table s :
  I s ->
  wp (aggregations cfgs dates state_table)
    (fun blocks s' => I s' /\ Forall (P state_table) blocks) (fun _ => J) s.
Proof.
  intros HI. unfold aggregations. eapply wp_mono.
  - apply (wp_comprehension _ I (fun _ a => P state_table a) (fun _ => J));
      [done |].
    intros cfg s0 _ HI0. by apply keeps_feature_block.
  - intros blocks s' [HI' HF]. split; [done |].
    clear -HF. induction HF; by constructor.
  - done.
Qed.

Lemma keeps_perform c s :
  I s -> wp (perform c) (fun _ => I) (fun _ => J) s.
Proof.
  intros HI. destruct c; cbn [perform]; apply wp_bind.
  - eapply wp_mono; [by apply I_compute | | done]. by intros; apply wp_ret.
  - eapply wp_mono; [by apply keeps_build_choices | | done].
    by intros; apply wp_ret.
  - eapply wp_mono; [by apply keeps_build_categoricals | | done].
    by intros; apply wp_ret.
  - eapply wp_mono; [by apply keeps_build_array_categoricals | | done].
    by intros; apply wp_ret.
  - eapply wp_mono; [by apply keeps_aggregation | | done].
    by intros ? ? [? ?]; apply wp_ret.
  - eapply wp_mono; [by apply keeps_preprocess_aggregation | | done].
    by intros ? ? [? ?]; apply wp_ret.
  - eapply wp_mono; [by apply keeps_aggregations | | done].
    by intros ? ? [? ?]; apply wp_ret.
Qed.

Lemma keeps_uninterrupted calls s :
  I s -> wp (uninterrupted calls) (fun _ => I) (fun _ => J) s.
Proof.
  revert s. induction calls as [|c calls IH]; intros s HI; cbn [uninterrupted].
  - by apply wp_ret.
  - apply wp_bind. eapply wp_mono; [by apply keeps_perform | | done].
    intros ? s1 HI1. by apply IH.
Qed.

(** What also holds where a call fails holds for the whole life of the
    instance. *)
Lemma keeps_lifetime calls s :
  (forall s', J s' -> I s') -> I s -> I (lifetime calls s).
Proof.
  intros J_I. revert s.
  induction calls as [|c calls IH]; intros s HI; cbn [lifetime]; [done |].
  apply IH. pose proof (keeps_perform c s HI) as H. unfold wp in H.
  destruct (perform c s) as [[[]|e] s1]; [done | by apply J_I].
Qed.

End Invariant.

(** ** One lookup for each query *)

Section Lookups.

Context `{collaborators : Collaborators}.
Implicit Types s : gstate.

Lemma lookups_after_query q q' (log : list event) :
  lookups q' (log ++ [EvQuery q]) =
  lookups q' log + (if decide (q = q') then 1 else 0).
Proof.
  rewrite lookups_app, lookups_one.
  destruct (decide (q = q')) as [->|Hne].
  - by rewrite decide_True.
  - rewrite decide_False; [done |]. by intros [= ?].
Qed.

Lemma settled_compute base q s :
  lookups_settled base s ->
  wp (_compute_choices q) (fun _ => lookups_settled base)
    (fun _ => lookups_bounded base) s.
Proof.
  intros HI. unfold wp.
  destruct (categorical_cache s.1 !! q) as [l|] eqn:Hq.
  { by rewrite (_compute_choices_hit q s l). }
  rewrite _compute_choices_miss by done.
  assert (Hraise : lookups_bounded base (s.1, after_execute EvQuery q s.2)).
  { intros q'. cbn. rewrite lookups_after_query, (HI q').
    destruct (decide (q = q')) as [<-|Hne]; [rewrite Hq; lia |].
    destruct (categorical_cache s.1 !! q'); lia. }
  destruct (answer_of q s.2) as [rows|e]; [| done].
  destruct (first_column rows) as [l|]; [| done]. cbn zeta.
  assert (Hset : forall q',
    lookups q' (events (after_commit (after_execute EvQuery q s.2))) =
    base q' + match <[q := l]> (categorical_cache s.1) !! q' with
              | Some _ => 1 | None => 0 end).
  { intros q'. cbn. rewrite lookups_other by done.
    rewrite lookups_after_query, (HI q').
    destruct (decide (q = q')) as [<-|Hne].
    - rewrite lookup_insert_eq, Hq. lia.
    - rewrite lookup_insert_ne by done.
      destruct (categorical_cache s.1 !! q'); lia. }
  destruct (answer_of "COMMIT" _).
  - intros q'. cbn -[after_commit]. rewrite lookups_other by done.
    apply Hset.
  - intros q'. cbn -[after_commit]. rewrite Hset.
    destruct (_ !! q'); lia.
Qed.

(** A resolution leaves the other entries of the cache, and the lookups of
    the other queries, as they are. *)
Lemma cached_compute q0 l n q s :
  categorical_cache s.1 !! q0 = Some l /\ lookups q0 (events s.2) = n ->
  wp (_compute_choices q)
    (fun _ s' =>
       categorical_cache s'.1 !! q0 = Some l /\ lookups q0 (events s'.2) = n)
    (fun _ s' =>
       categorical_cache s'.1 !! q0 = Some l /\ lookups q0 (events s'.2) = n)
    s.
Proof.
  intros [HI Hn]. unfold wp.
  destruct (categorical_cache s.1 !! q) as [l'|] eqn:Hq.
  { by rewrite (_compute_choices_hit q s l'). }
  rewrite _compute_choices_miss by done.
  assert (Hne : q <> q0) by (intros ->; congruence).
  assert (Hlog : lookups q0 (events s.2 ++ [EvQuery q]) = n).
  { rewrite lookups_after_query, decide_False by done. lia. }
  destruct (answer_of q s.2) as [rows|e]; [| done].
  destruct (first_column rows) as [l'|]; [| done]. cbn zeta.
  destruct (answer_of "COMMIT" _); cbn.
  - rewrite lookup_insert_ne by done. by rewrite !lookups_other by done.
  - rewrite lookup_insert_ne by done. by rewrite lookups_other by done.
Qed.

Lemma settled_bounded base s : lookups_settled base s -> lookups_bounded base s.
Proof.
  intros HI q. rewrite (HI q). destruct (categorical_cache s.1 !! q); lia.
Qed.

Lemma settled_silent base s s' :
  lookups_settled base s -> silent s s' -> lookups_settled base s'.
Proof. intros HI (Hself & Hlog & _) q. by rewrite Hlog, Hself. Qed.

(** From a fresh instance, whatever is called, up to the first exception:
    at most one lookup more. *)
Lemma uninterrupted_lookups calls self (w : world) q :
  categorical_cache self = ∅ ->
  lookups q (events (uninterrupted calls (self, w)).2.2)
  <= lookups q (events w) + 1.
Proof.
  intros Hfresh. set (base := fun q => lookups q (events w)).
  assert (H : wp (uninterrupted calls) (fun _ => lookups_settled base)
                (fun _ => lookups_bounded base) (self, w)).
  { apply keeps_uninterrupted with (P := fun _ _ => True); try done.
    - apply settled_bounded.
    - apply settled_silent.
    - apply settled_compute.
    - intros q'. cbn. rewrite Hfresh, lookup_empty. unfold base. lia. }
  unfold wp in H. destruct (uninterrupted calls (self, w)) as [[[]|e] s'].
  - by apply settled_bounded in H.
  - apply H.
Qed.

(** Once cached, always cached, with the same list, and never asked for
    again: whatever is called, and whatever the calls raise. *)
Lemma lifetime_cached calls s q l :
  categorical_cache s.1 !! q = Some l ->
  categorical_cache (lifetime calls s).1 !! q = Some l /\
  lookups q (events (lifetime calls s).2) = lookups q (events s.2).
Proof.
  intros Hq.
  apply (keeps_lifetime
           (fun s' => categorical_cache s'.1 !! q = Some l /\
                      lookups q (events s'.2) = lookups q (events s.2))
           (fun s' => categorical_cache s'.1 !! q = Some l /\
                      lookups q (events s'.2) = lookups q (events s.2))
           (fun _ _ => True)); try done.
  - intros s0 s1 [H0 H1] (Hself & Hlog & _). by rewrite Hself, Hlog.
  - intros q' s0. apply cached_compute.
Qed.

Lemma _compute_choices_answered q s rows l :
  categorical_cache s.1 !! q = None ->
  (execute (store s.2) q).1 = Some rows ->
  first_column rows = Some l ->
  _compute_choices q s =
  let self' := set_categorical_cache (<[q := l]> (categorical_cache s.1)) s.1 in
  match answer_of "COMMIT" (after_execute EvQuery q s.2) with
  | Raise e => (Raise e, (self', after_commit (after_execute EvQuery q s.2)))
  | Ok _ =>
      (Ok l,
       (self',
        after_record
          (EvInfo "Computed list of categoricals: %s for choice query: %s")
          (after_commit (after_execute EvQuery q s.2))))
  end.
Proof.
  intros Hq Hrows Hl. rewrite _compute_choices_miss by done.
  assert (answer_of q s.2 = Ok rows) as -> by (unfold answer_of; by rewrite Hrows).
  by rewrite Hl.
Qed.

Lemma _compute_choices_unanswered q s :
  categorical_cache s.1 !! q = None ->
  (forall rows,
     (execute (store s.2) q).1 = Some rows -> first_column rows = None) ->
  exists e,
    _compute_choices q s = (Raise e, (s.1, after_execute EvQuery q s.2)).
Proof.
  intros Hq Hrows. rewrite _compute_choices_miss by done. unfold answer_of.
  destruct (execute (store s.2) q).1 as [rows|]; [| by eexists].
  rewrite (Hrows rows) by done. by eexists.
Qed.

(** C2, amended. The store is asked a lookup query once for each resolution made
    while the query is not in the cache of the instance, and never while it
    is; so not always at most once in the life of an instance. Once a list
    is cached for the query, through any calls of the methods of the
    instance, the calls that raise included, the query is not asked again,
    the list stays, and every resolution returns that list and leaves the
    instance, the store and the log as they are. A resolution on a miss that
    the store answers, every row with a first column, caches the first
    column of the rows, in row order, under the text of the query, with one
    lookup; it returns the list, unless the commit of its transaction fails,
    which is then what it raises, and it returns the list where the store
    accepts the commit. A resolution on a miss that the store does not
    answer so raises, with one lookup, and leaves the instance as it was,
    the query not cached: the next resolution asks again. From [__init__]
    through any calls of the methods up to the first exception, the store is
    asked the query at most once. *)
Theorem lookup_query_executed_once_per_miss (q : string) :
  (forall s l calls,
     categorical_cache s.1 !! q = Some l ->
     lookups q (events (lifetime calls s).2) = lookups q (events s.2) /\
     categorical_cache (lifetime calls s).1 !! q = Some l /\
     _compute_choices q (lifetime calls s) = (Ok l, lifetime calls s)) /\
  (forall s rows l,
     categorical_cache s.1 !! q = None ->
     (execute (store s.2) q).1 = Some rows ->
     first_column rows = Some l ->
     ((_compute_choices q s).1 = Ok l \/
      (_compute_choices q s).1 = Raise (StoreError "COMMIT")) /\
     (statement_accepted "COMMIT" -> (_compute_choices q s).1 = Ok l) /\
     categorical_cache (_compute_choices q s).2.1 =
       <[q := l]> (categorical_cache s.1) /\
     lookups q (events (_compute_choices q s).2.2) =
       lookups q (events s.2) + 1) /\
  (forall s,
     categorical_cache s.1 !! q = None ->
     (forall rows,
        (execute (store s.2) q).1 = Some rows -> first_column rows = None) ->
     (exists e, (_compute_choices q s).1 = Raise e) /\
     (_compute_choices q s).2.1 = s.1 /\
     lookups q (events (_compute_choices q s).2.2) =
       lookups q (events s.2) + 1) /\
  (forall calls features_schema_name feature_start_time materialize
          features_ignore_cohort (w : world),
     lookups q
       (events (uninterrupted calls
                  (__init__ features_schema_name feature_start_time
                     materialize features_ignore_cohort, w)).2.2)
     <= lookups q (events w) + 1).
Proof.
  split; [| split; [| split]].
  - intros s l calls Hq.
    destruct (lifetime_cached calls s q l Hq) as [Hc Hn].
    split; [done |]. split; [done |]. by apply _compute_choices_hit.
  - intros s rows l Hq Hrows Hl.
    rewrite (_compute_choices_answered q s rows l) by done.
    assert (Hlog : lookups q (events (after_commit
                                        (after_execute EvQuery q s.2))) =
                   lookups q (events s.2) + 1).
    { cbn. rewrite lookups_other by done. rewrite lookups_after_query.
      by rewrite decide_True. }
    split; [| split; [| split]].
    + unfold answer_of. destruct (execute _ "COMMIT").1; cbn; auto.
    + intros Hcommit. unfold answer_of.
      by destruct (Hcommit (store (after_execute EvQuery q s.2)))
        as [rows' ->].
    + by destruct (answer_of "COMMIT" _).
    + destruct (answer_of "COMMIT" _); cbn -[after_commit];
        [rewrite lookups_other by done |]; exact Hlog.
  - intros s Hq Hrows.
    destruct (_compute_choices_unanswered q s Hq Hrows) as [e ->].
    split; [by eexists |]. split; [done |].
    cbn. rewrite lookups_after_query. by rewrite decide_True.
  - intros calls schema fst materialize fic w.
    by apply uninterrupted_lookups.
Qed.

End Lookups.

(** ** The column specifications *)

Section Builders.

Context `{collaborators : Collaborators}.
Implicit Types s : gstate.

Lemma wp_self {S A} (m : M S A) (t : S) :
  wp m (fun a t' => m t = (Ok a, t')) (fun _ _ => True) t.
Proof. unfold wp. by destruct (m t) as [[a|e] t']. Qed.

Lemma wp_ok {S A} (m : M S A) (Q : A -> S -> Prop) (t t' : S) a :
  wp m Q (fun _ _ => True) t -> m t = (Ok a, t') -> Q a t'.
Proof. unfold wp. intros H Hm. by rewrite Hm in H. Qed.

Lemma build_aggregates_specs aggregates agimp s specs s' :
  build_aggregates aggregates agimp s = (Ok specs, s') ->
  Forall2 (aggregate_of agimp) aggregates specs.
Proof.
  intros H. eapply (wp_ok _ (fun specs _ => Forall2 _ aggregates specs));
    [| exact H].
  eapply wp_mono;
    [apply (wp_comprehension _ (fun _ => True) (aggregate_of agimp)
              (fun _ _ => True)); [done |] | by intros ? ? [_ ?] | done].
  intros a s0 _ _.
  apply wp_bind, wp_getitem; [intros quantity Hq | done].
  apply wp_bind, wp_getitem; [intros metrics Hm | done].
  apply wp_bind, wp_of_result; [intros rules Hr | done].
  apply wp_ret. split; [done |]. by exists quantity, metrics, rules.
Qed.

Lemma _build_categoricals_specs cfg catimp s specs s' :
  _build_categoricals cfg catimp s = (Ok specs, s') ->
  Forall2 (categorical_of catimp) cfg specs.
Proof.
  intros H. eapply (wp_ok _ (fun specs _ => Forall2 _ cfg specs)); [| exact H].
  eapply wp_mono;
    [apply (wp_comprehension _ (fun _ => True) (categorical_of catimp)
              (fun _ _ => True)); [done |] | by intros ? ? [_ ?] | done].
  intros c s0 _ _.
  apply wp_bind, wp_getitem; [intros col Hc | done].
  apply wp_bind. eapply wp_mono; [apply wp_self | | done].
  intros choices s1 Hchoices.
  apply wp_bind, wp_getitem; [intros metrics Hm | done].
  apply wp_bind, wp_of_result; [intros rules Hr | done].
  apply wp_ret. split; [done |].
  exists col, choices, metrics, rules. repeat split; try done.
  by exists s0, s1.
Qed.

Lemma _build_array_categoricals_specs cfg arrcatimp s specs s' :
  _build_array_categoricals cfg arrcatimp s = (Ok specs, s') ->
  Forall2 (array_categorical_of arrcatimp) cfg specs.
Proof.
  intros H. eapply (wp_ok _ (fun specs _ => Forall2 _ cfg specs)); [| exact H].
  eapply wp_mono;
    [apply (wp_comprehension _ (fun _ => True) (array_categorical_of arrcatimp)
              (fun _ _ => True)); [done |] | by intros ? ? [_ ?] | done].
  intros c s0 _ _.
  apply wp_bind, wp_getitem; [intros col Hc | done].
  apply wp_bind. eapply wp_mono; [apply wp_self | | done].
  intros choices s1 Hchoices.
  apply wp_bind, wp_getitem; [intros metrics Hm | done].
  apply wp_bind, wp_of_result; [intros rules Hr | done].
  apply wp_ret. split; [done |].
  exists col, choices, metrics, rules. repeat split; try done.
  by exists s0, s1.
Qed.

(** *** The merge of imputation rules *)

Lemma impute_rules_dict_union default tag override :
  "coltype" ∉ dom override -> merges_as_union default tag override.
Proof.
  intros Hdom. unfold merges_as_union, impute_rules_dict.
  rewrite decide_False by done. eexists. split; [done |].
  apply not_elem_of_dom in Hdom. repeat split.
  - intros k v Hk. by apply lookup_union_Some_l.
  - intros k Hk Hne. rewrite lookup_union_r by done.
    by rewrite lookup_insert_ne.
  - rewrite lookup_union_r by done. by rewrite lookup_insert_eq.
Qed.

Lemma impute_rules_dict_ok default tag override rules :
  impute_rules_dict default tag override = Ok rules ->
  ("coltype" ∉ dom override) /\
  rules = override ∪ <["coltype" := PStr tag]> default.
Proof.
  unfold impute_rules_dict. destruct (decide _); [done |].
  by intros [= <-].
Qed.

Lemma merged_for_ok default override spec :
  impute_rules_dict default (variant_tag spec) override
    = Ok (spec_impute_rules spec) ->
  merged_for default override spec.
Proof.
  intros H. destruct (impute_rules_dict_ok _ _ _ _ H) as [Hdom _].
  destruct (impute_rules_dict_union default (variant_tag spec) override Hdom)
    as (merged & Hm & H1 & H2 & H3).
  rewrite H in Hm. injection Hm as <-. by repeat split.
Qed.

(** C3, amended. A feature-level override that does not set ["coltype"]
    merges with the type-level default into the union of both rule sets,
    the value of the feature winning on every key both have, with
    ["coltype"] bound to the tag asked for, whatever the default had there.
    And every specification that is built, of either of the three column
    variants, carries rules merged in this way under the tag of its own
    variant. *)
Theorem imputation_rules_merge :
  (forall default tag override,
     "coltype" ∉ dom override -> merges_as_union default tag override) /\
  (forall aggregates agimp s specs s',
     build_aggregates aggregates agimp s = (Ok specs, s') ->
     Forall2 (fun a spec =>
       variant_tag spec = "aggregate" /\
       merged_for agimp (get_dict (agg_imputation a)) spec) aggregates specs) /\
  (forall cfg catimp s specs s',
     _build_categoricals cfg catimp s = (Ok specs, s') ->
     Forall2 (fun c spec =>
       variant_tag spec = "categorical" /\
       merged_for catimp (get_dict (cat_imputation c)) spec) cfg specs) /\
  (forall cfg arrcatimp s specs s',
     _build_array_categoricals cfg arrcatimp s = (Ok specs, s') ->
     Forall2 (fun c spec =>
       variant_tag spec = "array_categorical" /\
       merged_for arrcatimp (get_dict (cat_imputation c)) spec) cfg specs).
Proof.
  split; [exact impute_rules_dict_union |]. repeat split.
  - intros aggregates agimp s specs s' H.
    apply build_aggregates_specs in H.
    eapply Forall2_impl; [exact H |].
    intros a spec (quantity & metrics & rules & _ & _ & Hr & ->).
    split; [done |]. by apply merged_for_ok.
  - intros cfg catimp s specs s' H. apply _build_categoricals_specs in H.
    eapply Forall2_impl; [exact H |].
    intros c spec (col & choices & metrics & rules & _ & _ & _ & Hr & ->).
    split; [done |]. by apply merged_for_ok.
  - intros cfg catimp s specs s' H. apply _build_array_categoricals_specs in H.
    eapply Forall2_impl; [exact H |].
    intros c spec (col & choices & metrics & rules & _ & _ & _ & Hr & ->).
    split; [done |]. by apply merged_for_ok.
Qed.

(** *** Dictionaries of choices *)

Lemma py_eqb_canon a b : py_eqb a b = bool_decide (canon a = canon b).
Proof.
  destruct a as [|[]|x|x], b as [|[]|y|y]; cbn; try done;
    apply bool_decide_ext; split; congruence.
Qed.

Lemma py_eqb_true a b : py_eqb a b = true <-> canon a = canon b.
Proof. by rewrite py_eqb_canon, bool_decide_eq_true. Qed.

Lemma py_eqb_refl a : py_eqb a a = true.
Proof. by apply py_eqb_true. Qed.

Lemma odict_get_setitem d k v k' :
  odict_get (odict_setitem d k v) k' =
  if py_eqb k k' then Some v else odict_get d k'.
Proof.
  induction d as [|[k1 v1] d IH]; cbn; [done |].
  destruct (py_eqb k1 k) eqn:H1; cbn.
  - destruct (py_eqb k1 k') eqn:H2, (py_eqb k k') eqn:H3; try done.
    + apply py_eqb_true in H1, H2. apply not_true_iff_false in H3.
      exfalso. apply H3, py_eqb_true. congruence.
    + apply py_eqb_true in H1, H3. apply not_true_iff_false in H2.
      exfalso. apply H2, py_eqb_true. congruence.
  - rewrite IH. destruct (py_eqb k1 k') eqn:H2, (py_eqb k k') eqn:H3; try done.
    apply py_eqb_true in H2, H3. apply not_true_iff_false in H1.
    exfalso. apply H1, py_eqb_true. congruence.
Qed.

Lemma odict_setitem_entries d k v k' v' :
  (k', v') ∈ odict_setitem d k v ->
  (k', v') ∈ d \/ (py_eqb k' k = true /\ v' = v).
Proof.
  induction d as [|[k1 v1] d IH]; cbn.
  - intros [= -> ->]%list_elem_of_singleton. right.
    split; [apply py_eqb_refl | done].
  - destruct (py_eqb k1 k) eqn:H1.
    + intros [[= -> ->]|H]%elem_of_cons; [by right |]. left. by right.
    + intros [[= -> ->]|H]%elem_of_cons; [left; by left |].
      destruct (IH H) as [?|?]; [left; by right | by right].
Qed.

Lemma array_choices_snoc choices choice :
  array_choices (choices ++ [choice]) =
  odict_setitem (array_choices choices) choice (array_literal choice).
Proof. unfold array_choices. by rewrite fold_left_app. Qed.

(** Every choice is a key, bound to the array literal of a choice equal to
    it: of itself, unless a later choice is equal to it. *)
Lemma array_choices_get choices choice :
  choice ∈ choices ->
  exists c, c ∈ choices /\ py_eqb choice c = true /\
            odict_get (array_choices choices) choice = Some (array_literal c).
Proof.
  induction choices as [|c0 choices IH] using rev_ind; [by intros ?%elem_of_nil |].
  intros Hin. rewrite array_choices_snoc, odict_get_setitem.
  destruct (py_eqb c0 choice) eqn:H0.
  - exists c0. split; [apply elem_of_app; right; by apply list_elem_of_singleton |].
    split; [| done]. apply py_eqb_true. by apply py_eqb_true in H0.
  - apply elem_of_app in Hin as [Hin|Hin].
    + destruct (IH Hin) as (c & Hc & Heq & Hget). exists c.
      split; [apply elem_of_app; by left | done].
    + apply list_elem_of_singleton in Hin as ->.
      by rewrite py_eqb_refl in H0.
Qed.

(** Every value of the dictionary is the array literal of a choice. *)
Lemma array_choices_entries choices k v :
  (k, v) ∈ array_choices choices ->
  exists c, c ∈ choices /\ py_eqb k c = true /\ v = array_literal c.
Proof.
  induction choices as [|c0 choices IH] using rev_ind; [by intros ?%elem_of_nil |].
  rewrite array_choices_snoc. intros [H|[Heq ->]]%odict_setitem_entries.
  - destruct (IH H) as (c & Hc & Heq & Hv). exists c.
    split; [apply elem_of_app; by left | done].
  - exists c0. split; [| done].
    apply elem_of_app; right; by apply list_elem_of_singleton.
Qed.

(** C8. Every specification of a categorical and of an array categorical is
    built with [include_null] true. An array categorical is a comparison
    with the operator ["@>"], with the quoting of choices off, and its
    choices are a dictionary in which every resolved choice is a key and
    every value is a single-element array literal of a choice, not the bare
    value. *)
Theorem categorical_specs_surface_null :
  (forall cfg catimp s specs s',
     _build_categoricals cfg catimp s = (Ok specs, s') ->
     Forall (fun spec =>
       exists col choices function rules coltype,
         spec = Categorical col choices function rules true coltype) specs) /\
  (forall cfg arrcatimp s specs s',
     _build_array_categoricals cfg arrcatimp s = (Ok specs, s') ->
     Forall2 (fun c spec =>
       exists col choices function rules coltype,
         resolved c choices /\
         spec = Compare col "@>" (array_choices choices) function rules
                  false false true coltype /\
         (forall choice, choice ∈ choices ->
            exists c', c' ∈ choices /\ py_eqb choice c' = true /\
              odict_get (array_choices choices) choice =
              Some ("array['" +:+ py_str c' +:+ "'::varchar]")) /\
         (forall k v, (k, v) ∈ array_choices choices ->
            exists c', c' ∈ choices /\ py_eqb k c' = true /\
              v = "array['" +:+ py_str c' +:+ "'::varchar]")) cfg specs).
Proof.
  split.
  - intros cfg catimp s specs s' H. apply _build_categoricals_specs in H.
    induction H as [|c spec cfg specs Hc _ IH]; constructor; [| done].
    destruct Hc as (col & choices & metrics & rules & _ & _ & _ & _ & ->).
    by eexists _, _, _, _, _.
  - intros cfg arrcatimp s specs s' H.
    apply _build_array_categoricals_specs in H.
    eapply Forall2_impl; [exact H |].
    intros c spec (col & choices & metrics & rules & _ & Hres & _ & _ & ->).
    exists col, choices, metrics, rules, (get_coltype (cat_coltype c)).
    split; [done |]. split; [done |]. split.
    + apply array_choices_get.
    + apply array_choices_entries.
Qed.

End Builders.

(** ** The order of the feature blocks *)

Section Orchestrator.

Context `{collaborators : Collaborators}.
Implicit Types s : gstate.
Implicit Types w : world.

Lemma append_all_app {A} (feature_blocks blocks : list A) :
  append_all feature_blocks blocks = feature_blocks ++ blocks.
Proof.
  unfold append_all. revert feature_blocks.
  induction blocks as [|b blocks IH]; intros acc; cbn.
  - by rewrite app_nil_r.
  - by rewrite IH, <- app_assoc.
Qed.

(** The loop only ever appends to the list it was given. *)
Lemma feature_blocks_loop_acc items dates cohort schema fst fic kwargs acc w :
  feature_blocks_loop items dates cohort schema fst fic kwargs acc w =
  (let* blocks := feature_blocks_loop items dates cohort schema fst fic kwargs []
   in ret (acc ++ blocks)) w.
Proof.
  revert acc w. induction items as [|[key value] items IH]; intros acc w;
    cbn [feature_blocks_loop].
  - by rewrite bind_ret, app_nil_r.
  - destruct (dict_get FEATURE_BLOCK_GENERATOR_LOOKUP key) as [gen|]; [| done].
    rewrite bind_assoc.
    destruct (gen value dates cohort schema fst fic kwargs w)
      as [[blocks|e] w1] eqn:Hgen.
    2: { by rewrite !(bind_fails _ _ _ _ _ Hgen). }
    rewrite !(bind_eq _ _ _ _ _ Hgen). cbn beta.
    rewrite IH, (bind_congr _ _ _ _ (IH (append_all [] blocks) w1)), bind_assoc.
    destruct (feature_blocks_loop items dates cohort schema fst fic kwargs [] w1)
      as [[blocks'|e] w2] eqn:Hloop.
    2: { by rewrite !(bind_fails _ _ _ _ _ Hloop). }
    rewrite !(bind_eq _ _ _ _ _ Hloop). cbn beta. rewrite bind_ret. cbn.
    by rewrite !append_all_app, app_assoc.
Qed.

Lemma feature_blocks_loop_app items1 items2 dates cohort schema fst fic kwargs
    acc w :
  feature_blocks_loop (items1 ++ items2) dates cohort schema fst fic kwargs acc w
  = (let* acc' :=
       feature_blocks_loop items1 dates cohort schema fst fic kwargs acc in
     feature_blocks_loop items2 dates cohort schema fst fic kwargs acc') w.
Proof.
  revert acc w. induction items1 as [|[key value] items1 IH]; intros acc w;
    cbn [feature_blocks_loop app].
  - done.
  - destruct (dict_get FEATURE_BLOCK_GENERATOR_LOOKUP key) as [gen|]; [| done].
    rewrite bind_assoc.
    destruct (gen value dates cohort schema fst fic kwargs w)
      as [[blocks|e] w1] eqn:Hgen.
    2: { by rewrite !(bind_fails _ _ _ _ _ Hgen). }
    rewrite !(bind_eq _ _ _ _ _ Hgen). apply IH.
Qed.

Lemma feature_blocks_from_config_app config1 config2 dates cohort schema fst
    fic kwargs w :
  feature_blocks_from_config (config1 ++ config2) dates cohort schema fst fic
    kwargs w =
  (let* blocks1 :=
     feature_blocks_from_config config1 dates cohort schema fst fic kwargs in
   let* blocks2 :=
     feature_blocks_from_config config2 dates cohort schema fst fic kwargs in
   ret (blocks1 ++ blocks2)) w.
Proof.
  unfold feature_blocks_from_config. rewrite feature_blocks_loop_app.
  destruct (feature_blocks_loop config1 dates cohort schema fst fic kwargs [] w)
    as [[blocks1|e] w1] eqn:H1.
  2: { by rewrite !(bind_fails _ _ _ _ _ H1). }
  rewrite !(bind_eq _ _ _ _ _ H1). apply feature_blocks_loop_acc.
Qed.

Lemma aggregations_app cfgs1 cfgs2 dates state_table s :
  aggregations (cfgs1 ++ cfgs2) dates state_table s =
  (let* blocks1 := aggregations cfgs1 dates state_table in
   let* blocks2 := aggregations cfgs2 dates state_table in
   ret (blocks1 ++ blocks2)) s.
Proof. apply comprehension_app. Qed.

Lemma aggregations_one cfg dates state_table s :
  aggregations [cfg] dates state_table s =
  (let* block := feature_block cfg dates state_table in ret [block]) s.
Proof.
  unfold aggregations, feature_block. cbn [comprehension]. unfold bind, ret.
  by destruct (_aggregation cfg dates state_table s) as [[a|e] s1];
    [destruct (preprocess_aggregation a s1) as [[b|e] s2] |].
Qed.

Lemma generate_spacetime_aggregations_eq cfgs dates cohort_table schema fst
    materialize flag w :
  generate_spacetime_aggregations cfgs dates cohort_table schema fst
    materialize flag w =
  on_instance (__init__ schema fst materialize (py_not cohort_table || flag))
    (aggregations cfgs dates cohort_table)
    (if py_not cohort_table then
       after_record
         (EvWarning "No cohort table passed. Imputation will not be possible.")
         w
     else w).
Proof.
  unfold generate_spacetime_aggregations. by destruct (py_not cohort_table).
Qed.

Lemma feature_blocks_of_spacetime_key config_value dates cohort schema fst fic
    kwargs w :
  feature_blocks_from_config [("spacetime_aggregations", config_value)]
    dates cohort schema fst fic kwargs w =
  generate_spacetime_aggregations config_value dates cohort schema fst
    (default true kwargs) fic w.
Proof.
  unfold feature_blocks_from_config. cbn [feature_blocks_loop].
  cbn [FEATURE_BLOCK_GENERATOR_LOOKUP dict_get]. rewrite decide_True by done.
  cbn [feature_blocks_loop]. unfold bind.
  destruct (generate_spacetime_aggregations _ _ _ _ _ _ _ w)
    as [[blocks|e] w1]; [| done].
  by rewrite append_all_app.
Qed.

Lemma aggregations_length cfgs dates state_table s blocks s' :
  aggregations cfgs dates state_table s = (Ok blocks, s') ->
  length blocks = length cfgs.
Proof.
  intros H. unfold aggregations in H.
  by apply comprehension_ok_inv in H as [Hlen _].
Qed.

(** C4. The list of feature blocks is the concatenation of the blocks of
    each generator key, in the order of the keys in the configuration: the
    blocks of a configuration that is a concatenation are the blocks of its
    first part followed by the blocks of its second part, and the blocks of
    a single key are the blocks its generator returns, in the order it
    returns them. The spacetime generator returns what [aggregations]
    returns on a new instance, and there the same holds of the aggregation
    blocks: the blocks of [A] come before the blocks of a later [B], and one
    configuration gives the one block built from it. So the list returned
    for the configurations [A] then [B] under the spacetime key is the list
    [aggregations] returns for [A] on the new instance, as long as [A],
    followed by the list it returns for [B] in the state [A] left, as long
    as [B]. *)
Theorem feature_blocks_in_configuration_order :
  (forall config1 config2 dates cohort schema fst fic kwargs w,
     feature_blocks_from_config (config1 ++ config2) dates cohort schema fst
       fic kwargs w =
     (let* blocks1 :=
        feature_blocks_from_config config1 dates cohort schema fst fic kwargs in
      let* blocks2 :=
        feature_blocks_from_config config2 dates cohort schema fst fic kwargs in
      ret (blocks1 ++ blocks2)) w) /\
  (forall config_value dates cohort schema fst fic kwargs w,
     feature_blocks_from_config [("spacetime_aggregations", config_value)]
       dates cohort schema fst fic kwargs w =
     generate_spacetime_aggregations config_value dates cohort schema fst
       (default true kwargs) fic w) /\
  (forall A B dates state_table s,
     aggregations (A ++ B) dates state_table s =
     (let* blocks_A := aggregations A dates state_table in
      let* blocks_B := aggregations B dates state_table in
      ret (blocks_A ++ blocks_B)) s) /\
  (forall cfg dates state_table s,
     aggregations [cfg] dates state_table s =
     (let* block := feature_block cfg dates state_table in ret [block]) s) /\
  (forall cfgs dates cohort schema fst materialize fic w,
     generate_spacetime_aggregations cfgs dates cohort schema fst materialize
       fic w =
     on_instance (__init__ schema fst materialize (py_not cohort || fic))
       (aggregations cfgs dates cohort)
       (if py_not cohort then
          after_record
            (EvWarning
               "No cohort table passed. Imputation will not be possible.")
            w
        else w)) /\
  (forall A B dates cohort schema fst fic kwargs w out w',
     feature_blocks_from_config [("spacetime_aggregations", A ++ B)]
       dates cohort schema fst fic kwargs w = (Ok out, w') ->
     exists blocks_A s1 blocks_B s2,
       aggregations A dates cohort
         (__init__ schema fst (default true kwargs) (py_not cohort || fic),
          if py_not cohort then
            after_record
              (EvWarning
                 "No cohort table passed. Imputation will not be possible.")
              w
          else w) = (Ok blocks_A, s1) /\
       aggregations B dates cohort s1 = (Ok blocks_B, s2) /\
       length blocks_A = length A /\
       length blocks_B = length B /\
       out = blocks_A ++ blocks_B /\
       w' = s2.2).
Proof.
  split; [exact feature_blocks_from_config_app |].
  split; [exact feature_blocks_of_spacetime_key |].
  split; [exact aggregations_app |]. split; [exact aggregations_one |].
  split; [exact generate_spacetime_aggregations_eq |].
  intros A B dates cohort schema fst fic kwargs w out w'.
  rewrite feature_blocks_of_spacetime_key, generate_spacetime_aggregations_eq.
  unfold on_instance. rewrite aggregations_app.
  destruct (bind _ _ _) as [r s2] eqn:Hrun. intros [= -> <-].
  apply bind_ok_inv in Hrun as (blocks_A & s1 & HA & Hrun).
  apply bind_ok_inv in Hrun as (blocks_B & s2' & HB & [= <- <-]).
  exists blocks_A, s1, blocks_B, s2'. split; [exact HA |]. split; [exact HB |].
  split; [by eapply aggregations_length |].
  split; [by eapply aggregations_length | done].
Qed.

(** C9. The list [aggregations] returns has one feature block for each
    configuration it was given: it is as long as the list of
    configurations, and its block at an index is the aggregation assembled
    from the configuration at that index and then preprocessed, in the state
    the configurations before it left. *)
Theorem one_block_per_configuration cfgs dates state_table s blocks s' :
  aggregations cfgs dates state_table s = (Ok blocks, s') ->
  length blocks = length cfgs /\
  forall i cfg, cfgs !! i = Some cfg ->
    exists s_i aggregation s_mid block s_i',
      aggregations (take i cfgs) dates state_table s
        = (Ok (take i blocks), s_i) /\
      _aggregation cfg dates state_table s_i = (Ok aggregation, s_mid) /\
      preprocess_aggregation aggregation s_mid = (Ok block, s_i') /\
      blocks !! i = Some block.
Proof.
  intros H. unfold aggregations in H.
  apply comprehension_ok_inv in H as [Hlen Hidx]. split; [done |].
  intros i cfg Hi. destruct (Hidx i cfg Hi) as (s_i & s_i' & block & Ht & Hb & Hblock).
  apply bind_ok_inv in Hb as (aggregation & s_mid & Ha & Hp).
  by exists s_i, aggregation, s_mid, block, s_i'.
Qed.

(** *** Unrecognized keys *)

Lemma string_app_assoc (a b c : string) : (a +:+ b) +:+ c = a +:+ b +:+ c.
Proof.
  induction a as [|x a IH]; [done |].
  change (String x ((a +:+ b) +:+ c) = String x (a +:+ b +:+ c)).
  by rewrite IH.
Qed.

Lemma message_names_keys config_key key :
  key ∈ dict_keys FEATURE_BLOCK_GENERATOR_LOOKUP ->
  exists before after,
    unrecognized_key_message config_key = before +:+ py_repr key +:+ after.
Proof.
  cbn. intros ->%list_elem_of_singleton.
  exists ("feature config key " +:+ config_key +:+
          " does not correspond to a recognized feature generator." +:+
          "  Recognized feature generator keys:dict_keys(["), "])".
  unfold unrecognized_key_message. rewrite !string_app_assoc.
  do 2 f_equal.
Qed.

(** C1, amended. The keys are dispatched one at a time, in the order of the
    configuration. A configuration with an unrecognized key never returns
    a list of feature blocks, partial or not. Reaching that key raises the
    configuration error, whose message names every recognized key, and
    nothing is run for that key or for the keys after it; the keys before
    it have been run by then, with their blocks generated and their calls
    to the store made, and a failure of one of them is raised instead.
    When the unrecognized key comes first, the error is raised with the
    world as it was. In general the configuration error comes with the
    store as it was and no call made to it exactly when the keys before the
    unrecognized one left the store as it was, made no call to it, and
    raised nothing but a configuration error. *)
Theorem unrecognized_key_rejected config1 config_key config_value config2
    dates cohort schema fst fic kwargs w :
  dict_get FEATURE_BLOCK_GENERATOR_LOOKUP config_key = None ->
  let config := config1 ++ (config_key, config_value) :: config2 in
  let before :=
    feature_blocks_from_config config1 dates cohort schema fst fic kwargs w in
  let error := ValueError (unrecognized_key_message config_key) in
  feature_blocks_from_config config dates cohort schema fst fic kwargs w =
    (match before.1 with Ok _ => Raise error | Raise e => Raise e end,
     before.2) /\
  is_ok (feature_blocks_from_config config dates cohort schema fst fic kwargs
           w).1 = false /\
  feature_blocks_from_config ((config_key, config_value) :: config2) dates
    cohort schema fst fic kwargs w = (Raise error, w) /\
  (forall key, key ∈ dict_keys FEATURE_BLOCK_GENERATOR_LOOKUP ->
     exists before after,
       unrecognized_key_message config_key = before +:+ py_repr key +:+ after)
  /\
  (rejected_up_front config dates cohort schema fst fic kwargs w <->
   (forall e, before.1 = Raise e -> exists msg, e = ValueError msg) /\
   store before.2 = store w /\
   store_calls (events before.2) = store_calls (events w)).
Proof.
  intros Hkey config before error.
  assert (Hfirst : forall w0,
    feature_blocks_from_config ((config_key, config_value) :: config2) dates
      cohort schema fst fic kwargs w0 = (Raise error, w0)).
  { intros w0. unfold feature_blocks_from_config. cbn [feature_blocks_loop].
    by rewrite Hkey. }
  assert (Heq :
    feature_blocks_from_config config dates cohort schema fst fic kwargs w =
    (match before.1 with Ok _ => Raise error | Raise e => Raise e end,
     before.2)).
  { subst config before. rewrite feature_blocks_from_config_app.
    destruct (feature_blocks_from_config config1 dates cohort schema fst fic
                kwargs w) as [[blocks1|e] w1] eqn:H1.
    2: { by rewrite (bind_fails _ _ _ _ _ H1). }
    rewrite (bind_eq _ _ _ _ _ H1). unfold bind. by rewrite Hfirst. }
  split; [exact Heq |].
  split; [| split; [apply Hfirst | split; [apply message_names_keys |]]].
  - rewrite Heq. cbn. by destruct (before.1).
  - unfold rejected_up_front. rewrite Heq. split.
    + intros (msg & w' & [= Hr <-] & Hstore & Hcalls). split; [| done].
      intros e He. rewrite He in Hr. injection Hr as ->. by exists msg.
    + intros (He & Hstore & Hcalls).
      destruct (before.1) as [blocks|e] eqn:Hb.
      * by exists (unrecognized_key_message config_key), (before.2).
      * destruct (He e eq_refl) as [msg ->]. by exists msg, (before.2).
Qed.

End Orchestrator.

(** ** Runs that complete *)

Section Completion.

Context `{collaborators : Collaborators}.
Implicit Types s : gstate.
Implicit Types w : world.

Hypothesis store_answers : cooperative.

Lemma first_column_is_Some rows :
  Forall (fun row => row <> []) rows -> is_Some (first_column rows).
Proof.
  unfold first_column. induction 1 as [|row rows Hrow _ [l IH]]; [by eexists |].
  destruct row as [|v row]; [done |]. cbn. rewrite IH. by eexists.
Qed.

Lemma completes_compute_choices q s : completes (_compute_choices q) s.
Proof.
  unfold wp. destruct (categorical_cache s.1 !! q) as [l|] eqn:Hq.
  { by rewrite (_compute_choices_hit q s l). }
  destruct (store_answers (store s.2) q) as (rows & Hrows & Hne).
  destruct (first_column_is_Some rows Hne) as [l Hl].
  rewrite (_compute_choices_answered q s rows l) by done.
  cbn zeta. unfold answer_of.
  by destruct (store_answers (store (after_execute EvQuery q s.2)) "COMMIT")
    as (rows' & -> & _).
Qed.

Lemma completes_build_choices c s :
  wf_categorical c = true -> completes (_build_choices c) s.
Proof.
  unfold wf_categorical, has_key. intros Hwf. unfold wp.
  rewrite _build_choices_eq.
  destruct (cat_column c); [| done]. destruct (cat_metrics c); [| done].
  cbn zeta. destruct (cat_choices c); [done |].
  destruct (cat_choice_query c); [| done]. apply completes_compute_choices.
Qed.

Lemma wf_imputation imputation default tag :
  sets_coltype imputation = false ->
  exists rules, impute_rules_dict default tag (get_dict imputation) = Ok rules.
Proof.
  unfold sets_coltype, impute_rules_dict. intros H%bool_decide_eq_false.
  rewrite decide_False by done. by eexists.
Qed.

Lemma forallb_elem_of {A} (f : A -> bool) (l : list A) x :
  forallb f l = true -> x ∈ l -> f x = true.
Proof.
  intros H Hx. eapply forallb_forall; [exact H |]. by apply list_elem_of_In.
Qed.

Lemma completes_categorical_body c s (build : _ -> _ -> _ -> _ -> column_spec)
    default tag :
  wf_categorical c = true ->
  completes
    (let* col := getitem "column" (cat_column c) in
     let* choices := _build_choices c in
     let* function := getitem "metrics" (cat_metrics c) in
     let* rules := of_result (impute_rules_dict default tag
                                (get_dict (cat_imputation c))) in
     ret (build col choices function rules)) s.
Proof.
  intros Hwf. pose proof (completes_build_choices c) as Hchoices.
  specialize (Hchoices s Hwf) as Hs. unfold wf_categorical, has_key in Hwf.
  destruct (cat_column c) as [col|] eqn:Hc; [| done].
  destruct (cat_metrics c) as [ms|] eqn:Hm; [| done].
  apply andb_true_iff in Hwf as [_ Himp%negb_true_iff].
  destruct (wf_imputation _ default tag Himp) as [rules Hrules].
  apply wp_bind, wp_getitem; [intros ? _ | done].
  apply wp_bind. eapply wp_mono; [exact Hs | | done]. intros choices s1 _.
  apply wp_bind, wp_getitem; [intros ? _ | done].
  apply wp_bind, wp_of_result; [intros ? _ | by rewrite Hrules].
  by apply wp_ret.
Qed.

Lemma completes_comprehension {A B} (f : A -> M gstate B) (l : list A) s :
  (forall x s0, x ∈ l -> completes (f x) s0) ->
  completes (comprehension f l) s.
Proof.
  intros Hf. eapply wp_mono.
  - apply (wp_comprehension _ (fun _ => True) (fun _ _ => True)
             (fun _ _ => False)); [done |].
    intros x s0 Hx _. eapply wp_mono; [by apply Hf | by intros; split | done].
  - done.
  - done.
Qed.

Lemma completes_build_categoricals cfg rules s :
  forallb wf_categorical cfg = true ->
  completes (_build_categoricals cfg rules) s.
Proof.
  intros Hwf. apply completes_comprehension. intros c s0 Hc.
  apply (completes_categorical_body c s0
           (fun col choices function rules =>
              Categorical col choices function rules true _)).
  by eapply forallb_elem_of.
Qed.

Lemma completes_build_array_categoricals cfg rules s :
  forallb wf_categorical cfg = true ->
  completes (_build_array_categoricals cfg rules) s.
Proof.
  intros Hwf. apply completes_comprehension. intros c s0 Hc.
  apply (completes_categorical_body c s0
           (fun col choices function rules =>
              Compare col "@>" (array_choices choices) function rules
                false false true _)).
  by eapply forallb_elem_of.
Qed.

Lemma completes_build_aggregates aggregates agimp s :
  forallb wf_aggregate aggregates = true ->
  completes (build_aggregates aggregates agimp) s.
Proof.
  intros Hwf. apply completes_comprehension. intros a s0 Ha.
  pose proof (forallb_elem_of _ _ _ Hwf Ha) as Hwfa.
  unfold wf_aggregate, has_key in Hwfa.
  destruct (agg_quantity a); [| done]. destruct (agg_metrics a); [| done].
  cbn in Hwfa. apply negb_true_iff in Hwfa.
  destruct (wf_imputation _ agimp "aggregate" Hwfa) as [rules Hrules].
  apply wp_bind, wp_getitem; [intros ? _ | done].
  apply wp_bind, wp_getitem; [intros ? _ | done].
  apply wp_bind, wp_of_result; [intros ? _ | by rewrite Hrules].
  by apply wp_ret.
Qed.

Lemma completes_aggregation cfg dates state_table s :
  wf_aggregation_config cfg = true ->
  completes (_aggregation cfg dates state_table) s.
Proof.
  unfold wf_aggregation_config, has_key. intros Hwf.
  repeat (apply andb_true_iff in Hwf as [Hwf ?]).
  destruct (cfg_from_obj cfg) as [from_obj|] eqn:Hfrom; [| done].
  destruct (cfg_intervals cfg) as [intervals|] eqn:Hintervals; [| done].
  destruct (cfg_groups cfg) as [groups|] eqn:Hgroups; [| done].
  destruct (cfg_knowledge_date_column cfg) as [date_column|] eqn:Hdate;
    [| done].
  destruct (cfg_prefix cfg) as [prefix|] eqn:Hprefix; [| done].
  unfold _aggregation. apply wp_info. cbn zeta. apply wp_bind.
  eapply wp_mono; [by apply completes_build_aggregates | | done].
  intros aggregates s1 _. apply wp_info. apply wp_bind.
  eapply wp_mono; [by apply completes_build_categoricals | | done].
  intros categoricals s2 _. apply wp_info. apply wp_bind.
  eapply wp_mono; [by apply completes_build_array_categoricals | | done].
  intros array_categoricals s3 _. apply wp_info.
  repeat (apply wp_bind; first [apply wp_getitem; [intros ? _ | congruence]
                               | apply wp_gets]).
  by apply wp_ret.
Qed.

Lemma completes_preprocess_aggregation aggregation s :
  completes (preprocess_aggregation aggregation) s.
Proof.
  unfold preprocess_aggregation. apply wp_bind.
  apply wp_mono with (Q := fun _ _ => True) (E := fun _ _ => False);
    [| | done].
  { destruct (get_create_schema aggregation) as [create_schema|];
      [| by apply wp_ret].
    apply wp_transaction. unfold wp. rewrite bind_outside_execute.
    unfold answer_of.
    destruct (store_answers (store s.2) create_schema) as (rows & -> & _).
    cbn [ret fst snd].
    by destruct (store_answers
                   (store (after_execute EvExecute create_schema s.2)) "COMMIT")
      as (rows' & -> & _). }
  intros ? s1 _. apply wp_bind, wp_gets.
  destruct (materialize_subquery_fromobjs s1.1); [| by apply wp_ret].
  unfold wp. rewrite bind_outside, maybe_materialize_eq.
  destruct (looks_like_subquery _); [| done]. cbn zeta. unfold answer_of.
  destruct (store_answers (store s1.2)
              (materialize_statement (target aggregation)))
    as (rows & -> & _).
  by destruct (store_answers
                 (store (after_execute EvExecute
                           (materialize_statement (target aggregation)) s1.2))
                 "COMMIT")
    as (rows' & -> & _).
Qed.

Lemma completes_aggregations cfgs dates state_table s :
  forallb wf_aggregation_config cfgs = true ->
  completes (aggregations cfgs dates state_table) s.
Proof.
  intros Hwf. apply completes_comprehension. intros cfg s0 Hcfg.
  apply wp_bind.
  eapply wp_mono;
    [apply completes_aggregation; by eapply forallb_elem_of | | done].
  intros a s1 _.
  eapply wp_mono; [apply completes_preprocess_aggregation | done | done].
Qed.

End Completion.

(** ** Without a cohort table *)

Section Degraded.

Context `{collaborators : Collaborators}.
Implicit Types s : gstate.
Implicit Types w : world.

(** The aggregations of an instance carry its flag. *)
Lemma aggregations_flag flag cfgs dates state_table s blocks s' :
  features_ignore_cohort s.1 = flag ->
  aggregations cfgs dates state_table s = (Ok blocks, s') ->
  Forall (fun block => sa_features_ignore_cohort block = flag) blocks.
Proof.
  intros Hflag Hrun.
  assert (H : wp (aggregations cfgs dates state_table)
    (fun blocks s' =>
       features_ignore_cohort s'.1 = flag /\
       Forall (fun block => sa_features_ignore_cohort block = flag) blocks)
    (fun _ _ => True) s).
  { apply (keeps_aggregations (fun s => features_ignore_cohort s.1 = flag)
             (fun _ => True)
             (fun _ block => sa_features_ignore_cohort block = flag));
      try done.
    - by intros s0 s1 H0 [-> _].
    - intros q s0 H0. unfold wp.
      destruct (categorical_cache s0.1 !! q) as [l|] eqn:Hq.
      { by rewrite (_compute_choices_hit q s0 l). }
      rewrite _compute_choices_miss by done.
      destruct (answer_of q s0.2) as [rows|e]; [| done].
      destruct (first_column rows); [| done]. cbn zeta.
      by destruct (answer_of "COMMIT" _).
    - intros s0 table a H0 (Ha & _). by rewrite Ha. }
  unfold wp in H. rewrite Hrun in H. apply H.
Qed.

(** The log only grows. *)
Lemma aggregations_log cfgs dates state_table s :
  exists more,
    events (aggregations cfgs dates state_table s).2.2 = events s.2 ++ more.
Proof.
  assert (H : wp (aggregations cfgs dates state_table)
    (fun _ s' => exists more, events s'.2 = events s.2 ++ more)
    (fun _ s' => exists more, events s'.2 = events s.2 ++ more) s).
  { eapply wp_mono;
      [apply (keeps_aggregations
                (fun s' => exists more, events s'.2 = events s.2 ++ more)
                (fun s' => exists more, events s'.2 = events s.2 ++ more)
                (fun _ _ => True)); try done
      | by intros ? ? [? _] | done].
    - intros s0 s1 [more0 H0] (_ & _ & more1 & H1).
      exists (more0 ++ more1). by rewrite H1, H0, app_assoc.
    - intros q s0 [more0 H0]. unfold wp.
      destruct (categorical_cache s0.1 !! q) as [l|] eqn:Hq.
      { rewrite (_compute_choices_hit q s0 l) by done. by exists more0. }
      rewrite _compute_choices_miss by done.
      destruct (answer_of q s0.2) as [rows|e];
        [destruct (first_column rows);
           [cbn zeta; destruct (answer_of "COMMIT" _) |] |]; cbn; rewrite H0;
        eexists; by rewrite <- !app_assoc.
    - exists []. by rewrite app_nil_r. }
  unfold wp in H.
  by destruct (aggregations cfgs dates state_table s) as [[blocks|e] s'].
Qed.

(** C6. Called without a cohort table, [generate_spacetime_aggregations]
    logs the warning and goes on to the same run of the generator as with
    one, with the cohort-independence flag true whatever the caller passed:
    every feature block it returns has the flag set. Nothing is raised for
    the absence itself, and on a well-formed configuration, with a store
    that answers, the run completes. *)
Theorem absent_cohort_table_degrades cfgs dates cohort_table schema fst
    materialize flag w :
  py_not cohort_table = true ->
  let warning :=
    EvWarning "No cohort table passed. Imputation will not be possible." in
  let run :=
    generate_spacetime_aggregations cfgs dates cohort_table schema fst
      materialize flag w in
  run = on_instance (__init__ schema fst materialize true)
          (aggregations cfgs dates cohort_table) (after_record warning w) /\
  (exists more, events run.2 = events w ++ warning :: more) /\
  (forall blocks, run.1 = Ok blocks ->
     Forall (fun block => sa_features_ignore_cohort block = true) blocks) /\
  (cooperative -> forallb wf_aggregation_config cfgs = true ->
   is_ok run.1 = true).
Proof.
  intros Hnot warning run.
  assert (Hrun : run = on_instance (__init__ schema fst materialize true)
            (aggregations cfgs dates cohort_table) (after_record warning w)).
  { subst run. unfold generate_spacetime_aggregations. by rewrite Hnot. }
  split; [exact Hrun |]. rewrite Hrun. unfold on_instance.
  set (s0 := (__init__ schema fst materialize true, after_record warning w)).
  pose proof (aggregations_log cfgs dates cohort_table s0) as [more Hlog].
  pose proof (aggregations_flag true cfgs dates cohort_table s0) as Hflag.
  destruct (aggregations cfgs dates cohort_table s0) as [r s'] eqn:Hagg.
  cbn in Hlog |- *. repeat split.
  - exists more. by rewrite Hlog, <- app_assoc.
  - intros blocks ->. by eapply Hflag.
  - intros Hstore Hwf.
    pose proof (completes_aggregations Hstore cfgs dates cohort_table s0 Hwf)
      as Hok.
    unfold wp in Hok. rewrite Hagg in Hok. by destruct r.
Qed.

End Degraded.

(** ** Materialization *)

Section Materialization.

Context `{collaborators : Collaborators}.
Implicit Types s : gstate.
Implicit Types w : world.

(** Preprocessing, case by case. *)
Lemma preprocess_aggregation_eq aggregation s :
  preprocess_aggregation aggregation s =
  let materialized s1 :=
    if materialize_subquery_fromobjs s1.1 then
      match maybe_materialize (target aggregation) s1.2 with
      | (Ok _, w') =>
          (Ok (set_from_obj aggregation (FromObj_table (target aggregation))),
           (s1.1, w'))
      | (Raise e, w') => (Raise e, (s1.1, w'))
      end
    else (Ok aggregation, s1) in
  match get_create_schema aggregation with
  | None => materialized s
  | Some create_schema =>
      let w1 := after_execute EvExecute create_schema s.2 in
      match answer_of create_schema s.2 with
      | Raise e => (Raise e, (s.1, w1))
      | Ok _ =>
          match answer_of "COMMIT" w1 with
          | Raise e => (Raise e, (s.1, after_commit w1))
          | Ok _ => materialized (s.1, after_commit w1)
          end
      end
  end.
Proof.
  unfold preprocess_aggregation. cbn zeta.
  assert (Hmat : forall s1 : gstate,
    (let* self := gets (fun s : gstate => s.1) in
     if materialize_subquery_fromobjs self then
       outside (maybe_materialize (target aggregation)) ;;;
       ret (set_from_obj aggregation (FromObj_table (target aggregation)))
     else ret aggregation) s1 =
    if materialize_subquery_fromobjs s1.1 then
      match maybe_materialize (target aggregation) s1.2 with
      | (Ok _, w') =>
          (Ok (set_from_obj aggregation (FromObj_table (target aggregation))),
           (s1.1, w'))
      | (Raise e, w') => (Raise e, (s1.1, w'))
      end
    else (Ok aggregation, s1)).
  { intros s1. rewrite bind_gets.
    destruct (materialize_subquery_fromobjs s1.1); [| done].
    rewrite bind_outside.
    by destruct (maybe_materialize (target aggregation) s1.2) as [[[]|e] w']. }
  destruct (get_create_schema aggregation) as [create_schema|].
  - rewrite bind_transaction, bind_assoc, bind_outside_execute.
    destruct (answer_of create_schema s.2) as [rows|e]; [| done].
    rewrite bind_ret. cbn [fst snd].
    destruct (answer_of "COMMIT" _); [| done]. by rewrite Hmat.
  - rewrite bind_ret. by rewrite Hmat.
Qed.

Lemma creations_other name e (log : list event) :
  is_creation name e = false -> creations name (log ++ [e]) = creations name log.
Proof.
  intros He. rewrite creations_app. unfold creations at 2.
  rewrite filter_cons, decide_False by (by rewrite He). cbn. lia.
Qed.

(** A source that is materialized is in the table of the target's name. *)
Lemma materialize_creates from_obj w w' :
  looks_like_subquery (fo_from_obj from_obj) = true ->
  maybe_materialize from_obj w = (Ok tt, w') ->
  fo_name from_obj ∈ tables w'.
Proof.
  rewrite maybe_materialize_eq. intros ->. cbn zeta.
  destruct (answer_of _ w); [| done].
  destruct (answer_of "COMMIT" _); [| done]. intros [= <-].
  unfold with_table. destruct (decide _) as [Hin|Hout]; [exact Hin |].
  cbn. apply elem_of_union. left. by apply elem_of_singleton.
Qed.

(** Where the table is present, materialization creates no table, whether
    the store accepts the statement or not. *)
Lemma materialize_present from_obj w :
  fo_name from_obj ∈ tables w ->
  tables (maybe_materialize from_obj w).2 = tables w /\
  forall name,
    creations name (events (maybe_materialize from_obj w).2)
    = creations name (events w).
Proof.
  intros Hin. rewrite maybe_materialize_eq.
  destruct (looks_like_subquery (fo_from_obj from_obj)); [| done]. cbn zeta.
  destruct (answer_of _ w);
    [| cbn; split; [done | intros name; by apply creations_other]].
  destruct (answer_of "COMMIT" _).
  - unfold with_table. rewrite decide_True by done. cbn.
    split; [done |]. intros name. by rewrite !creations_other.
  - cbn. split; [done |]. intros name. by rewrite !creations_other.
Qed.

Lemma materialize_accepted from_obj w :
  statement_accepted (materialize_statement from_obj) ->
  statement_accepted "COMMIT" ->
  (maybe_materialize from_obj w).1 = Ok tt.
Proof.
  intros Hstatement Hcommit. rewrite maybe_materialize_eq.
  destruct (looks_like_subquery (fo_from_obj from_obj)); [| done]. cbn zeta.
  unfold answer_of.
  destruct (Hstatement (store w)) as [rows ->].
  by destruct (Hcommit (store (after_execute EvExecute
                                 (materialize_statement from_obj) w)))
    as [rows' ->].
Qed.

Lemma rewritten_to_set_from_obj aggregation name :
  rewritten_to name aggregation (set_from_obj aggregation name).
Proof. by repeat split. Qed.

(** A pass that returns, with materialization on and a source that looks
    like a subquery. *)
Lemma preprocess_returns aggregation s block s' :
  materialize_subquery_fromobjs s.1 = true ->
  looks_like_subquery (sa_from_obj aggregation) = true ->
  preprocess_aggregation aggregation s = (Ok block, s') ->
  block = set_from_obj aggregation (fo_name (target aggregation)) /\
  fo_name (target aggregation) ∈ tables s'.2 /\
  s'.1 = s.1.
Proof.
  intros Hflag Hsub. rewrite preprocess_aggregation_eq. cbn zeta.
  assert (Htable : FromObj_table (target aggregation)
                   = fo_name (target aggregation)).
  { unfold FromObj_table. cbn. by rewrite Hsub. }
  assert (Hmat : forall s1 : gstate,
    materialize_subquery_fromobjs s1.1 = true ->
    (if materialize_subquery_fromobjs s1.1 then
       match maybe_materialize (target aggregation) s1.2 with
       | (Ok _, w') =>
           (Ok (set_from_obj aggregation (FromObj_table (target aggregation))),
            (s1.1, w'))
       | (Raise e, w') => (Raise e, (s1.1, w'))
       end
     else (Ok aggregation, s1)) = (Ok block, s') ->
    block = set_from_obj aggregation (fo_name (target aggregation)) /\
    fo_name (target aggregation) ∈ tables s'.2 /\
    s'.1 = s1.1).
  { intros s1 H1. rewrite H1.
    destruct (maybe_materialize (target aggregation) s1.2) as [[[]|e] w']
      eqn:Hm; [| done].
    intros [= <- <-]. split; [by rewrite Htable |]. split; [| done].
    by apply (materialize_creates (target aggregation) s1.2 w'). }
  destruct (get_create_schema aggregation) as [create_schema|];
    [| by apply Hmat].
  destruct (answer_of create_schema s.2); [| done].
  destruct (answer_of "COMMIT" _); [| done].
  intros H. by apply Hmat in H.
Qed.

(** A pass in a world that has the table, with materialization on. *)
Lemma preprocess_present aggregation s :
  fo_name (target aggregation) ∈ tables s.2 ->
  tables (preprocess_aggregation aggregation s).2.2 = tables s.2 /\
  forall name,
    creations name (events (preprocess_aggregation aggregation s).2.2)
    = creations name (events s.2).
Proof.
  intros Hin. rewrite preprocess_aggregation_eq. cbn zeta.
  assert (Hmat : forall s1 : gstate,
    tables s1.2 = tables s.2 ->
    (forall name, creations name (events s1.2) = creations name (events s.2)) ->
    let r :=
      if materialize_subquery_fromobjs s1.1 then
        match maybe_materialize (target aggregation) s1.2 with
        | (Ok _, w') =>
            (Ok (set_from_obj aggregation (FromObj_table (target aggregation))),
             (s1.1, w'))
        | (Raise e, w') => (Raise e, (s1.1, w'))
        end
      else (Ok aggregation, s1) in
    tables r.2.2 = tables s.2 /\
    forall name, creations name (events r.2.2) = creations name (events s.2)).
  { intros s1 Ht Hc. cbn zeta.
    destruct (materialize_subquery_fromobjs s1.1); [| done].
    assert (Hin1 : fo_name (target aggregation) ∈ tables s1.2)
      by (by rewrite Ht).
    destruct (materialize_present (target aggregation) s1.2 Hin1) as [Ht' Hc'].
    destruct (maybe_materialize (target aggregation) s1.2) as [[[]|e] w'];
      cbn in *; (split; [congruence |]); intros name;
      by rewrite Hc', Hc. }
  destruct (get_create_schema aggregation) as [create_schema|];
    [| by apply Hmat].
  destruct (answer_of create_schema s.2);
    [| cbn; split; [done | intros name; by apply creations_other]].
  destruct (answer_of "COMMIT" _).
  - apply Hmat; [done |]. intros name. cbn. by rewrite !creations_other.
  - cbn. split; [done |]. intros name. by rewrite !creations_other.
Qed.

(** A pass on a store that accepts what it is given. *)
Lemma preprocess_accepted aggregation s :
  schema_accepted aggregation ->
  statement_accepted (materialize_statement (target aggregation)) ->
  statement_accepted "COMMIT" ->
  is_ok (preprocess_aggregation aggregation s).1 = true.
Proof.
  intros Hschema Hstatement Hcommit.
  rewrite preprocess_aggregation_eq. cbn zeta.
  assert (Hmat : forall s1 : gstate,
    is_ok (if materialize_subquery_fromobjs s1.1 then
             match maybe_materialize (target aggregation) s1.2 with
             | (Ok _, w') =>
                 (Ok (set_from_obj aggregation
                        (FromObj_table (target aggregation))),
                  (s1.1, w'))
             | (Raise e, w') => (Raise e, (s1.1, w'))
             end
           else (Ok aggregation, s1)).1 = true).
  { intros s1. destruct (materialize_subquery_fromobjs s1.1); [| done].
    pose proof (materialize_accepted (target aggregation) s1.2 Hstatement
                  Hcommit) as Hok.
    by destruct (maybe_materialize (target aggregation) s1.2) as [[[]|e] w']. }
  destruct (get_create_schema aggregation) as [create_schema|] eqn:Hddl;
    [| by apply Hmat].
  unfold answer_of.
  destruct (Hschema (store s.2) create_schema Hddl) as [rows ->].
  destruct (Hcommit (store (after_execute EvExecute create_schema s.2)))
    as [rows' ->].
  apply Hmat.
Qed.

(** C7. With materialization enabled, the materialization target of an
    aggregation has the name [features_schema_name.prefix], the source
    expression of the aggregation and its date column. For a source that
    looks like a subquery: a pass of preprocessing that returns, returns the
    aggregation with its source expression at the table of that name and its
    other fields as they were, leaves the instance as it was, and the table
    is there; a pass in a world where the table is present creates no table,
    whatever the store answers; and on a store that accepts the schema
    directive, the statement of the materialization and the commits, a pass
    raises nothing. So two passes one after the other on such a store both
    return the aggregation with its source expression at the table, and the
    second creates no table. *)
Theorem preprocessing_materializes_once aggregation :
  looks_like_subquery (sa_from_obj aggregation) = true ->
  let name :=
    sa_features_schema_name aggregation +:+ "." +:+ sa_prefix aggregation in
  (fo_name (target aggregation) = name /\
   fo_from_obj (target aggregation) = sa_from_obj aggregation /\
   fo_knowledge_date_column (target aggregation) = sa_date_column aggregation)
  /\
  (forall s block s',
     materialize_subquery_fromobjs s.1 = true ->
     preprocess_aggregation aggregation s = (Ok block, s') ->
     rewritten_to name aggregation block /\
     name ∈ tables s'.2 /\
     s'.1 = s.1) /\
  (forall s,
     name ∈ tables s.2 ->
     tables (preprocess_aggregation aggregation s).2.2 = tables s.2 /\
     creations name (events (preprocess_aggregation aggregation s).2.2)
       = creations name (events s.2)) /\
  (forall s,
     schema_accepted aggregation ->
     statement_accepted (materialize_statement (target aggregation)) ->
     statement_accepted "COMMIT" ->
     is_ok (preprocess_aggregation aggregation s).1 = true) /\
  (forall s,
     materialize_subquery_fromobjs s.1 = true ->
     schema_accepted aggregation ->
     statement_accepted (materialize_statement (target aggregation)) ->
     statement_accepted "COMMIT" ->
     let first := preprocess_aggregation aggregation s in
     let second := preprocess_aggregation aggregation first.2 in
     exists block1 block2,
       first.1 = Ok block1 /\
       rewritten_to name aggregation block1 /\
       name ∈ tables first.2.2 /\
       second.1 = Ok block2 /\
       rewritten_to name aggregation block2 /\
       tables second.2.2 = tables first.2.2 /\
       creations name (events second.2.2)
         = creations name (events first.2.2)).
Proof.
  intros Hsub name.
  assert (Hreturns : forall s block s',
     materialize_subquery_fromobjs s.1 = true ->
     preprocess_aggregation aggregation s = (Ok block, s') ->
     rewritten_to name aggregation block /\
     name ∈ tables s'.2 /\
     s'.1 = s.1).
  { intros s block s' Hflag Hrun.
    destruct (preprocess_returns aggregation s block s' Hflag Hsub Hrun)
      as (-> & Hin & Hself).
    split; [apply rewritten_to_set_from_obj | done]. }
  assert (Hpresent : forall s,
     name ∈ tables s.2 ->
     tables (preprocess_aggregation aggregation s).2.2 = tables s.2 /\
     creations name (events (preprocess_aggregation aggregation s).2.2)
       = creations name (events s.2)).
  { intros s Hin.
    destruct (preprocess_present aggregation s Hin) as [Ht Hc]. by split. }
  split; [done |]. split; [exact Hreturns |]. split; [exact Hpresent |].
  split; [intros s; apply preprocess_accepted |].
  intros s Hflag Hschema Hstatement Hcommit first second.
  pose proof (preprocess_accepted aggregation s Hschema Hstatement Hcommit)
    as Hok1.
  fold first in Hok1.
  destruct first as [[block1|e] s1] eqn:Hfirst; [| done].
  destruct (Hreturns s block1 s1 Hflag Hfirst) as (Hb1 & Hin1 & Hself1).
  pose proof (preprocess_accepted aggregation s1 Hschema Hstatement Hcommit)
    as Hok2.
  assert (Hflag1 : materialize_subquery_fromobjs s1.1 = true)
    by (by rewrite Hself1).
  subst second. cbn [fst snd] in *.
  destruct (Hpresent s1 Hin1) as [Ht2 Hc2].
  destruct (preprocess_aggregation aggregation s1) as [[block2|e] s2] eqn:Hsecond;
    [| done].
  destruct (Hreturns s1 block2 s2 Hflag1 Hsecond) as (Hb2 & _ & _).
  by exists block1, block2.
Qed.

End Materialization.

(** * The properties on the examples *)

Lemma example_cooperative : @cooperative example_collaborators.
Proof.
  intros st statement. cbn. unfold example_execute.
  destruct (decide (statement = example_query)); eexists; (split; [done |]).
  - by repeat constructor.
  - constructor.
Qed.

Lemma example_statement_accepted statement :
  @statement_accepted example_collaborators statement.
Proof.
  intros st. cbn. unfold example_execute.
  by destruct (decide (statement = example_query)).
Qed.

Lemma example_schema_accepted aggregation :
  @schema_accepted example_collaborators aggregation.
Proof.
  intros st create_schema _. cbn. unfold example_execute.
  by destruct (decide (create_schema = example_query)).
Qed.

(** The merge of the specification's example. *)
Example example_merge :
  impute_rules_dict example_default "aggregate" example_override =
  Ok {["a" := PInt 1; "b" := PInt 3; "c" := PInt 4;
       "coltype" := PStr "aggregate"]}.
Proof. vm_compute. reflexivity. Qed.

(** [True == 1]: the later choice takes the place of the earlier one. *)
Example example_array_choices :
  array_choices [SInt 1; SStr "a"; SBool true] =
  [(SInt 1, "array['True'::varchar]"); (SStr "a", "array['a'::varchar]")].
Proof. reflexivity. Qed.

(** C1, as stated, fails: with a recognized key before the unrecognized
    one, the generator of the first key has run, and called the store, by
    the time the configuration error is raised. *)
Lemma unrecognized_key_after_recognized_key :
  "bogus_strategy" ∈ example_config_bogus_last.*1 /\
  dict_get (@FEATURE_BLOCK_GENERATOR_LOOKUP example_collaborators)
    "bogus_strategy" = None /\
  store_calls
    (events (@feature_blocks_from_config example_collaborators
               example_config_bogus_last ["2020-01-01"] (Some "cohort")
               "features" None false None example_world).2)
  = [EvQuery example_query;
     EvExecute "COMMIT";
     EvExecute "CREATE SCHEMA IF NOT EXISTS features";
     EvExecute "COMMIT";
     EvExecute ("CREATE TABLE IF NOT EXISTS features.a AS " +:+
                "(SELECT * FROM (select * from events) as e)");
     EvExecute "COMMIT";
     EvCreateTable "features.a" "(select * from events) as e"] /\
  ~ @rejected_up_front example_collaborators example_config_bogus_last
      ["2020-01-01"] (Some "cohort") "features" None false None example_world.
Proof.
  split; [| split; [| split]].
  - cbn. apply elem_of_cons. right. by apply list_elem_of_singleton.
  - reflexivity.
  - vm_compute. reflexivity.
  - intros (msg & w' & Hrun & Hstore & Hcalls).
    apply (f_equal snd) in Hrun. cbn [snd] in Hrun. rewrite <- Hrun in Hstore.
    vm_compute in Hstore. discriminate.
Qed.

Lemma unrecognized_key_rejected_witness :
  dict_get (@FEATURE_BLOCK_GENERATOR_LOOKUP example_collaborators)
    "bogus_strategy" = None /\
  is_ok (@feature_blocks_from_config example_collaborators
           ([("spacetime_aggregations", [example_block "a"])] ++
            ("bogus_strategy", []) :: [])
           ["2020-01-01"] (Some "cohort") "features" None false None
           example_world).1 = false /\
  @feature_blocks_from_config example_collaborators
    (("bogus_strategy", []) :: [("spacetime_aggregations", [example_block "a"])])
    ["2020-01-01"] (Some "cohort") "features" None false None example_world
  = (Raise (ValueError (@unrecognized_key_message example_collaborators
                          "bogus_strategy")), example_world).
Proof.
  split; [reflexivity |]. split.
  - apply (unrecognized_key_rejected (collaborators := example_collaborators)
             [("spacetime_aggregations", [example_block "a"])]
             "bogus_strategy" [] []). reflexivity.
  - apply (unrecognized_key_rejected (collaborators := example_collaborators)
             [] "bogus_strategy" []
             [("spacetime_aggregations", [example_block "a"])]). reflexivity.
Defined.

(** C2, as stated, fails: a lookup on which the store fails caches
    nothing, so that the next resolution of the query, on the same instance,
    asks the store again. *)
Lemma lookup_repeated_after_failed_lookup :
  flaky_state.1 = __init__ "features" None true false /\
  lookups example_query (events flaky_state.2) = 0 /\
  (@_compute_choices flaky_collaborators example_query flaky_state).1
  = Raise (StoreError example_query) /\
  lookups example_query
    (events (@lifetime flaky_collaborators
               [call_compute_choices example_query;
                call_compute_choices example_query] flaky_state).2) = 2 /\
  ~ lookups example_query
      (events (@lifetime flaky_collaborators
                 [call_compute_choices example_query;
                  call_compute_choices example_query] flaky_state).2)
    <= lookups example_query (events flaky_state.2) + 1.
Proof.
  split; [reflexivity |]. split; [reflexivity |]. split; [reflexivity |].
  split; [reflexivity |]. vm_compute. lia.
Qed.

Lemma lookup_query_executed_once_per_miss_witness :
  categorical_cache example_state.1 !! example_query = None /\
  (@_compute_choices example_collaborators example_query example_state).1
  = Ok [SStr "arrest"; SStr "stop"] /\
  categorical_cache
    (@_compute_choices example_collaborators example_query example_state).2.1
  = <[example_query := [SStr "arrest"; SStr "stop"]]>
      (categorical_cache example_state.1).
Proof.
  assert (Hmiss : categorical_cache example_state.1 !! example_query = None)
    by reflexivity.
  pose proof (proj1 (proj2 (lookup_query_executed_once_per_miss
                              (collaborators := example_collaborators)
                              example_query))
                example_state
                [[SStr "arrest"; SInt 3]; [SStr "stop"; SInt 5]]
                [SStr "arrest"; SStr "stop"] Hmiss eq_refl eq_refl)
    as (_ & Hok & Hcache & _).
  split; [exact Hmiss |]. split; [| exact Hcache].
  apply Hok. exact (example_statement_accepted "COMMIT").
Defined.

Lemma feature_blocks_in_configuration_order_witness :
  exists out w' blocks_A s1 blocks_B s2,
    @feature_blocks_from_config example_collaborators
      [("spacetime_aggregations", [example_block "a"] ++ [example_block "b"])]
      ["2020-01-01"] (Some "cohort") "features" None false None example_world
    = (Ok out, w') /\
    @aggregations example_collaborators [example_block "a"] ["2020-01-01"]
      (Some "cohort") (__init__ "features" None true false, example_world)
    = (Ok blocks_A, s1) /\
    @aggregations example_collaborators [example_block "b"] ["2020-01-01"]
      (Some "cohort") s1 = (Ok blocks_B, s2) /\
    length blocks_A = 1 /\
    length blocks_B = 1 /\
    out = blocks_A ++ blocks_B.
Proof.
  destruct (@feature_blocks_from_config example_collaborators
              [("spacetime_aggregations",
                [example_block "a"] ++ [example_block "b"])]
              ["2020-01-01"] (Some "cohort") "features" None false None
              example_world) as [[out|e] w'] eqn:H.
  - destruct (proj2 (proj2 (proj2 (proj2 (proj2
                (feature_blocks_in_configuration_order
                   (collaborators := example_collaborators))))))
                [example_block "a"] [example_block "b"] ["2020-01-01"]
                (Some "cohort") "features" None false None example_world
                out w' H)
      as (blocks_A & s1 & blocks_B & s2 & HA & HB & HlA & HlB & Hout & _).
    exists out, w', blocks_A, s1, blocks_B, s2.
    split; [reflexivity |]. split; [exact HA |]. split; [exact HB |].
    split; [exact HlA |]. split; [exact HlB | exact Hout].
  - vm_compute in H. discriminate H.
Defined.

(** C3, as stated, fails: an override that sets ["coltype"], even to the
    tag of its own variant, is refused by the call that merges the rules,
    so that there is no merged rule set at all. *)
Lemma override_setting_coltype_is_refused :
  impute_rules_dict example_default "categorical" example_override_coltype
  = Raise (TypeError
             "dict() got multiple values for keyword argument 'coltype'") /\
  ~ merges_as_union example_default "categorical" example_override_coltype.
Proof.
  split; [vm_compute; reflexivity |].
  intros (merged & H & _). vm_compute in H. discriminate.
Qed.

Lemma imputation_rules_merge_witness :
  ("coltype" ∉ dom example_override) /\
  merges_as_union example_default "aggregate" example_override.
Proof.
  assert (H : "coltype" ∉ dom example_override).
  { refine (bool_decide_unpack _ _). vm_compute. exact I. }
  split; [exact H |].
  exact (proj1 (imputation_rules_merge (collaborators := example_collaborators))
           example_default "aggregate" example_override H).
Defined.

Lemma explicit_choices_used_verbatim_witness :
  cat_choices example_explicit = Some [SStr "arrest"; SStr "stop"] /\
  cat_choice_query example_explicit = Some example_query /\
  (@_build_choices example_collaborators example_explicit example_state).1
  = Ok [SStr "arrest"; SStr "stop"] /\
  store_calls
    (events (@_build_choices example_collaborators example_explicit
               example_state).2.2)
  = store_calls (events example_state.2).
Proof.
  pose proof (explicit_choices_used_verbatim
                (collaborators := example_collaborators) example_explicit
                [SStr "arrest"; SStr "stop"] example_state eq_refl) as H.
  cbv zeta in H. destruct H as [(_ & _ & _ & Hcalls & _) Hr].
  split; [reflexivity |]. split; [reflexivity |]. split; [| exact Hcalls].
  apply Hr; eexists; reflexivity.
Defined.

Lemma presence_of_choices_decides_witness :
  cat_choices example_no_choices = Some [] /\
  (@_build_choices example_collaborators example_no_choices example_state).1
  = Ok [].
Proof.
  split; [reflexivity |].
  apply (proj1 (presence_of_choices_decides
                  (collaborators := example_collaborators) example_no_choices
                  example_state));
    [reflexivity | eexists; reflexivity | eexists; reflexivity].
Defined.

Lemma absent_cohort_table_degrades_witness :
  py_not None = true /\
  forallb wf_aggregation_config [example_block "a"; example_block "b"] = true /\
  is_ok (@generate_spacetime_aggregations example_collaborators
           [example_block "a"; example_block "b"] ["2020-01-01"] None
           "features" None true false example_world).1 = true.
Proof.
  split; [reflexivity |].
  assert (Hwf : forallb wf_aggregation_config
                  [example_block "a"; example_block "b"] = true)
    by (vm_compute; reflexivity).
  split; [exact Hwf |].
  apply (absent_cohort_table_degrades (collaborators := example_collaborators)
           [example_block "a"; example_block "b"] ["2020-01-01"] None
           "features" None true false example_world eq_refl).
  - exact example_cooperative.
  - exact Hwf.
Defined.

Lemma preprocessing_materializes_once_witness :
  @looks_like_subquery example_collaborators
    (sa_from_obj example_aggregation) = true /\
  materialize_subquery_fromobjs example_state.1 = true /\
  exists block1 block2,
    (@preprocess_aggregation example_collaborators example_aggregation
       example_state).1 = Ok block1 /\
    sa_from_obj block1 = "features.events" /\
    (@preprocess_aggregation example_collaborators example_aggregation
       (@preprocess_aggregation example_collaborators example_aggregation
          example_state).2).1 = Ok block2 /\
    sa_from_obj block2 = "features.events".
Proof.
  split; [reflexivity |]. split; [reflexivity |].
  destruct (proj2 (proj2 (proj2 (proj2
              (preprocessing_materializes_once
                 (collaborators := example_collaborators) example_aggregation
                 eq_refl))))
              example_state eq_refl
              (example_schema_accepted example_aggregation)
              (example_statement_accepted _)
              (example_statement_accepted _))
    as (block1 & block2 & H1 & Hb1 & _ & H2 & Hb2 & _).
  exists block1, block2.
  split; [exact H1 |]. split; [exact (proj1 Hb1) |].
  split; [exact H2 | exact (proj1 Hb2)].
Defined.

Lemma categorical_specs_surface_null_witness :
  exists specs s',
    @_build_array_categoricals example_collaborators [example_categorical] ∅
      example_state = (Ok specs, s') /\
    Forall2 (fun c spec =>
       exists col choices function rules coltype,
         @resolved example_collaborators c choices /\
         spec = Compare col "@>" (array_choices choices) function rules
                  false false true coltype /\
         (forall choice, choice ∈ choices ->
            exists c', c' ∈ choices /\ py_eqb choice c' = true /\
              odict_get (array_choices choices) choice =
              Some ("array['" +:+ py_str c' +:+ "'::varchar]")) /\
         (forall k v, (k, v) ∈ array_choices choices ->
            exists c', c' ∈ choices /\ py_eqb k c' = true /\
              v = "array['" +:+ py_str c' +:+ "'::varchar]"))
      [example_categorical] specs.
Proof.
  destruct (@_build_array_categoricals example_collaborators
              [example_categorical] ∅ example_state) as [[specs|e] s'] eqn:H.
  - exists specs, s'. split; [reflexivity |].
    exact (proj2 (categorical_specs_surface_null
                    (collaborators := example_collaborators))
             [example_categorical] ∅ example_state specs s' H).
  - vm_compute in H. discriminate H.
Defined.

Lemma one_block_per_configuration_witness :
  exists blocks s',
    @aggregations example_collaborators [example_block "a"; example_block "b"]
      ["2020-01-01"] None example_state = (Ok blocks, s') /\
    length blocks = 2.
Proof.
  destruct (@aggregations example_collaborators
              [example_block "a"; example_block "b"] ["2020-01-01"] None
              example_state) as [[blocks|e] s'] eqn:H.
  - exists blocks, s'. split; [reflexivity |].
    exact (proj1 (one_block_per_configuration
                    (collaborators := example_collaborators) _ _ _ _ _ _ H)).
  - vm_compute in H. discriminate H.
Defined.

(** * Further properties of the generators *)

(** ** Failures of the resolver *)

Section ResolverFailures.

Context `{collaborators : Collaborators}.
Implicit Types s : gstate.

Lemma miss_is_logged q s :
  categorical_cache s.1 !! q = None ->
  lookups q (events (_compute_choices q s).2.2) = lookups q (events s.2) + 1.
Proof.
  intros Hq. rewrite _compute_choices_miss by done.
  destruct (answer_of q s.2) as [rows|e];
    [destruct (first_column rows);
       [cbn zeta; destruct (answer_of "COMMIT" _) |] |]; cbn;
    rewrite ?lookups_other by done; rewrite lookups_after_query;
    by rewrite decide_True.
Qed.

(** X1. [_compute_choices] fails only on a query that is not cached, and
    in one of two ways. Either the lookup itself fails, with the failure of
    the store on the query or because a row has no first column: then the
    query has gone to the store, nothing is cached, the instance is as it
    was, and resolving the query again asks the store again. Or the store
    answered and the commit of the transaction fails: then the list is in
    the cache already, since it is cached before the transaction is over,
    and resolving the query again returns that list without asking the
    store. *)
Theorem failed_lookup_caches_unless_commit_failed q s :
  is_ok (_compute_choices q s).1 = false ->
  categorical_cache s.1 !! q = None /\
  ((((_compute_choices q s).1 = Raise (StoreError q) \/
     (_compute_choices q s).1
       = Raise (IndexError "tuple index out of range")) /\
    (_compute_choices q s).2 = (s.1, after_execute EvQuery q s.2) /\
    lookups q (events (_compute_choices q (_compute_choices q s).2).2.2)
    = lookups q (events s.2) + 2) \/
   (exists rows l,
      (execute (store s.2) q).1 = Some rows /\
      first_column rows = Some l /\
      (_compute_choices q s).1 = Raise (StoreError "COMMIT") /\
      (_compute_choices q s).2 =
        (set_categorical_cache (<[q := l]> (categorical_cache s.1)) s.1,
         after_commit (after_execute EvQuery q s.2)) /\
      _compute_choices q (_compute_choices q s).2 =
        (Ok l, (_compute_choices q s).2))).
Proof.
  intros Hfail.
  destruct (categorical_cache s.1 !! q) as [l|] eqn:Hq.
  { by rewrite (_compute_choices_hit q s l) in Hfail. }
  split; [done |].
  assert (Hlookup :
    ((_compute_choices q s).1 = Raise (StoreError q) \/
     (_compute_choices q s).1
       = Raise (IndexError "tuple index out of range")) ->
    (_compute_choices q s).2 = (s.1, after_execute EvQuery q s.2) ->
    lookups q (events (_compute_choices q (_compute_choices q s).2).2.2)
    = lookups q (events s.2) + 2).
  { intros _ Hstate. rewrite miss_is_logged by (by rewrite Hstate).
    rewrite Hstate. cbn. rewrite lookups_after_query, decide_True by done.
    lia. }
  destruct ((execute (store s.2) q).1) as [rows|] eqn:Hrows.
  - destruct (first_column rows) as [l|] eqn:Hl.
    + right. exists rows, l. split; [done |]. split; [done |].
      rewrite (_compute_choices_answered q s rows l) in Hfail |- * by done.
      cbn zeta in Hfail |- *. unfold answer_of in Hfail |- *.
      destruct ((execute (store (after_execute EvQuery q s.2)) "COMMIT").1);
        [done |].
      split; [done |]. split; [done |].
      apply _compute_choices_hit. cbn. by rewrite lookup_insert_eq.
    + left.
      assert (H : _compute_choices q s =
                  (Raise (IndexError "tuple index out of range"),
                   (s.1, after_execute EvQuery q s.2))).
      { rewrite _compute_choices_miss by done. unfold answer_of.
        by rewrite Hrows, Hl. }
      split; [right; by rewrite H |]. split; [by rewrite H |].
      apply Hlookup; [right |]; by rewrite H.
  - left.
    assert (H : _compute_choices q s =
                (Raise (StoreError q), (s.1, after_execute EvQuery q s.2))).
    { rewrite _compute_choices_miss by done. unfold answer_of.
      by rewrite Hrows. }
    split; [left; by rewrite H |]. split; [by rewrite H |].
    apply Hlookup; [left |]; by rewrite H.
Qed.

(** X2. An entry with neither [choices] nor [choice_query] is a
    [KeyError], raised without a call to the store and with the instance as
    it was. The key named is the first one missing among [column],
    [metrics] and [choice_query]. *)
Theorem unresolvable_entry_raises categorical s :
  cat_choices categorical = None ->
  cat_choice_query categorical = None ->
  (_build_choices categorical s).1 =
    Raise (KeyError
      match cat_column categorical, cat_metrics categorical with
      | None, _ => "column"
      | Some _, None => "metrics"
      | Some _, Some _ => "choice_query"
      end) /\
  (_build_choices categorical s).2.1 = s.1 /\
  store (_build_choices categorical s).2.2 = store s.2 /\
  store_calls (events (_build_choices categorical s).2.2)
  = store_calls (events s.2).
Proof.
  intros Hchoices Hquery. rewrite _build_choices_eq, Hchoices, Hquery.
  destruct (cat_column categorical), (cat_metrics categorical); cbn;
    repeat split; by rewrite ?store_calls_app, ?app_nil_r.
Qed.

End ResolverFailures.

(** ** Preprocessing *)

Section Preprocessing.

Context `{collaborators : Collaborators}.
Implicit Types s : gstate.

(** X3. With [materialize_subquery_fromobjs] off, preprocessing creates no
    table and hands the aggregation back as it is, source expression
    included; without a schema directive it does nothing at all. *)
Theorem preprocessing_without_materialization aggregation s :
  materialize_subquery_fromobjs s.1 = false ->
  let r := preprocess_aggregation aggregation s in
  tables r.2.2 = tables s.2 /\
  (forall name, creations name (events r.2.2) = creations name (events s.2)) /\
  (forall aggregation', r.1 = Ok aggregation' -> aggregation' = aggregation) /\
  (get_create_schema aggregation = None -> r = (Ok aggregation, s)).
Proof.
  intros Hflag r. subst r. rewrite preprocess_aggregation_eq. cbn zeta.
  destruct (get_create_schema aggregation) as [create_schema|].
  - destruct (answer_of create_schema s.2) as [rows|e];
      [destruct (answer_of "COMMIT" _) |]; cbn; rewrite ?Hflag;
      cbn; repeat split; try done;
      try (intros name; by rewrite !creations_other by done);
      by intros ? [= <-].
  - rewrite Hflag. repeat split; try done. by intros ? [= <-].
Qed.

(** X4. The schema directive goes to the store before anything is
    materialized: when the store fails on it, preprocessing raises that
    failure, and no table has been created. *)
Theorem failed_schema_directive_stops_preprocessing aggregation s
    create_schema :
  get_create_schema aggregation = Some create_schema ->
  (execute (store s.2) create_schema).1 = None ->
  preprocess_aggregation aggregation s =
    (Raise (StoreError create_schema),
     (s.1, after_execute EvExecute create_schema s.2)) /\
  tables (preprocess_aggregation aggregation s).2.2 = tables s.2 /\
  store_calls (events (preprocess_aggregation aggregation s).2.2)
  = store_calls (events s.2) ++ [EvExecute create_schema].
Proof.
  intros Hddl Hfail. rewrite preprocess_aggregation_eq, Hddl. cbn zeta.
  unfold answer_of. rewrite Hfail. cbn. repeat split.
  by rewrite store_calls_app.
Qed.

End Preprocessing.

(** ** The assembly of an aggregation *)

Section Assembly.

Context `{collaborators : Collaborators}.
Implicit Types s : gstate.

(** X5. An aggregation that is assembled has one column specification for
    each entry of the block, the plain aggregates first, then the
    categoricals, then the array categoricals, each in the order of the
    configuration; and its source, intervals, groups, date column and prefix
    are those of the block, its dates and cohort table those of the call. *)
Theorem aggregation_assembled_from_config cfg dates state_table s a s' :
  _aggregation cfg dates state_table s = (Ok a, s') ->
  (exists aggregates categoricals array_categoricals,
     sa_aggregates a = aggregates ++ categoricals ++ array_categoricals /\
     Forall2 (aggregate_of (get_dict (cfg_aggregates_imputation cfg)))
       (default [] (cfg_aggregates cfg)) aggregates /\
     Forall2 (categorical_of (get_dict (cfg_categoricals_imputation cfg)))
       (default [] (cfg_categoricals cfg)) categoricals /\
     Forall2
       (array_categorical_of
          (get_dict (cfg_array_categoricals_imputation cfg)))
       (default [] (cfg_array_categoricals cfg)) array_categoricals) /\
  length (sa_aggregates a) =
    length (default [] (cfg_aggregates cfg)) +
    length (default [] (cfg_categoricals cfg)) +
    length (default [] (cfg_array_categoricals cfg)) /\
  cfg_from_obj cfg = Some (sa_from_obj a) /\
  cfg_intervals cfg = Some (sa_intervals a) /\
  cfg_groups cfg = Some (sa_groups a) /\
  cfg_knowledge_date_column cfg = Some (sa_date_column a) /\
  cfg_prefix cfg = Some (sa_prefix a) /\
  sa_as_of_dates a = dates /\
  sa_cohort_table a = state_table.
Proof.
  intros H. unfold _aggregation in H. rewrite bind_outside_info in H.
  cbn zeta in H.
  apply bind_ok_inv in H as (ags & s1 & Hags & H).
  rewrite bind_outside_info in H.
  apply bind_ok_inv in H as (cats & s2 & Hcats & H).
  rewrite bind_outside_info in H.
  apply bind_ok_inv in H as (arrs & s3 & Harrs & H).
  rewrite bind_outside_info, bind_getitem in H.
  destruct (cfg_from_obj cfg) as [from_obj|]; [| done].
  rewrite bind_getitem in H.
  destruct (cfg_intervals cfg) as [intervals|]; [| done].
  rewrite bind_getitem in H.
  destruct (cfg_groups cfg) as [groups|]; [| done].
  rewrite bind_gets, bind_getitem in H.
  destruct (cfg_knowledge_date_column cfg) as [date_column|]; [| done].
  rewrite bind_getitem in H.
  destruct (cfg_prefix cfg) as [prefix|]; [| done].
  injection H as <- <-. cbn.
  apply build_aggregates_specs in Hags.
  apply _build_categoricals_specs in Hcats.
  apply _build_array_categoricals_specs in Harrs.
  split; [by exists ags, cats, arrs |]. split; [| done].
  rewrite !length_app.
  rewrite <- (Forall2_length _ _ _ Hags), <- (Forall2_length _ _ _ Hcats),
    <- (Forall2_length _ _ _ Harrs). lia.
Qed.

Lemma instead_of_bind {S A B C} e (m : M S A) (k : A -> M S B)
    (k' : A -> M S C) (t : S) :
  (forall a t1, instead_of e (k a t1) (k' a t1)) ->
  instead_of e (bind m k t) (bind m k' t).
Proof.
  intros Hk. unfold bind. destruct (m t) as [[a|e'] t1]; [apply Hk | done].
Qed.

(** X6. The required keys of a block are looked at last. A block that
    lacks one of them goes through the same run as the block with the
    keys: the same column specifications are built, the same lookups go to
    the store, a failure on the way is the same failure; only where the
    complete block would return its aggregation, the incomplete one raises
    [KeyError] for the first key it lacks, in the order [from_obj],
    [intervals], [groups], [knowledge_date_column], [prefix]. *)
Theorem required_keys_are_checked_last cfg cfg' key dates state_table s :
  same_column_entries cfg cfg' ->
  first_missing_required cfg = Some key ->
  first_missing_required cfg' = None ->
  instead_of (KeyError key)
    (_aggregation cfg dates state_table s)
    (_aggregation cfg' dates state_table s).
Proof.
  intros (H1 & H2 & H3 & H4 & H5 & H6) Hmissing Hcomplete.
  unfold _aggregation. rewrite H1, H2, H3, H4, H5, H6.
  rewrite !bind_outside_info. cbn zeta.
  apply instead_of_bind. intros ags s1. rewrite !bind_outside_info.
  apply instead_of_bind. intros cats s2. rewrite !bind_outside_info.
  apply instead_of_bind. intros arrs s3. rewrite !bind_outside_info.
  unfold first_missing_required, has_key in Hmissing, Hcomplete.
  destruct (cfg_from_obj cfg'); [| done].
  destruct (cfg_intervals cfg'); [| done].
  destruct (cfg_groups cfg'); [| done].
  destruct (cfg_knowledge_date_column cfg'); [| done].
  destruct (cfg_prefix cfg'); [| done]. clear Hcomplete.
  destruct (cfg_from_obj cfg); cbn in Hmissing;
    [| injection Hmissing as <-; hnf; reflexivity].
  destruct (cfg_intervals cfg); cbn in Hmissing;
    [| injection Hmissing as <-; hnf; reflexivity].
  destruct (cfg_groups cfg); cbn in Hmissing;
    [| injection Hmissing as <-; hnf; reflexivity].
  destruct (cfg_knowledge_date_column cfg); cbn in Hmissing;
    [| injection Hmissing as <-; hnf; reflexivity].
  destruct (cfg_prefix cfg); cbn in Hmissing;
    [done | injection Hmissing as <-; hnf; reflexivity].
Qed.

(** The plain aggregates are built without a look at the instance or at
    the world. *)
Lemma build_aggregates_pure aggregates agimp s :
  exists r,
    build_aggregates aggregates agimp s = (r, s) /\
    is_ok r = forallb wf_aggregate aggregates.
Proof.
  unfold build_aggregates.
  induction aggregates as [|a aggregates (r & IHs & IHok)];
    [by exists (Ok []) |].
  cbn [comprehension forallb]. rewrite bind_assoc, bind_getitem.
  unfold wf_aggregate at 1, has_key, sets_coltype.
  destruct (agg_quantity a); [| by eexists]. rewrite bind_assoc, bind_getitem.
  destruct (agg_metrics a); [| by eexists]. rewrite bind_assoc, bind_of_result.
  unfold impute_rules_dict.
  destruct (decide ("coltype" ∈ dom (get_dict (agg_imputation a)))) as [Hin|Hout].
  { rewrite bool_decide_eq_true_2 by done. by eexists. }
  rewrite bool_decide_eq_false_2 by done. rewrite bind_ret. cbn [andb negb].
  destruct r as [ys|e].
  - rewrite (bind_eq _ _ _ _ _ IHs). by eexists.
  - rewrite (bind_fails _ _ _ _ _ IHs). by eexists.
Qed.

(** X7. A plain aggregate that is not well formed (no [quantity], no
    [metrics], or an imputation that sets ["coltype"]) makes the assembly
    fail before any categorical is resolved: no statement has gone to the
    store, and the instance is as it was. *)
Theorem malformed_aggregate_reported_first cfg dates state_table s :
  forallb wf_aggregate (default [] (cfg_aggregates cfg)) = false ->
  is_ok (_aggregation cfg dates state_table s).1 = false /\
  (_aggregation cfg dates state_table s).2 =
    (s.1,
     after_record
       (EvInfo
          "Building collate.SpacetimeAggregation for config %s and %s as_of_dates")
       s.2) /\
  store_calls (events (_aggregation cfg dates state_table s).2.2)
  = store_calls (events s.2).
Proof.
  intros Hwf. unfold _aggregation. rewrite bind_outside_info. cbn zeta.
  set (s1 := (s.1, after_record _ s.2)).
  destruct (build_aggregates_pure (default [] (cfg_aggregates cfg))
              (get_dict (cfg_aggregates_imputation cfg)) s1)
    as (r & Hrun & Hok).
  rewrite Hwf in Hok. destruct r as [ags|e]; [done |].
  rewrite (bind_fails _ _ _ _ _ Hrun). cbn.
  repeat split. by rewrite store_calls_app, app_nil_r.
Qed.

(** X8. The choices of a categorical are resolved before its imputation
    is merged: an entry whose imputation sets ["coltype"] is refused only
    after its choices were resolved, so that its lookup query, if it has
    one that is not cached, has gone to the store by then. It is so for
    categoricals and for array categoricals. *)
Theorem bad_imputation_detected_after_lookup c rest rules s col metrics :
  cat_column c = Some col ->
  cat_metrics c = Some metrics ->
  sets_coltype (cat_imputation c) = true ->
  let resolution := _build_choices c s in
  let outcome :=
    (match resolution.1 with
     | Ok _ =>
         Raise (TypeError
                  "dict() got multiple values for keyword argument 'coltype'")
     | Raise e => Raise e
     end, resolution.2) in
  _build_categoricals (c :: rest) rules s = outcome /\
  _build_array_categoricals (c :: rest) rules s = outcome.
Proof.
  intros Hcol Hmetrics Himp resolution outcome. subst outcome resolution.
  unfold sets_coltype in Himp. apply bool_decide_eq_true in Himp.
  unfold _build_categoricals, _build_array_categoricals.
  cbn [comprehension]. rewrite !bind_assoc, !bind_getitem, Hcol, !bind_assoc.
  destruct (_build_choices c s) as [[choices|e] s1] eqn:Hrun; cbn [fst snd].
  2: { by rewrite !(bind_fails _ _ _ _ _ Hrun). }
  rewrite !(bind_eq _ _ _ _ _ Hrun). cbn beta.
  rewrite !bind_assoc, !bind_getitem, Hmetrics, !bind_assoc, !bind_of_result.
  unfold impute_rules_dict. by rewrite !decide_True.
Qed.

(** X9. A block that fails ends the run of [aggregations]: the exception
    of the block is raised, in the state the block left, whatever blocks
    come after it; the blocks before it have been preprocessed for
    nothing. *)
Theorem failing_block_aborts cfgs cfg rest dates state_table s blocks s1 e s2 :
  aggregations cfgs dates state_table s = (Ok blocks, s1) ->
  feature_block cfg dates state_table s1 = (Raise e, s2) ->
  aggregations (cfgs ++ cfg :: rest) dates state_table s = (Raise e, s2).
Proof.
  intros Hbefore Hblock. rewrite aggregations_app.
  rewrite (bind_eq _ _ _ _ _ Hbefore). cbn beta.
  apply bind_fails. unfold aggregations. cbn [comprehension].
  by apply bind_fails.
Qed.

End Assembly.

(** ** The dictionary of an array categorical *)

Section ArrayChoices.

Lemma odict_setitem_keys d k v :
  (odict_setitem d k v).*1 =
  if bool_decide (canon k ∈ canon <$> d.*1) then d.*1 else d.*1 ++ [k].
Proof.
  induction d as [|[k1 v1] d IH]; [done |]. cbn.
  destruct (py_eqb k1 k) eqn:H1; cbn.
  - apply py_eqb_true in H1. rewrite bool_decide_eq_true_2; [done |].
    rewrite H1. by left.
  - rewrite IH. apply not_true_iff_false in H1.
    assert (Hne : canon k <> canon k1).
    { intros Heq. apply H1, py_eqb_true. done. }
    destruct (decide (canon k ∈ canon <$> d.*1)) as [Hin|Hout].
    + rewrite !bool_decide_eq_true_2; [done | by right | done].
    + rewrite !bool_decide_eq_false_2; [done | | done].
      by intros [?|?]%elem_of_cons.
Qed.

Lemma odict_setitem_fresh d k v :
  canon k ∉ canon <$> d.*1 -> odict_setitem d k v = d ++ [(k, v)].
Proof.
  induction d as [|[k1 v1] d IH]; [done |]. cbn. intros Hout.
  apply not_elem_of_cons in Hout as [Hne Hout].
  destruct (py_eqb k1 k) eqn:H1.
  - apply py_eqb_true in H1. congruence.
  - by rewrite IH.
Qed.

(** X10. The keys of the dictionary of choices are pairwise different as
    Python compares them, every key is one of the choices, and there are no
    more keys than choices: choices that are equal fall into one key. *)
Theorem array_choices_keys_distinct choices :
  NoDup (canon <$> (array_choices choices).*1) /\
  (forall k, k ∈ (array_choices choices).*1 -> k ∈ choices) /\
  length (array_choices choices) <= length choices.
Proof.
  induction choices as [|c choices (IHnd & IHin & IHlen)] using rev_ind.
  { repeat split; [constructor | by intros k ?%elem_of_nil | done]. }
  rewrite array_choices_snoc.
  assert (Hkeys := odict_setitem_keys (array_choices choices) c (array_literal c)).
  assert (Hlen : length (odict_setitem (array_choices choices) c
                           (array_literal c)) =
                 length (odict_setitem (array_choices choices) c
                           (array_literal c)).*1)
    by (by rewrite length_fmap).
  destruct (decide (canon c ∈ canon <$> (array_choices choices).*1))
    as [Hin|Hout].
  - rewrite bool_decide_eq_true_2 in Hkeys by done.
    rewrite Hlen, Hkeys, length_fmap, length_app. cbn.
    repeat split; [done | | lia].
    intros k Hk. apply elem_of_app. left. by apply IHin.
  - rewrite bool_decide_eq_false_2 in Hkeys by done.
    rewrite Hlen, Hkeys, !length_app, length_fmap, fmap_app. cbn.
    repeat split; [| | lia].
    + apply NoDup_app. split; [done |]. split; [| by apply NoDup_singleton].
      intros x Hx ->%list_elem_of_singleton. done.
    + intros k [Hk|Hk]%elem_of_app; apply elem_of_app;
        [left; by apply IHin | by right].
Qed.

(** X11. When the choices are pairwise different, the dictionary has them
    all, in their order, each bound to its own array literal. *)
Theorem distinct_choices_keep_order choices :
  NoDup (canon <$> choices) ->
  array_choices choices = (fun c => (c, array_literal c)) <$> choices.
Proof.
  induction choices as [|c choices IH] using rev_ind; [done |].
  rewrite fmap_app. intros [Hnd [Hout _]]%NoDup_app.
  rewrite array_choices_snoc, IH by done. rewrite fmap_app. cbn.
  apply odict_setitem_fresh.
  intros (k & Hk & ([c0 v] & -> & (c1 & [= -> ->] & Hc1)%list_elem_of_fmap)
            %list_elem_of_fmap)%list_elem_of_fmap.
  cbn in Hk. apply (Hout (canon c)); [| by left].
  rewrite Hk. by apply list_elem_of_fmap_2.
Qed.

(** X12. The merged rule set has the keys of the default, the keys of the
    override and ["coltype"], and no other; with no override it is the
    default under the tag. The merge is refused exactly when the override
    sets ["coltype"]. *)
Theorem merged_rules_domain default tag override :
  is_ok (impute_rules_dict default tag override)
  = negb (bool_decide ("coltype" ∈ dom override)) /\
  (forall merged,
     impute_rules_dict default tag override = Ok merged ->
     dom merged = dom default ∪ dom override ∪ {["coltype"]}) /\
  impute_rules_dict default tag ∅ = Ok (<["coltype" := PStr tag]> default).
Proof.
  split; [| split].
  - unfold impute_rules_dict. destruct (decide _) as [Hin|Hout].
    + by rewrite bool_decide_eq_true_2.
    + by rewrite bool_decide_eq_false_2.
  - intros merged [_ ->]%impute_rules_dict_ok.
    rewrite dom_union_L, dom_insert_L.
    apply set_eq. intros k. rewrite !elem_of_union. tauto.
  - unfold impute_rules_dict. rewrite dom_empty_L, decide_False.
    + by rewrite (left_id_L ∅ (∪)).
    + apply not_elem_of_empty.
Qed.

End ArrayChoices.

(** ** A generation run *)

Section GenerationRun.

Context `{collaborators : Collaborators}.
Implicit Types s : gstate.
Implicit Types w : world.

(** The resolver leaves the fields of the instance other than the cache. *)
Lemma compute_choices_fields (F : SpacetimeAggregationGenerator -> Prop) q s :
  (forall self cache, F self -> F (set_categorical_cache cache self)) ->
  F s.1 ->
  wp (_compute_choices q) (fun _ s' => F s'.1) (fun _ s' => F s'.1) s.
Proof.
  intros Hset HF. unfold wp.
  destruct (categorical_cache s.1 !! q) as [l|] eqn:Hq.
  { by rewrite (_compute_choices_hit q s l). }
  rewrite _compute_choices_miss by done.
  destruct (answer_of q s.2) as [rows|e]; [| done].
  destruct (first_column rows); [| done]. cbn zeta.
  destruct (answer_of "COMMIT" _); by apply Hset.
Qed.

Lemma aggregations_conventions schema fst flag cfgs dates state_table w
    materialize blocks s' :
  aggregations cfgs dates state_table
    (__init__ schema fst materialize flag, w) = (Ok blocks, s') ->
  Forall (conventions schema fst state_table flag) blocks.
Proof.
  intros Hrun.
  set (F := fun self =>
    gen_features_schema_name self = schema /\
    gen_feature_start_time self = fst /\
    features_ignore_cohort self = flag /\
    entity_id_column self = "entity_id").
  assert (H : wp (aggregations cfgs dates state_table)
    (fun blocks s' =>
       F s'.1 /\ Forall (conventions schema fst state_table flag) blocks)
    (fun _ _ => True) (__init__ schema fst materialize flag, w)).
  { apply (keeps_aggregations (fun s => F s.1) (fun _ => True)
             (fun table => conventions schema fst table flag)); try done.
    - by intros s0 s1 H0 [-> _].
    - intros q s0 H0. eapply wp_mono;
        [by apply (compute_choices_fields F) | done | done].
    - intros s0 table a (H1 & H2 & H3 & H4) (Ha & Hb & Hc & Hd & He & Hf).
      unfold conventions. by rewrite He, Hf, Hc, Hd, Hb, Ha, H1, H2, H3, H4. }
  unfold wp in H. rewrite Hrun in H. apply H.
Qed.

(** X13. Every feature block of a generation run has the entity column
    [entity_id] and the output date column [as_of_date], the schema name and
    the feature start time the run was called with, and the cohort table as
    it was given. Its cohort-independence flag is the one the caller passed
    when there is a cohort table, and true when there is none. *)
Theorem generated_blocks_carry_conventions cfgs dates cohort_table schema fst
    materialize flag w blocks w' :
  generate_spacetime_aggregations cfgs dates cohort_table schema fst
    materialize flag w = (Ok blocks, w') ->
  Forall (conventions schema fst cohort_table (py_not cohort_table || flag))
    blocks.
Proof.
  rewrite generate_spacetime_aggregations_eq. unfold on_instance.
  destruct (aggregations _ _ _ _) as [r s'] eqn:Hrun. intros [= -> <-].
  by eapply aggregations_conventions.
Qed.

Lemma uninterrupted_aggregations cfgs dates state_table s :
  (uninterrupted [call_aggregations cfgs dates state_table] s).2
  = (aggregations cfgs dates state_table s).2.
Proof.
  cbn [uninterrupted perform]. unfold bind, ret.
  by destruct (aggregations cfgs dates state_table s) as [[blocks|e] s'].
Qed.

(** X14. A generation run asks the store each lookup query at most once,
    whatever it returns or raises. *)
Theorem one_lookup_per_generation_run cfgs dates cohort_table schema fst
    materialize flag w q :
  lookups q
    (events (generate_spacetime_aggregations cfgs dates cohort_table schema
               fst materialize flag w).2)
  <= lookups q (events w) + 1.
Proof.
  rewrite generate_spacetime_aggregations_eq. unfold on_instance.
  set (w0 := if py_not cohort_table then _ else w).
  assert (Hw0 : lookups q (events w0) = lookups q (events w)).
  { subst w0. destruct (py_not cohort_table); [| done]. cbn.
    by apply lookups_other. }
  pose proof (uninterrupted_lookups
                [call_aggregations cfgs dates cohort_table]
                (__init__ schema fst materialize (py_not cohort_table || flag))
                w0 q eq_refl) as H.
  rewrite uninterrupted_aggregations, Hw0 in H.
  by destruct (aggregations _ _ _ _) as [r s'].
Qed.

(** *** The cache does not outlive the run *)

Lemma wp_trivial {S A} (m : M S A) (t : S) :
  wp m (fun _ _ => True) (fun _ _ => True) t.
Proof. unfold wp. by destruct (m t) as [[a|e] t']. Qed.

Lemma cached_kept q q' s :
  cached q s ->
  wp (_compute_choices q') (fun _ => cached q) (fun _ => cached q) s.
Proof.
  intros [l Hl]. eapply wp_mono;
    [by apply (cached_compute q l (lookups q (events s.2))) | |];
    intros ? s' [Hs' _]; by exists l.
Qed.

Lemma cached_silent q s s' : cached q s -> silent s s' -> cached q s'.
Proof. unfold cached. by intros H [-> _]. Qed.

Lemma build_choices_caches c q s :
  looks_up c q ->
  wp (_build_choices c) (fun _ => cached q) (fun _ _ => True) s.
Proof.
  intros [Hchoices Hquery]. unfold wp. rewrite _build_choices_eq.
  destruct (cat_column c) as [col|]; [| done].
  destruct (cat_metrics c) as [ms|]; [| done].
  rewrite Hchoices, Hquery. cbn zeta.
  set (s1 := (s.1, _)).
  destruct (categorical_cache s1.1 !! q) as [l|] eqn:Hq.
  { rewrite (_compute_choices_hit q s1 l) by done. by exists l. }
  rewrite _compute_choices_miss by done.
  destruct (answer_of q s1.2) as [rows|e]; [| done].
  destruct (first_column rows) as [l|]; [| done]. cbn zeta.
  destruct (answer_of "COMMIT" _); [| done].
  exists l. cbn. by rewrite lookup_insert_eq.
Qed.

(** A comprehension reaches what the body reaches on one of the elements
    and keeps on all of them. *)
Lemma comprehension_reaches {A B} (f : A -> M gstate B) (K : gstate -> Prop)
    (l : list A) x s :
  x ∈ l ->
  (forall s0, wp (f x) (fun _ => K) (fun _ _ => True) s0) ->
  (forall x' s0, K s0 -> wp (f x') (fun _ => K) (fun _ _ => True) s0) ->
  wp (comprehension f l) (fun _ => K) (fun _ _ => True) s.
Proof.
  intros Hx Hreach Hkeep. revert s.
  induction l as [|x0 l IH]; intros s; [by apply elem_of_nil in Hx |].
  cbn [comprehension]. apply wp_bind.
  apply elem_of_cons in Hx as [<-|Hx].
  - eapply wp_mono; [apply Hreach | | done]. intros y s1 HK.
    apply wp_bind. eapply wp_mono.
    + apply (wp_comprehension _ K (fun _ _ => True) (fun _ _ => True));
        [done |].
      intros x' s0 _ HK0. eapply wp_mono; [by apply Hkeep | | done].
      by intros; split.
    + intros ys s2 [HK2 _]. by apply wp_ret.
    + done.
  - eapply wp_mono; [apply wp_trivial | | done]. intros y s1 _.
    apply wp_bind. eapply wp_mono; [by apply IH | | done].
    intros ys s2 HK2. by apply wp_ret.
Qed.

(** The body of the two comprehensions over categoricals. *)
Lemma categorical_body_reaches q c default tag
    (build : _ -> _ -> _ -> _ -> column_spec) s :
  looks_up c q ->
  wp (let* col := getitem "column" (cat_column c) in
      let* choices := _build_choices c in
      let* function := getitem "metrics" (cat_metrics c) in
      let* rules := of_result (impute_rules_dict default tag
                                 (get_dict (cat_imputation c))) in
      ret (build col choices function rules))
    (fun _ => cached q) (fun _ _ => True) s.
Proof.
  intros Hc. apply wp_bind, wp_getitem; [intros col _ | done].
  apply wp_bind. eapply wp_mono; [by apply build_choices_caches | | done].
  intros choices s1 HK.
  apply wp_bind, wp_getitem; [intros ms _ | done].
  apply wp_bind, wp_of_result; [intros rules _ | done].
  by apply wp_ret.
Qed.

Lemma categorical_body_keeps q c default tag
    (build : _ -> _ -> _ -> _ -> column_spec) s :
  cached q s ->
  wp (let* col := getitem "column" (cat_column c) in
      let* choices := _build_choices c in
      let* function := getitem "metrics" (cat_metrics c) in
      let* rules := of_result (impute_rules_dict default tag
                                 (get_dict (cat_imputation c))) in
      ret (build col choices function rules))
    (fun _ => cached q) (fun _ _ => True) s.
Proof.
  intros HK. apply wp_bind, wp_getitem; [intros col _ | done].
  apply wp_bind. eapply wp_mono.
  - apply (keeps_build_choices (cached q) (cached q)); try done.
    + apply cached_silent.
    + intros q' s0. apply cached_kept.
  - intros choices s1 HK1.
    apply wp_bind, wp_getitem; [intros ms _ | done].
    apply wp_bind, wp_of_result; [intros rules _ | done].
    by apply wp_ret.
  - done.
Qed.

Lemma cached_info q fmt s :
  cached q s -> cached q (s.1, after_record (EvInfo fmt) s.2).
Proof. done. Qed.

Lemma aggregation_caches q cfg dates state_table s :
  references cfg q ->
  wp (_aggregation cfg dates state_table) (fun _ => cached q)
    (fun _ _ => True) s.
Proof.
  intros (c & Hin & Hc). unfold _aggregation. apply wp_info. cbn zeta.
  apply wp_bind. eapply wp_mono; [apply wp_trivial | | done].
  intros aggregates s1 _. apply wp_info. apply wp_bind.
  assert (Htail : forall categoricals s2,
    cached q s2 ->
    wp (outside (logging_info "Found %s categorical aggregates") ;;;
        let* array_categoricals :=
          _build_array_categoricals
            (default [] (cfg_array_categoricals cfg))
            (get_dict (cfg_array_categoricals_imputation cfg)) in
        outside (logging_info "Found %s array categorical aggregates") ;;;
        let* from_obj := getitem "from_obj" (cfg_from_obj cfg) in
        let* intervals := getitem "intervals" (cfg_intervals cfg) in
        let* groups := getitem "groups" (cfg_groups cfg) in
        let* self := gets (fun s : gstate => s.1) in
        let* date_column :=
          getitem "knowledge_date_column" (cfg_knowledge_date_column cfg) in
        let* prefix := getitem "prefix" (cfg_prefix cfg) in
        ret {| sa_aggregates := aggregates ++ categoricals ++ array_categoricals;
               sa_from_obj := from_obj;
               sa_intervals := intervals;
               sa_groups := groups;
               sa_as_of_dates := dates;
               sa_cohort_table := state_table;
               sa_entity_column := entity_id_column self;
               sa_date_column := date_column;
               sa_output_date_column := "as_of_date";
               sa_feature_start_time := gen_feature_start_time self;
               sa_features_schema_name := gen_features_schema_name self;
               sa_prefix := prefix;
               sa_features_ignore_cohort := features_ignore_cohort self |})
      (fun _ => cached q) (fun _ _ => True) s2).
  { intros categoricals s2 HK. apply wp_info. apply wp_bind.
    eapply wp_mono.
    - apply (keeps_build_array_categoricals (cached q) (cached q)); try done.
      + apply cached_silent.
      + intros q' s0. apply cached_kept.
    - intros arrs s3 HK3. apply wp_info.
      repeat (apply wp_bind; first [apply wp_getitem; [intros ? _ | done]
                                   | apply wp_gets]).
      by apply wp_ret.
    - done. }
  destruct Hin as [Hin|Hin].
  - eapply wp_mono.
    + unfold _build_categoricals.
      apply (comprehension_reaches _ (cached q) _ c); [done | |].
      * intros s0.
        by apply (categorical_body_reaches q c _ _
                    (fun col choices function rules =>
                       Categorical col choices function rules true _)).
      * intros c' s0 HK.
        by apply (categorical_body_keeps q c' _ _
                    (fun col choices function rules =>
                       Categorical col choices function rules true _)).
    + intros categoricals s2 HK. by apply Htail.
    + done.
  - eapply wp_mono; [apply wp_trivial | | done].
    intros categoricals s2 _. apply wp_info. apply wp_bind.
    eapply wp_mono.
    + unfold _build_array_categoricals.
      apply (comprehension_reaches _ (cached q) _ c); [done | |].
      * intros s0.
        by apply (categorical_body_reaches q c _ _
                    (fun col choices function rules =>
                       Compare col "@>" (array_choices choices) function rules
                         false false true _)).
      * intros c' s0 HK.
        by apply (categorical_body_keeps q c' _ _
                    (fun col choices function rules =>
                       Compare col "@>" (array_choices choices) function rules
                         false false true _)).
    + intros arrs s3 HK3. apply wp_info.
      repeat (apply wp_bind; first [apply wp_getitem; [intros ? _ | done]
                                   | apply wp_gets]).
      by apply wp_ret.
    + done.
Qed.

Lemma aggregations_cache q cfgs cfg dates state_table s :
  cfg ∈ cfgs -> references cfg q ->
  wp (aggregations cfgs dates state_table) (fun _ => cached q)
    (fun _ _ => True) s.
Proof.
  intros Hin Href. unfold aggregations.
  apply (comprehension_reaches _ (cached q) _ cfg); [done | |].
  - intros s0. apply wp_bind.
    eapply wp_mono; [by apply aggregation_caches | | done].
    intros a s1 HK. eapply wp_mono.
    + apply (keeps_preprocess_aggregation (cached q) (cached q)); try done.
      apply cached_silent.
    + by intros ? ? [? _].
    + done.
  - intros cfg' s0 HK. eapply wp_mono.
    + apply (keeps_feature_block (cached q) (cached q) (fun _ _ => True));
        try done.
      * apply cached_silent.
      * intros q' s1. apply cached_kept.
    + by intros ? ? [? _].
    + done.
Qed.

(** X15. The cache lives as long as one generation run. A run that
    returns its blocks, for a configuration in which some categorical or
    array categorical is resolved by the lookup query [q], has asked the
    store that query exactly once, whatever earlier runs have resolved. *)
Theorem lookup_repeated_by_each_run cfgs cfg dates cohort_table schema fst
    materialize flag w q blocks w' :
  cfg ∈ cfgs ->
  references cfg q ->
  generate_spacetime_aggregations cfgs dates cohort_table schema fst
    materialize flag w = (Ok blocks, w') ->
  lookups q (events w') = lookups q (events w) + 1.
Proof.
  intros Hin Href. rewrite generate_spacetime_aggregations_eq.
  unfold on_instance.
  set (w0 := if py_not cohort_table then _ else w).
  assert (Hw0 : lookups q (events w0) = lookups q (events w)).
  { subst w0. destruct (py_not cohort_table); [| done]. cbn.
    by apply lookups_other. }
  set (s0 := (__init__ schema fst materialize (py_not cohort_table || flag),
              w0)).
  pose proof (aggregations_cache q cfgs cfg dates cohort_table s0 Hin Href)
    as Hcached.
  set (base := fun q => lookups q (events w0)).
  assert (Hsettled : wp (aggregations cfgs dates cohort_table)
                       (fun _ => lookups_settled base)
                       (fun _ => lookups_bounded base) s0).
  { eapply wp_mono.
    - apply (keeps_aggregations (lookups_settled base) (lookups_bounded base)
               (fun _ _ => True)); try done.
      + apply settled_bounded.
      + apply settled_silent.
      + apply settled_compute.
      + intros q'. cbn. rewrite lookup_empty. unfold base. lia.
    - by intros ? ? [? _].
    - done. }
  unfold wp in Hcached, Hsettled.
  destruct (aggregations cfgs dates cohort_table s0) as [r s'] eqn:Hrun.
  intros [= -> <-]. rewrite (Hsettled q). destruct Hcached as [l ->].
  unfold base. by rewrite Hw0.
Qed.

(** X16. A generator that fails ends the dispatch: its exception is
    raised as it is, in the world it left, and the keys after it are not
    looked at. *)
Theorem failing_generator_aborts config1 config_value config2 dates cohort
    schema fst fic kwargs w blocks w1 e w2 :
  feature_blocks_from_config config1 dates cohort schema fst fic kwargs w
  = (Ok blocks, w1) ->
  generate_spacetime_aggregations config_value dates cohort schema fst
    (default true kwargs) fic w1 = (Raise e, w2) ->
  feature_blocks_from_config
    (config1 ++ ("spacetime_aggregations", config_value) :: config2)
    dates cohort schema fst fic kwargs w = (Raise e, w2).
Proof.
  intros Hbefore Hgen. rewrite feature_blocks_from_config_app.
  rewrite (bind_eq _ _ _ _ _ Hbefore). cbn beta. apply bind_fails.
  unfold feature_blocks_from_config. cbn [feature_blocks_loop].
  cbn [FEATURE_BLOCK_GENERATOR_LOOKUP dict_get]. rewrite decide_True by done.
  by apply bind_fails.
Qed.

End GenerationRun.

(** * The further properties on the examples *)

Lemma failed_lookup_caches_unless_commit_failed_witness :
  (is_ok (@_compute_choices flaky_collaborators example_query flaky_state).1
   = false /\
   categorical_cache flaky_state.1 !! example_query = None /\
   lookups example_query
     (events (@_compute_choices flaky_collaborators example_query
                (@_compute_choices flaky_collaborators example_query
                   flaky_state).2).2.2) = 2) /\
  (is_ok (@_compute_choices refusing_collaborators example_query
            refusing_state).1 = false /\
   @_compute_choices refusing_collaborators example_query
     (@_compute_choices refusing_collaborators example_query
        refusing_state).2 =
   (Ok [SStr "arrest"],
    (@_compute_choices refusing_collaborators example_query
       refusing_state).2)).
Proof.
  split.
  - assert (H : is_ok (@_compute_choices flaky_collaborators example_query
                         flaky_state).1 = false) by reflexivity.
    split; [exact H |].
    destruct (failed_lookup_caches_unless_commit_failed
                (collaborators := flaky_collaborators) example_query
                flaky_state H)
      as [Hmiss [(_ & _ & Hlog) | (rows & l & Hrows & _)]].
    + split; [exact Hmiss | exact Hlog].
    + vm_compute in Hrows. discriminate Hrows.
  - assert (H : is_ok (@_compute_choices refusing_collaborators example_query
                         refusing_state).1 = false) by reflexivity.
    split; [exact H |].
    destruct (failed_lookup_caches_unless_commit_failed
                (collaborators := refusing_collaborators) example_query
                refusing_state H)
      as [_ [([Herr|Herr] & _) | (rows & l & Hrows & Hl & _ & _ & Hagain)]].
    + vm_compute in Herr. discriminate Herr.
    + vm_compute in Herr. discriminate Herr.
    + vm_compute in Hrows. injection Hrows as <-.
      vm_compute in Hl. injection Hl as <-. exact Hagain.
Defined.

Lemma unresolvable_entry_raises_witness :
  cat_choices example_unresolvable = None /\
  cat_choice_query example_unresolvable = None /\
  (@_build_choices example_collaborators example_unresolvable
     example_state).1 = Raise (KeyError "choice_query").
Proof.
  split; [reflexivity |]. split; [reflexivity |].
  exact (proj1 (unresolvable_entry_raises
           (collaborators := example_collaborators) example_unresolvable
           example_state eq_refl eq_refl)).
Defined.

Lemma preprocessing_without_materialization_witness :
  materialize_subquery_fromobjs (__init__ "features" None false false) = false /\
  tables (@preprocess_aggregation example_collaborators example_aggregation
            (__init__ "features" None false false, example_world)).2.2
  = tables example_world.
Proof.
  split; [reflexivity |].
  exact (proj1 (preprocessing_without_materialization
           (collaborators := example_collaborators) example_aggregation
           (__init__ "features" None false false, example_world) eq_refl)).
Defined.

Lemma failed_schema_directive_stops_preprocessing_witness :
  @get_create_schema flaky_collaborators example_aggregation
  = Some "CREATE SCHEMA IF NOT EXISTS features" /\
  (@execute flaky_collaborators (store flaky_state.2)
     "CREATE SCHEMA IF NOT EXISTS features").1 = None /\
  (@preprocess_aggregation flaky_collaborators example_aggregation
     flaky_state).1
  = Raise (StoreError "CREATE SCHEMA IF NOT EXISTS features").
Proof.
  split; [reflexivity |]. split; [reflexivity |].
  exact (f_equal fst (proj1 (failed_schema_directive_stops_preprocessing
           (collaborators := flaky_collaborators) example_aggregation
           flaky_state "CREATE SCHEMA IF NOT EXISTS features"
           eq_refl eq_refl))).
Defined.

Lemma aggregation_assembled_from_config_witness :
  exists a s',
    @_aggregation example_collaborators (example_block "a") ["2020-01-01"]
      None example_state = (Ok a, s') /\
    length (sa_aggregates a) = 3 /\
    sa_prefix a = "a".
Proof.
  destruct (@_aggregation example_collaborators (example_block "a")
              ["2020-01-01"] None example_state) as [[a|e] s'] eqn:H.
  - exists a, s'. split; [reflexivity |].
    pose proof (aggregation_assembled_from_config
                  (collaborators := example_collaborators) _ _ _ _ _ _ H)
      as (_ & Hlen & _ & _ & _ & _ & Hprefix & _).
    split; [exact Hlen |]. cbn in Hprefix. by injection Hprefix as <-.
  - vm_compute in H. discriminate H.
Defined.

Lemma required_keys_are_checked_last_witness :
  same_column_entries example_block_without_prefix (example_block "b") /\
  first_missing_required example_block_without_prefix = Some "intervals" /\
  first_missing_required (example_block "b") = None /\
  instead_of (KeyError "intervals")
    (@_aggregation example_collaborators example_block_without_prefix
       ["2020-01-01"] None example_state)
    (@_aggregation example_collaborators (example_block "b")
       ["2020-01-01"] None example_state).
Proof.
  assert (H : same_column_entries example_block_without_prefix
                (example_block "b")) by (repeat split; reflexivity).
  split; [exact H |]. split; [reflexivity |]. split; [reflexivity |].
  exact (required_keys_are_checked_last
           (collaborators := example_collaborators)
           example_block_without_prefix (example_block "b") "intervals"
           ["2020-01-01"] None example_state H eq_refl eq_refl).
Defined.

Lemma malformed_aggregate_reported_first_witness :
  forallb wf_aggregate (default [] (cfg_aggregates example_block_bad_aggregate))
  = false /\
  store_calls
    (events (@_aggregation example_collaborators example_block_bad_aggregate
               ["2020-01-01"] None example_state).2.2)
  = store_calls (events example_state.2).
Proof.
  assert (H : forallb wf_aggregate
                (default [] (cfg_aggregates example_block_bad_aggregate))
              = false) by (vm_compute; reflexivity).
  split; [exact H |].
  exact (proj2 (proj2 (malformed_aggregate_reported_first
           (collaborators := example_collaborators)
           example_block_bad_aggregate ["2020-01-01"] None example_state H))).
Defined.

Lemma bad_imputation_detected_after_lookup_witness :
  cat_column example_bad_imputation = Some "kind" /\
  cat_metrics example_bad_imputation = Some ["sum"] /\
  sets_coltype (cat_imputation example_bad_imputation) = true /\
  store_calls
    (events (@_build_categoricals example_collaborators
               [example_bad_imputation] ∅ example_state).2.2)
  = [EvQuery example_query; EvExecute "COMMIT"].
Proof.
  assert (H : sets_coltype (cat_imputation example_bad_imputation) = true)
    by (vm_compute; reflexivity).
  split; [reflexivity |]. split; [reflexivity |]. split; [exact H |].
  rewrite (proj1 (bad_imputation_detected_after_lookup
             (collaborators := example_collaborators) example_bad_imputation
             [] ∅ example_state "kind" ["sum"] eq_refl eq_refl H)).
  vm_compute. reflexivity.
Defined.

Lemma failing_block_aborts_witness :
  is_ok (@aggregations example_collaborators
           ([example_block "a"] ++
            example_block_without_prefix :: [example_block "b"])
           ["2020-01-01"] None example_state).1 = false.
Proof.
  destruct (@aggregations example_collaborators [example_block "a"]
              ["2020-01-01"] None example_state) as [[blocks|e] s1] eqn:H1.
  2: { vm_compute in H1. discriminate H1. }
  destruct (@feature_block example_collaborators example_block_without_prefix
              ["2020-01-01"] None s1) as [[b|e] s2] eqn:H2.
  { vm_compute in H1. injection H1 as <- <-. vm_compute in H2.
    discriminate H2. }
  by rewrite (failing_block_aborts (collaborators := example_collaborators)
                _ _ [example_block "b"] _ _ _ _ _ _ _ H1 H2).
Defined.

Lemma distinct_choices_keep_order_witness :
  NoDup (canon <$> [SStr "arrest"; SInt 1; SNone]) /\
  array_choices [SStr "arrest"; SInt 1; SNone] =
  [(SStr "arrest", "array['arrest'::varchar]");
   (SInt 1, "array['1'::varchar]");
   (SNone, "array['None'::varchar]")].
Proof.
  assert (H : NoDup (canon <$> [SStr "arrest"; SInt 1; SNone])).
  { refine (bool_decide_unpack _ _). vm_compute. exact I. }
  split; [exact H |].
  rewrite (distinct_choices_keep_order _ H). reflexivity.
Defined.

Lemma merged_rules_domain_witness :
  impute_rules_dict example_default "aggregate" example_override
  = Ok (example_override ∪ <["coltype" := PStr "aggregate"]> example_default) /\
  dom (example_override ∪ <["coltype" := PStr "aggregate"]> example_default)
  = dom example_default ∪ dom example_override ∪ {["coltype"]}.
Proof.
  assert (H : impute_rules_dict example_default "aggregate" example_override
    = Ok (example_override ∪
          <["coltype" := PStr "aggregate"]> example_default))
    by (vm_compute; reflexivity).
  split; [exact H |].
  exact (proj1 (proj2 (merged_rules_domain example_default "aggregate"
                         example_override)) _ H).
Defined.

Lemma generated_blocks_carry_conventions_witness :
  exists blocks w',
    @generate_spacetime_aggregations example_collaborators
      [example_block "a"; example_block "b"] ["2020-01-01"] (Some "cohort")
      "features" None true false example_world = (Ok blocks, w') /\
    Forall (conventions "features" None (Some "cohort") false) blocks.
Proof.
  destruct (@generate_spacetime_aggregations example_collaborators
              [example_block "a"; example_block "b"] ["2020-01-01"]
              (Some "cohort") "features" None true false example_world)
    as [[blocks|e] w'] eqn:H.
  - exists blocks, w'. split; [reflexivity |].
    exact (generated_blocks_carry_conventions
             (collaborators := example_collaborators) _ _ _ _ _ _ _ _ _ _ H).
  - vm_compute in H. discriminate H.
Defined.

Lemma lookup_repeated_by_each_run_witness :
  example_block "a" ∈ [example_block "a"] /\
  references (example_block "a") example_query /\
  exists blocks w' blocks' w'',
    @generate_spacetime_aggregations example_collaborators
      [example_block "a"] ["2020-01-01"] None "features" None true false
      example_world = (Ok blocks, w') /\
    @generate_spacetime_aggregations example_collaborators
      [example_block "a"] ["2020-01-01"] None "features" None true false
      w' = (Ok blocks', w'') /\
    lookups example_query (events w'') = 2.
Proof.
  assert (Hin : example_block "a" ∈ [example_block "a"])
    by (by apply list_elem_of_singleton).
  assert (Href : references (example_block "a") example_query).
  { exists example_categorical. split; [| by split].
    left. cbn. by apply list_elem_of_singleton. }
  split; [exact Hin |]. split; [exact Href |].
  destruct (@generate_spacetime_aggregations example_collaborators
              [example_block "a"] ["2020-01-01"] None "features" None true
              false example_world) as [[blocks|e] w'] eqn:H1.
  2: { vm_compute in H1. discriminate H1. }
  destruct (@generate_spacetime_aggregations example_collaborators
              [example_block "a"] ["2020-01-01"] None "features" None true
              false w') as [[blocks'|e] w''] eqn:H2.
  2: { vm_compute in H1. injection H1 as <- <-. vm_compute in H2.
       discriminate H2. }
  exists blocks, w', blocks', w''. split; [reflexivity |].
  split; [exact H2 |].
  rewrite (lookup_repeated_by_each_run
             (collaborators := example_collaborators) _ _ _ _ _ _ _ _ _ _ _ _
             Hin Href H2).
  by rewrite (lookup_repeated_by_each_run
                (collaborators := example_collaborators) _ _ _ _ _ _ _ _ _ _ _ _
                Hin Href H1).
Defined.

Lemma failing_generator_aborts_witness :
  @feature_blocks_from_config example_collaborators [] ["2020-01-01"] None
    "features" None false None example_world = (Ok [], example_world) /\
  is_ok (@feature_blocks_from_config example_collaborators
           ([] ++ ("spacetime_aggregations", [example_block_without_prefix])
               :: [])
           ["2020-01-01"] None "features" None false None example_world).1
  = false.
Proof.
  split; [reflexivity |].
  destruct (@generate_spacetime_aggregations example_collaborators
              [example_block_without_prefix] ["2020-01-01"] None "features"
              None (default true None) false example_world)
    as [[blocks|e] w2] eqn:H.
  { vm_compute in H. discriminate H. }
  by rewrite (failing_generator_aborts
                (collaborators := example_collaborators) [] _ [] _ _ _ _ _
                None _ _ _ _ _ eq_refl H).
Defined.
